(** * MnemonicPhrase: mnemonic encryption envelope and batch gas tools

    A shallow embedding of
      - [src/utils/cryptoUtils.js]     (AES-256-CTR envelope, BIP39 wrappers),
      - [src/utils/cryptoUtilsGUI.js]  (AES-256-GCM envelope, BIP39 wrappers),
      - [scripts/tx-server.js]         (backend batch send / reclaim),
      - the GasBatchManager component  (in-browser batch send / reclaim),
    followed by the properties established about them.  Beside the
    envelope functions and the batch handlers the embedding covers the
    export utilities (the second half of [cryptoUtils.js]), the address
    utilities (the second half of [cryptoUtilsGUI.js]), [loadEnvFile] of
    the server, and the CSV reader, the decryption handler and the
    selection of the component.

    Conventions.  A JavaScript string is a [string]; each [ascii] stands for
    one code unit.  A [Buffer]/[Uint8Array] is a [list byte].  BigInt values
    and the (small) JavaScript numbers used as nonces, indices and delays are
    [Z].  Third-party libraries (bip39, crypto-browserify, WebCrypto, ethers)
    are records of functions; what is assumed about them is always stated as
    an explicit hypothesis of the theorem that needs it. *)

From Stdlib Require Import ZArith NArith List Bool Lia.
From Stdlib Require Import Strings.String Strings.Ascii Strings.Byte.
From Stdlib Require Import DecimalString DecimalZ DecimalNat.
Import ListNotations.

Local Open Scope list_scope.

Declare Scope js_scope.
Delimit Scope js_scope with js.
Infix "+++" := String.append (right associativity, at level 60) : js_scope.
Local Open Scope js_scope.

(* ================================================================== *)
(** * Part I.  The embedding                                           *)
(* ================================================================== *)

(** ** JavaScript values used by the sources *)

Module Js.

(** [!s] on a string. *)
Definition is_empty (s : string) : bool :=
  match s with EmptyString => true | String _ _ => false end.

(** The white space class shared by [String.prototype.trim] and the
    regular expression [\s], restricted to code units below 256. *)
Definition is_space (c : ascii) : bool :=
  let n := nat_of_ascii c in
  ((9 <=? n) && (n <=? 13)) || (n =? 32) || (n =? 160).

Fixpoint drop_space (l : list ascii) : list ascii :=
  match l with
  | c :: r => if is_space c then drop_space r else l
  | [] => []
  end.

(** [s.trim()] *)
Definition trim (s : string) : string :=
  string_of_list_ascii
    (rev (drop_space (rev (drop_space (list_ascii_of_string s))))).

(** [s.split(/\s+/)]: [cur] is the piece being read (reversed), [in_ws]
    tells whether the previous code unit belonged to a separator. *)
Fixpoint split_ws_from (cur : list ascii) (in_ws : bool) (l : list ascii)
  : list string :=
  match l with
  | [] => [string_of_list_ascii (rev cur)]
  | c :: r =>
      if is_space c then
        if in_ws then split_ws_from cur true r
        else string_of_list_ascii (rev cur) :: split_ws_from [] true r
      else split_ws_from (c :: cur) false r
  end.

Definition split_ws (s : string) : list string :=
  split_ws_from [] false (list_ascii_of_string s).

(** [s.split(' ')]: every single space separates two pieces. *)
Fixpoint split_space_from (cur : list ascii) (l : list ascii) : list string :=
  match l with
  | [] => [string_of_list_ascii (rev cur)]
  | c :: r =>
      if Ascii.eqb c " " then
        string_of_list_ascii (rev cur) :: split_space_from [] r
      else split_space_from (c :: cur) r
  end.

Definition split_space (s : string) : list string :=
  split_space_from [] (list_ascii_of_string s).

(** [xs.filter(Boolean)] on an array of strings. *)
Definition filter_Boolean (xs : list string) : list string :=
  filter (fun w => negb (is_empty w)) xs.

(** [s.startsWith(p)] *)
Definition startsWith (s p : string) : bool := String.prefix p s.

(** [s.slice(0, n)] and [s.slice(-n)] for [n > 0]. *)
Definition slice_to (n : nat) (s : string) : string :=
  string_of_list_ascii (firstn n (list_ascii_of_string s)).

Definition slice_last (n : nat) (s : string) : string :=
  string_of_list_ascii
    (skipn (String.length s - n) (list_ascii_of_string s)).

(** Template-literal rendering of integers. *)
Definition of_nat (n : nat) : string := NilEmpty.string_of_uint (Nat.to_uint n).
Definition of_Z (z : Z) : string := NilEmpty.string_of_int (Z.to_int z).

(** Case folding used by the [/i] flag, on ASCII letters. *)
Definition lower (c : ascii) : ascii :=
  let n := nat_of_ascii c in
  if (65 <=? n) && (n <=? 90) then ascii_of_nat (n + 32) else c.

Fixpoint prefix_ci (p l : list ascii) : bool :=
  match p, l with
  | [], _ => true
  | a :: p', b :: l' => Ascii.eqb (lower a) (lower b) && prefix_ci p' l'
  | _ :: _, [] => false
  end.

Fixpoint includes_ci_list (p l : list ascii) : bool :=
  prefix_ci p l ||
  match l with
  | [] => false
  | _ :: r => includes_ci_list p r
  end.

(** [/p/i.test(s)] for a pattern [p] made of literal characters. *)
Definition test_ci (p s : string) : bool :=
  includes_ci_list (list_ascii_of_string p) (list_ascii_of_string s).

Fixpoint prefix_list (p l : list ascii) : bool :=
  match p, l with
  | [], _ => true
  | a :: p', b :: l' => Ascii.eqb a b && prefix_list p' l'
  | _ :: _, [] => false
  end.

Fixpoint includes_list (p l : list ascii) : bool :=
  prefix_list p l ||
  match l with
  | [] => false
  | _ :: r => includes_list p r
  end.

(** [s.includes(p)] *)
Definition includes (s p : string) : bool :=
  includes_list (list_ascii_of_string p) (list_ascii_of_string s).

(** An [Error] object: the two properties the sources read. *)
Record Error := mkError { code : string; message : string }.

(** [new Error(msg)] *)
Definition new_Error (msg : string) : Error := mkError "" msg.

End Js.

(** ** Control flow: state, exceptions and [continue]

    A computation runs on a mutable state [St]; what was written before a
    [throw] stays written, as in JavaScript.  [Continue] is the [continue]
    statement: it unwinds to the enclosing loop iteration and is not caught
    by [try]/[catch]. *)

Module Flow.

Inductive Outcome (A : Type) : Type :=
| Ret (a : A)
| Throw (e : Js.Error)
| Continue.
Arguments Ret {A} a.
Arguments Throw {A} e.
Arguments Continue {A}.

Definition M (St A : Type) : Type := St -> Outcome A * St.

Section Ops.
Context {St : Type}.

Definition ret {A} (a : A) : M St A := fun s => (Ret a, s).

Definition bind {A B} (m : M St A) (k : A -> M St B) : M St B :=
  fun s =>
    match m s with
    | (Ret a, s') => k a s'
    | (Throw e, s') => (Throw e, s')
    | (Continue, s') => (Continue, s')
    end.

Definition throw {A} (e : Js.Error) : M St A := fun s => (Throw e, s).

Definition continue_ {A} : M St A := fun s => (Continue, s).

(** [try { m } catch (error) { h error }] *)
Definition try_catch {A} (m : M St A) (h : Js.Error -> M St A) : M St A :=
  fun s =>
    match m s with
    | (Throw e, s') => h e s'
    | r => r
    end.

Definition get : M St St := fun s => (Ret s, s).
Definition modify (f : St -> St) : M St unit := fun s => (Ret tt, f s).

(** Lifting a library call that either throws or returns. *)
Definition lift {A} (r : Js.Error + A) : M St A :=
  match r with
  | inl e => throw e
  | inr a => ret a
  end.

Definition when (b : bool) (m : M St unit) : M St unit :=
  if b then m else ret tt.

(** One pass through a loop body: [continue] ends the pass normally. *)
Definition iteration (body : M St unit) : M St unit :=
  fun s =>
    match body s with
    | (Continue, s') => (Ret tt, s')
    | r => r
    end.

(** [for (let i = i0; i < i0 + xs.length; i += 1) { body i xs[i] }] *)
Fixpoint for_from {X} (i : nat) (xs : list X) (body : nat -> X -> M St unit)
  : M St unit :=
  match xs with
  | [] => ret tt
  | x :: rest =>
      bind (iteration (body i x)) (fun _ => for_from (S i) rest body)
  end.

Definition for_each {X} (xs : list X) (body : nat -> X -> M St unit)
  : M St unit :=
  for_from 0 xs body.

End Ops.

Module Notations.
Notation "x <- m ;; k" := (bind m (fun x => k))
  (at level 61, m at next level, right associativity) : js_scope.
Notation "m ;; k" := (bind m (fun _ => k))
  (at level 61, right associativity) : js_scope.
End Notations.

End Flow.

Import Flow.Notations.

(** ** Bytes *)

Module Bytes.

(** The byte with value [n mod 256] (the [& 0xFF] of the sources). *)
Definition of_N (n : N) : byte :=
  match Byte.of_N (n mod 256) with
  | Some b => b
  | None => x00
  end.

Definition xor (a b : byte) : byte :=
  of_N (N.lxor (Byte.to_N a) (Byte.to_N b)).

(** Pointwise xor; the result is as long as the shorter argument. *)
Fixpoint xor_with (data stream : list byte) : list byte :=
  match data, stream with
  | d :: data', k :: stream' => xor d k :: xor_with data' stream'
  | _, _ => []
  end.

(** Big-endian reading and writing of unsigned integers. *)
Definition to_uint (bs : list byte) : N :=
  fold_left (fun acc b => acc * 256 + Byte.to_N b)%N bs 0%N.

Fixpoint of_uint (len : nat) (n : N) : list byte :=
  match len with
  | O => []
  | S k => of_uint k (n / 256)%N ++ [of_N n]
  end.

Definition hex_digit (n : N) : ascii :=
  nth (N.to_nat n) (list_ascii_of_string "0123456789abcdef") "0"%char.

(** [buf.toString('hex')] *)
Fixpoint to_hex (bs : list byte) : string :=
  match bs with
  | [] => EmptyString
  | b :: r =>
      String (hex_digit (Byte.to_N b / 16)%N)
        (String (hex_digit (Byte.to_N b mod 16)%N) (to_hex r))
  end.

End Bytes.

(** ** Base64, as [Buffer] writes and reads it

    [encode] is [buf.toString('base64')].  [decode] is
    [Buffer.from(text, 'base64')]: it reads up to the first ['='], skips
    every character outside the alphabet (the URL-safe ['-'] and ['_']
    included in the alphabet), and never throws. *)

Module Base64.

Definition alphabet : list ascii :=
  list_ascii_of_string
    "ABCDEFGHIJKLMNOPQRSTUVWXYZabcdefghijklmnopqrstuvwxyz0123456789+/".

Definition char_of_sextet (n : N) : ascii :=
  nth (N.to_nat n) alphabet "A"%char.

Definition sextet_of_char (c : ascii) : option N :=
  let n := N_of_ascii c in
  if ((65 <=? n) && (n <=? 90))%N then Some (n - 65)%N
  else if ((97 <=? n) && (n <=? 122))%N then Some (n - 71)%N
  else if ((48 <=? n) && (n <=? 57))%N then Some (n + 4)%N
  else if ((n =? 43) || (n =? 45))%N then Some 62%N
  else if ((n =? 47) || (n =? 95))%N then Some 63%N
  else None.

(** Three bytes make four sextets; one or two trailing bytes make two or
    three. *)
Fixpoint sextets (bs : list byte) : list N :=
  match bs with
  | a :: b :: c :: rest =>
      let n := (Byte.to_N a * 65536 + Byte.to_N b * 256 + Byte.to_N c)%N in
      (n / 262144 :: (n / 4096) mod 64 :: (n / 64) mod 64 :: n mod 64
         :: sextets rest)%N
  | [a; b] =>
      let n := (Byte.to_N a * 256 + Byte.to_N b)%N in
      [n / 1024; (n / 16) mod 64; (n * 4) mod 64]%N
  | [a] =>
      let n := Byte.to_N a in
      [n / 4; (n * 16) mod 64]%N
  | [] => []
  end.

Definition padding (len : nat) : list ascii :=
  match Nat.modulo len 3 with
  | 1 => ["="; "="]%char
  | 2 => ["="]%char
  | _ => []
  end.

Definition encode (bs : list byte) : string :=
  string_of_list_ascii
    (map char_of_sextet (sextets bs) ++ padding (List.length bs)).

(** [str.split('=')[0]] *)
Fixpoint before_pad (l : list ascii) : list ascii :=
  match l with
  | [] => []
  | c :: r => if Ascii.eqb c "=" then [] else c :: before_pad r
  end.

Fixpoint valid_sextets (l : list ascii) : list N :=
  match l with
  | [] => []
  | c :: r =>
      match sextet_of_char c with
      | Some n => n :: valid_sextets r
      | None => valid_sextets r
      end
  end.

Fixpoint bytes_of_sextets (l : list N) : list byte :=
  match l with
  | a :: b :: c :: d :: rest =>
      let n := (a * 262144 + b * 4096 + c * 64 + d)%N in
      Bytes.of_N (n / 65536) :: Bytes.of_N (n / 256) :: Bytes.of_N n
        :: bytes_of_sextets rest
  | [a; b; c] =>
      let n := (a * 1024 + b * 16 + c / 4)%N in
      [Bytes.of_N (n / 256); Bytes.of_N n]
  | [a; b] => [Bytes.of_N (a * 4 + b / 16)]
  | _ => []
  end.

Definition decode (s : string) : list byte :=
  let l := valid_sextets (before_pad (list_ascii_of_string s)) in
  if (List.length l <? 2)%nat then [] else bytes_of_sextets l.

(** The alphabet agrees with its inverse table at [n], and the character
    for [n] is not the padding character. *)
Definition table_ok (n : N) : bool :=
  match sextet_of_char (char_of_sextet n) with
  | Some m => (m =? n)%N
  | None => false
  end
  && negb (Ascii.eqb (char_of_sextet n) "=").

Definition sextet (n : N) : Prop := (n < 64)%N.

End Base64.

(** ** AES-256 in counter mode, as [createCipheriv('aes-256-ctr', key, iv)]

    The block permutation itself is a parameter.  Counter mode encrypts the
    successive values of a 128-bit big-endian counter that starts at the IV
    and xors the resulting key stream onto the data; [final()] adds
    nothing.  Deciphering is the same operation. *)

Module AesCtr.

Definition BlockFn : Type := list byte -> N -> N.

Definition block_bytes : nat := 16.
Definition counter_modulus : N := (2 ^ 128)%N.

Fixpoint keystream (E : BlockFn) (key : list byte) (ctr : N) (blocks : nat)
  : list byte :=
  match blocks with
  | O => []
  | S k =>
      Bytes.of_uint block_bytes (E key ctr)
        ++ keystream E key ((ctr + 1) mod counter_modulus)%N k
  end.

Definition blocks_for (len : nat) : nat := Nat.div (len + 15) 16.

Record Cipher := mkCipher { c_key : list byte; c_iv : list byte }.

(** The constructor checks the sizes of its arguments. *)
Definition createCipheriv (key iv : list byte) : Js.Error + Cipher :=
  if negb (List.length key =? 32)%nat then inl (Js.new_Error "invalid key length")
  else if negb (List.length iv =? 16)%nat then inl (Js.new_Error "invalid iv length")
  else inr (mkCipher key iv).

(** [cipher.update(data)] followed by [cipher.final()] *)
Definition update_final (E : BlockFn) (c : Cipher) (data : list byte)
  : list byte :=
  Bytes.xor_with data
    (keystream E (c_key c) (Bytes.to_uint (c_iv c))
       (blocks_for (List.length data))).

End AesCtr.

(** ** The libraries behind the two crypto modules *)

Module Bip39.

(** The three entry points of the bip39 package that the sources call. *)
Record Lib := mkLib {
  validateMnemonic : string -> Js.Error + bool;
  (** [bip39.entropyToMnemonic(hex)] *)
  entropyToMnemonic : string -> Js.Error + string;
  (** [bip39.generateMnemonic(strength)], drawing on the random source *)
  generateMnemonic : Z -> (nat -> byte) -> (Js.Error + string) * (nat -> byte)
}.

(** The words of a phrase, as the interface splits them
    ([mnemonic.split(' ')]). *)
Definition words (mnemonic : string) : list string := Js.split_space mnemonic.

End Bip39.

Module Crypto.

(** The random source: an unbounded supply of bytes. *)
Definition Rng : Type := nat -> byte.

(** Calls into the cryptographic libraries, in the order they are made. *)
Inductive Op : Type :=
| OpRandomBytes (n : nat)
| OpPbkdf2 (password : string) (salt : list byte)
| OpCreateCipheriv
| OpCreateDecipheriv
| OpImportKey
| OpDeriveKey (salt : list byte)
| OpSubtleDecrypt.

Record State := mkState { rng : Rng; ops : list Op }.

Definition record (o : Op) : Flow.M State unit :=
  Flow.modify (fun s => mkState (rng s) (ops s ++ [o])).

(** [randomBytes(n)] *)
Definition randomBytes (n : nat) : Flow.M State (list byte) :=
  fun s =>
    (Flow.Ret (map (rng s) (seq 0 n)),
     mkState (fun i => rng s (n + i)%nat) (ops s ++ [OpRandomBytes n])).

(** crypto-browserify and [Buffer], as [cryptoUtils.js] uses them. *)
Record NodeLib := mkNodeLib {
  (** [pbkdf2(password, salt, iterations, keylen, digest, callback)] *)
  pbkdf2 : string -> list byte -> Z -> nat -> string -> Js.Error + list byte;
  aes256 : AesCtr.BlockFn;
  (** [cipher.update(text, 'utf8')] reads its argument through this *)
  utf8_write : string -> list byte;
  (** [buf.toString('utf8')] *)
  utf8_toString : list byte -> string
}.

(** The browser, as [cryptoUtilsGUI.js] uses it. *)
Record WebLib := mkWebLib {
  atob : string -> Js.Error + string;
  textEncode : string -> list byte;
  textDecode : list byte -> string;
  (** [crypto.subtle.importKey('raw', data, 'PBKDF2', false, ['deriveKey'])] *)
  importKey : list byte -> Js.Error + list byte;
  (** [crypto.subtle.deriveKey({PBKDF2, salt, iterations, SHA-256},
       keyMaterial, {AES-GCM, 256}, false, usage)] *)
  deriveKey : list byte -> Z -> list byte -> Js.Error + list byte;
  (** [crypto.subtle.decrypt({AES-GCM, iv}, key, data)] *)
  subtleDecrypt : list byte -> list byte -> list byte -> Js.Error + list byte
}.

End Crypto.

(** ** [src/utils/cryptoUtils.js] *)

Module CryptoUtils.
Import Flow Crypto.

(** [CRYPTO_CONSTANTS.SUPPORTED_WORD_COUNTS] *)
Definition SUPPORTED_WORD_COUNTS : list Z := [12; 15; 18; 21; 24]%Z.

(** The object literal [entropyBits]. *)
Definition entropyBits : list (Z * Z) :=
  [(12, 128); (15, 160); (18, 192); (21, 224); (24, 256)]%Z.

Fixpoint lookup (k : Z) (table : list (Z * Z)) : option Z :=
  match table with
  | [] => None
  | (k', v) :: rest => if (k =? k')%Z then Some v else lookup k rest
  end.

(** [!bits] for a table entry that may be missing. *)
Definition missing (bits : option Z) : bool :=
  match bits with
  | None => true
  | Some b => (b =? 0)%Z
  end.

Section WithLibraries.
Variable B : Bip39.Lib.
Variable L : NodeLib.

Definition validateMnemonic (mnemonic : string) : bool :=
  match Bip39.validateMnemonic B mnemonic with
  | inr b => b
  | inl _ => false
  end.

Definition generateMnemonic (wordCount : Z) : M State string :=
  try_catch
    (let bits := lookup wordCount entropyBits in
     if missing bits then
       throw (Js.new_Error ("不支持的助记词长度: " +++ Js.of_Z wordCount))
     else
       entropy <- randomBytes (Z.to_nat (match bits with Some b => b | None => 0 end / 8)) ;;
       mnemonic <- lift (Bip39.entropyToMnemonic B (Bytes.to_hex entropy)) ;;
       valid <- lift (Bip39.validateMnemonic B mnemonic) ;;
       if negb valid then throw (Js.new_Error "生成的助记词验证失败")
       else ret mnemonic)
    (fun error =>
       throw (Js.new_Error ("助记词生成失败: " +++ Js.message error))).

Definition iterations : Z := 10000.

Definition deriveKey (password : string) (salt : list byte)
  : M State (list byte) :=
  record (OpPbkdf2 password salt) ;;
  lift (pbkdf2 L password salt iterations 32 "sha256").

Definition encryptMnemonic (mnemonic password : string) : M State string :=
  try_catch
    (if Js.is_empty mnemonic || Js.is_empty password then
       throw (Js.new_Error "助记词和密码不能为空")
     else if negb (validateMnemonic mnemonic) then
       throw (Js.new_Error "助记词格式不正确")
     else
       salt <- randomBytes 16 ;;
       iv <- randomBytes 16 ;;
       key <- deriveKey password salt ;;
       record OpCreateCipheriv ;;
       cipher <- lift (AesCtr.createCipheriv key iv) ;;
       let encrypted :=
         AesCtr.update_final (aes256 L) cipher (utf8_write L mnemonic) in
       let finalData := salt ++ iv ++ encrypted in
       ret (Base64.encode finalData))
    (fun error => throw (Js.new_Error ("加密失败: " +++ Js.message error))).

Definition decryptMnemonic (encryptedData password : string)
  : M State string :=
  try_catch
    (if Js.is_empty encryptedData || Js.is_empty password then
       throw (Js.new_Error "加密数据和密码不能为空")
     else
       let data := Base64.decode encryptedData in
       if (List.length data <? 32)%nat then
         throw (Js.new_Error "加密数据格式错误")
       else
         let salt := firstn 16 data in
         let iv := firstn 16 (skipn 16 data) in
         let encrypted := skipn 32 data in
         key <- deriveKey password salt ;;
         record OpCreateDecipheriv ;;
         decipher <- lift (AesCtr.createCipheriv key iv) ;;
         let decrypted := AesCtr.update_final (aes256 L) decipher encrypted in
         let mnemonicText := utf8_toString L decrypted in
         if negb (validateMnemonic mnemonicText) then
           throw (Js.new_Error
                    "解密结果不是有效的助记词，可能密码错误或数据损坏")
         else ret mnemonicText)
    (fun error => throw (Js.new_Error ("解密失败: " +++ Js.message error))).

End WithLibraries.

End CryptoUtils.

(** ** [src/utils/cryptoUtilsGUI.js] *)

Module CryptoUtilsGUI.
Import Flow Crypto.

Definition entropyBits : list (Z * Z) :=
  [(12, 128); (15, 160); (18, 192); (21, 224); (24, 256)]%Z.

Section WithLibraries.
Variable B : Bip39.Lib.
Variable W : WebLib.

Definition validateMnemonic (mnemonic : string) : bool :=
  match Bip39.validateMnemonic B mnemonic with
  | inr b => b
  | inl _ => false
  end.

(** [bip39.generateMnemonic(bits)] draws its entropy itself. *)
Definition bip39_generate (bits : Z) : M State string :=
  fun s =>
    let (r, g) := Bip39.generateMnemonic B bits (rng s) in
    lift r (mkState g (ops s)).

Definition generateMnemonic (wordCount : Z) : M State string :=
  try_catch
    (let bits := CryptoUtils.lookup wordCount entropyBits in
     if CryptoUtils.missing bits then
       throw (Js.new_Error ("不支持的助记词长度: " +++ Js.of_Z wordCount))
     else
       mnemonic <- bip39_generate (match bits with Some b => b | None => 0 end) ;;
       valid <- lift (Bip39.validateMnemonic B mnemonic) ;;
       if negb valid then throw (Js.new_Error "生成的助记词验证失败")
       else ret mnemonic)
    (fun error =>
       throw (Js.new_Error ("助记词生成失败: " +++ Js.message error))).

(** [atob(text).split('').map(char => char.charCodeAt(0))] *)
Definition decode_base64 (text : string) : M State (list byte) :=
  binary <- lift (atob W text) ;;
  ret (map byte_of_ascii (list_ascii_of_string binary)).

Definition decryptMnemonic (encryptedData password : string)
  : M State string :=
  try_catch
    (if Js.is_empty encryptedData || Js.is_empty password then
       throw (Js.new_Error "加密数据和密码不能为空")
     else
       data <- decode_base64 encryptedData ;;
       if (List.length data <? 28)%nat then
         throw (Js.new_Error "加密数据格式错误")
       else
         let salt := firstn 16 data in
         let iv := firstn 12 (skipn 16 data) in
         let encrypted := skipn 28 data in
         let passwordData := textEncode W password in
         record OpImportKey ;;
         keyMaterial <- lift (importKey W passwordData) ;;
         record (OpDeriveKey salt) ;;
         key <- lift (deriveKey W salt 10000 keyMaterial) ;;
         record OpSubtleDecrypt ;;
         decrypted <- lift (subtleDecrypt W iv key encrypted) ;;
         let mnemonicText := textDecode W decrypted in
         if negb (validateMnemonic mnemonicText) then
           throw (Js.new_Error "解密结果不是有效的助记词，可能密码错误")
         else ret mnemonicText)
    (fun error => throw (Js.new_Error ("解密失败: " +++ Js.message error))).

End WithLibraries.

End CryptoUtilsGUI.

(** ** The chain, seen through an ethers provider

    Every awaited provider or wallet call is answered by the environment.
    The answer may depend on everything that happened before, so the node is
    a family of functions of the history; the history itself is the trace
    that the run leaves behind. *)

Module Rpc.
Import Flow.

Record FeeData := mkFeeData {
  fd_gasPrice : option Z;
  fd_maxFeePerGas : option Z;
  fd_maxPriorityFeePerGas : option Z
}.

Record FeeOptions := mkFeeOptions {
  maxFeePerGas : Z;
  maxPriorityFeePerGas : Z
}.

(** The object handed to [wallet.sendTransaction]. *)
Record TxRequest := mkTx {
  tx_to : string;
  tx_value : Z;
  tx_gasLimit : Z;
  tx_fees : FeeOptions;
  tx_nonce : Z
}.

(** The object handed to [provider.estimateGas]. *)
Record GasQuery := mkGasQuery {
  gq_to : string;
  gq_from : string;
  gq_value : Z
}.

Inductive Event : Type :=
| EvGetFeeData (r : Js.Error + FeeData)
| EvGetTransactionCount (address : string) (r : Js.Error + Z)
| EvGetBalance (address : string) (r : Js.Error + Z)
| EvEstimateGas (q : GasQuery) (r : Js.Error + Z)
| EvSendTransaction (from : string) (tx : TxRequest) (r : Js.Error + string)
| EvWait (hash : string) (r : Js.Error + unit)
| EvWaitForTransaction (hash : string) (r : Js.Error + unit)
| EvDelay (ms : Z).

Definition History : Type := list Event.

Record Chain := mkChain {
  (** [provider.getFeeData()] *)
  getFeeData : History -> Js.Error + FeeData;
  (** [provider.getTransactionCount(address, 'pending')] *)
  getTransactionCount : History -> string -> Js.Error + Z;
  (** [provider.getBalance(address)] *)
  getBalance : History -> string -> Js.Error + Z;
  (** [provider.estimateGas(tx)] *)
  estimateGas : History -> GasQuery -> Js.Error + Z;
  (** [wallet.sendTransaction(tx)]; the answer is the transaction hash *)
  sendTransaction : History -> string -> TxRequest -> Js.Error + string;
  (** [tx.wait(1)] *)
  wait : History -> string -> Js.Error + unit;
  (** [provider.waitForTransaction(hash, 1)] *)
  waitForTransaction : History -> string -> Js.Error + unit
}.

(** The parts of ethers that need no node. *)
Record Ethers := mkEthers {
  (** [ethers.Wallet.fromPhrase(phrase, undefined, path)]: the address *)
  fromPhrase : string -> string -> Js.Error + string;
  (** [new ethers.Wallet(key)]: the address *)
  newWallet : string -> Js.Error + string;
  parseEther : string -> Js.Error + Z;
  isAddress : string -> bool
}.

(** The variables a batch run mutates. *)
Record State := mkState {
  trace : History;
  logs : list string;
  nextNonce : Z;
  lastSubmittedHash : option string
}.

Definition initial : State := mkState [] [] 0 None.

Definition set_nextNonce (n : Z) : M State unit :=
  modify (fun s => mkState (trace s) (logs s) n (lastSubmittedHash s)).

Definition set_lastSubmittedHash (h : option string) : M State unit :=
  modify (fun s => mkState (trace s) (logs s) (nextNonce s) h).

(** [logs.push(line)], and [setLogs(prev => [...prev, line])] *)
Definition log (line : string) : M State unit :=
  modify (fun s =>
    mkState (trace s) (logs s ++ [line]) (nextNonce s) (lastSubmittedHash s)).

(** [setLogs([])] *)
Definition clear_logs : M State unit :=
  modify (fun s => mkState (trace s) [] (nextNonce s) (lastSubmittedHash s)).

Definition emit (e : Event) (s : State) : State :=
  mkState (trace s ++ [e]) (logs s) (nextNonce s) (lastSubmittedHash s).

(** An awaited call: ask the node, note the exchange, return or throw. *)
Definition await {A} (ask : History -> Js.Error + A)
  (ev : Js.Error + A -> Event) : M State A :=
  fun s => let r := ask (trace s) in lift r (emit (ev r) s).

(** [await delay(ms)] *)
Definition delay (ms : Z) : M State unit :=
  fun s => (Ret tt, emit (EvDelay ms) s).

(** [if (hash)] on a value that is [null] or a string. *)
Definition truthy (h : option string) : option string :=
  match h with
  | Some x => if Js.is_empty x then None else Some x
  | None => None
  end.

(** [a || b] where [a] is a BigInt or [null]. *)
Definition or_else (a : option Z) (b : Z) : Z :=
  match a with
  | Some v => if (v =? 0)%Z then b else v
  | None => b
  end.

(** [ethers.parseUnits('0.05', 'gwei')] *)
Definition fallbackPriority : Z := 50000000.

Section WithChain.
Variable C : Chain.

Definition getFeeOptions : M State FeeOptions :=
  feeData <- await (getFeeData C) EvGetFeeData ;;
  ret (mkFeeOptions
         (or_else (fd_maxFeePerGas feeData)
            (or_else (fd_gasPrice feeData) fallbackPriority))
         (or_else (fd_maxPriorityFeePerGas feeData) fallbackPriority)).

Definition pendingNonce (address : string) : M State Z :=
  await (fun h => getTransactionCount C h address)
    (EvGetTransactionCount address).

Definition balanceOf (address : string) : M State Z :=
  await (fun h => getBalance C h address) (EvGetBalance address).

Definition estimate (q : GasQuery) : M State Z :=
  await (fun h => estimateGas C h q) (EvEstimateGas q).

Definition send (from : string) (tx : TxRequest) : M State string :=
  await (fun h => sendTransaction C h from tx) (EvSendTransaction from tx).

Definition waitOne (hash : string) : M State unit :=
  await (fun h => wait C h hash) (EvWait hash).

Definition waitForOne (hash : string) : M State unit :=
  await (fun h => waitForTransaction C h hash) (EvWaitForTransaction hash).

End WithChain.

(** [isNonceError] and [isInFlightLimitError] are written identically in
    the server and in the component. *)
Definition isNonceError (error : Js.Error) : bool :=
  String.eqb (Js.code error) "NONCE_EXPIRED"
  || Js.test_ci "nonce too low" (Js.message error)
  || Js.test_ci "already been used" (Js.message error).

Definition isInFlightLimitError (error : Js.Error) : bool :=
  Js.test_ci "in-flight transaction limit" (Js.message error).

End Rpc.

(** ** [scripts/tx-server.js] *)

Module TxServer.
Import Flow Rpc.

Definition FUNDING_PATH : string := "m/44'/60'/0'/0/0".
Definition GAS_LIMIT_FALLBACK : Z := 60000.

Record SendPayload := mkSendPayload {
  recipients : list string;
  amountEth : string;
  delayMs : Z;
  waitConfirm : bool;
  rpcUrl : string;
  fundingSecret : string;
  fundingPath : string
}.

Record Entry := mkEntry { address : string; privateKey : string }.

Record ReclaimPayload := mkReclaimPayload {
  entries : list Entry;
  r_rpcUrl : string;
  reserveEth : string;
  r_delayMs : Z;
  r_waitConfirm : bool;
  reclaimAddress : string
}.

(** [a || b] on strings *)
Definition or_default (a b : string) : string :=
  if Js.is_empty a then b else a.

Definition addGasBuffer (gasLimit : Z) : Z :=
  if (gasLimit <=? 0)%Z then gasLimit
  else (gasLimit + Z.quot gasLimit 5)%Z.

Definition short (a : string) : string :=
  Js.slice_to 6 a +++ "..." +++ Js.slice_last 4 a.

Definition position (i total : nat) : string :=
  Js.of_nat (i + 1) +++ "/" +++ Js.of_nat total.

(** The [label] of a recipient in [handleSendBatch]. *)
Definition send_label (total i : nat) (to : string) : string :=
  position i total +++ " " +++ short to.

(** The [label] of an entry in [handleReclaimBatch]. *)
Definition reclaim_label (total i : nat) (address : string) : string :=
  position i total +++ " "
    +++ (if Js.is_empty address then "未知" else short address).

Section WithEnvironment.
Variable E : Ethers.
Variable C : Chain.

Definition resolveFundingWallet (secret path : string) : Js.Error + string :=
  let trimmed := Js.trim secret in
  if Js.is_empty trimmed then inl (Js.new_Error "fundingSecret is required")
  else
    let words := Js.filter_Boolean (Js.split_ws trimmed) in
    if (12 <=? List.length words)%nat then
      fromPhrase E trimmed (or_default path FUNDING_PATH)
    else
      let key :=
        if Js.startsWith trimmed "0x" then trimmed else "0x" +++ trimmed in
      newWallet E key.

Definition estimateGasLimit (q : GasQuery) (fallback : Z) : M State Z :=
  try_catch
    (est <- estimate C q ;; ret (addGasBuffer est))
    (fun _ => ret fallback).

(** The value [estimateGasLimit] returns for the node's answer [r]. *)
Definition buffered (r : Js.Error + Z) (fallback : Z) : Z :=
  match r with
  | inr est => addGasBuffer est
  | inl _ => fallback
  end.

Definition bump_nonce : M State unit :=
  s <- get ;; set_nextNonce (nextNonce s + 1)%Z.

(** The body of the loop of [handleSendBatch], for recipient [i]. *)
Definition send_iteration (wallet : string) (fees : FeeOptions) (value : Z)
  (p : SendPayload) (total i : nat) (to : string) : M State unit :=
  let label := send_label total i to in
  gasLimit <- estimateGasLimit (mkGasQuery to wallet value)
                GAS_LIMIT_FALLBACK ;;
  try_catch
    (s <- get ;;
     hash <- send C wallet (mkTx to value gasLimit fees (nextNonce s)) ;;
     bump_nonce ;;
     set_lastSubmittedHash (Some hash) ;;
     log ("✅ 已提交 " +++ label +++ " → " +++ hash) ;;
     when (waitConfirm p)
       (waitOne C hash ;; log ("✅ 已确认 " +++ label)))
    (fun error =>
       if isNonceError error || isInFlightLimitError error then
         try_catch
           (when (isInFlightLimitError error)
              (log ("⏳ 节点限制未确认交易数量，等待确认后重试 " +++ label) ;;
               s <- get ;;
               match truthy (lastSubmittedHash s) with
               | Some last => waitForOne C last
               | None => delay (Z.max (delayMs p) 2000)
               end) ;;
            fresh <- pendingNonce C wallet ;;
            set_nextNonce fresh ;;
            s <- get ;;
            hash <- send C wallet
                      (mkTx to value gasLimit fees (nextNonce s)) ;;
            bump_nonce ;;
            set_lastSubmittedHash (Some hash) ;;
            log ("✅ 已重试提交 " +++ label +++ " → " +++ hash) ;;
            when (waitConfirm p)
              (waitOne C hash ;; log ("✅ 已确认 " +++ label)))
           (fun retryError =>
              log ("❌ 发送失败 " +++ label +++ ": "
                     +++ Js.message retryError))
       else
         log ("❌ 发送失败 " +++ label +++ ": " +++ Js.message error)) ;;
  when ((i <? total - 1)%nat && (delayMs p >? 0)%Z) (delay (delayMs p)).

Definition handleSendBatch (p : SendPayload) : M State (list string) :=
  let fundingPath := or_default (fundingPath p) FUNDING_PATH in
  if (List.length (recipients p) =? 0)%nat then
    throw (Js.new_Error "recipients is required")
  else if Js.is_empty (rpcUrl p) then
    throw (Js.new_Error "rpcUrl is required")
  else if Js.is_empty (fundingSecret p) then
    throw (Js.new_Error "fundingSecret is required")
  else if Js.is_empty (amountEth p) then
    throw (Js.new_Error "amountEth is required")
  else
    wallet <- lift (resolveFundingWallet (fundingSecret p) fundingPath) ;;
    fees <- getFeeOptions C ;;
    value <- lift (parseEther E (amountEth p)) ;;
    clear_logs ;;
    first <- pendingNonce C wallet ;;
    set_nextNonce first ;;
    set_lastSubmittedHash None ;;
    for_each (recipients p)
      (send_iteration wallet fees value p (List.length (recipients p))) ;;
    s <- get ;;
    ret (logs s).

(** The body of the loop of [handleReclaimBatch], for entry [i]. *)
Definition reclaim_iteration (fees : FeeOptions) (reserveWei : Z)
  (p : ReclaimPayload) (total i : nat) (entry : Entry) : M State unit :=
  let label := reclaim_label total i (address entry) in
  if Js.is_empty (privateKey entry) then
    log ("⚠️ 无私钥，跳过 " +++ label) ;; continue_
  else
    try_catch
      (let key :=
         if Js.startsWith (privateKey entry) "0x" then privateKey entry
         else "0x" +++ privateKey entry in
       wallet <- lift (newWallet E key) ;;
       nonce <- pendingNonce C wallet ;;
       balance <- balanceOf C wallet ;;
       estimatedGasLimit <-
         estimateGasLimit (mkGasQuery (reclaimAddress p) wallet 1)
           GAS_LIMIT_FALLBACK ;;
       let gasCost := (estimatedGasLimit * maxFeePerGas fees)%Z in
       let sendable := (balance - reserveWei - gasCost)%Z in
       if (sendable <=? 0)%Z then
         log ("⚠️ 余额不足，跳过 " +++ label) ;; continue_
       else
         finalGasLimit <-
           estimateGasLimit (mkGasQuery (reclaimAddress p) wallet sendable)
             estimatedGasLimit ;;
         let finalGasCost := (finalGasLimit * maxFeePerGas fees)%Z in
         let finalSendable := (balance - reserveWei - finalGasCost)%Z in
         if (finalSendable <=? 0)%Z then
           log ("⚠️ 余额不足，跳过 " +++ label) ;; continue_
         else
           hash <- send C wallet
                     (mkTx (reclaimAddress p) finalSendable finalGasLimit
                        fees nonce) ;;
           log ("✅ 已提交 " +++ label +++ " → " +++ hash) ;;
           when (r_waitConfirm p)
             (waitOne C hash ;; log ("✅ 已确认 " +++ label)))
      (fun error =>
         log ("❌ 回收失败 " +++ label +++ ": " +++ Js.message error)) ;;
    when ((i <? total - 1)%nat && (r_delayMs p >? 0)%Z)
      (delay (r_delayMs p)).

Definition handleReclaimBatch (p : ReclaimPayload) : M State (list string) :=
  let reserveEth := or_default (reserveEth p) "0" in
  if (List.length (entries p) =? 0)%nat then
    throw (Js.new_Error "entries is required")
  else if Js.is_empty (r_rpcUrl p) then
    throw (Js.new_Error "rpcUrl is required")
  else if Js.is_empty (reclaimAddress p) then
    throw (Js.new_Error "reclaimAddress is required")
  else
    fees <- getFeeOptions C ;;
    reserveWei <- lift (parseEther E reserveEth) ;;
    clear_logs ;;
    for_each (entries p)
      (reclaim_iteration fees reserveWei p (List.length (entries p))) ;;
    s <- get ;;
    ret (logs s).

End WithEnvironment.

End TxServer.

(** ** The GasBatchManager component (in-browser sender) *)

Module GasBatchManager.
Import Flow Rpc.

Inductive SecretType : Type := mnemonic | privateKey | unknown.

Definition guessSecretType (value : string) : SecretType :=
  let trimmed := Js.trim value in
  let words := Js.filter_Boolean (Js.split_ws trimmed) in
  if (12 <=? List.length words)%nat then mnemonic
  else if Js.startsWith trimmed "0x" && (64 <=? String.length trimmed)%nat
  then privateKey
  else if negb (Js.startsWith trimmed "0x")
          && (64 <=? String.length trimmed)%nat
  then privateKey
  else unknown.

(** [formatAddress(address, 6, 4)] from the address utilities. *)
Definition formatAddress (address : string) : string :=
  if Js.is_empty address || (String.length address <? 6 + 4)%nat then address
  else Js.slice_to 6 address +++ "..." +++ Js.slice_last 4 address.

(** The [label] of a recipient or account in the two loops. *)
Definition label (total i : nat) (address : string) : string :=
  TxServer.position i total +++ " " +++ formatAddress address.

Record Account := mkAccount {
  acc_address : string;
  acc_privateKey : string
}.

(** The component state read by the two handlers. *)
Record Form := mkForm {
  sending : bool;
  reclaiming : bool;
  fundingSecret : string;
  fundingPath : string;
  rpcUrl : string;
  selectedAccounts : list Account;
  validManualRecipients : list string;
  sendAmount : string;
  sendDelayMs : Z;
  waitConfirm : bool;
  useBackendSender : bool;
  reclaimAddress : string;
  reclaimReserve : string;
  reclaimDelayMs : Z;
  reclaimWaitConfirm : bool
}.

(** The two requests the component can post to the backend. *)
Record Backend := mkBackend {
  postSendBatch : TxServer.SendPayload -> Js.Error + list string;
  postReclaimBatch : TxServer.ReclaimPayload -> Js.Error + list string
}.

Fixpoint log_all (lines : list string) : M State unit :=
  match lines with
  | [] => ret tt
  | l :: rest => log l ;; log_all rest
  end.

Section WithEnvironment.
Variable E : Ethers.
Variable C : Chain.
Variable K : Backend.
Variable f : Form.

Definition describeRpcError (error : Js.Error) : string :=
  let message := Js.message error in
  if Js.includes message "Failed to fetch" then
    if useBackendSender f then
      "后端服务无法访问，请确认 tx-server 已启动且地址正确。"
    else
      "RPC 请求被浏览器拦截（可能是 CORS），请启用本地代理或更换支持跨域的 RPC。"
  else if Js.includes message "Not a correct jsonrpc format request" then
    "RPC 返回格式错误，可能请求体未按 JSON-RPC 发送。建议启用本地代理或更换 RPC。"
  else message.

Definition resolveFundingWallet : Js.Error + string :=
  let trimmed := Js.trim (fundingSecret f) in
  match guessSecretType trimmed with
  | mnemonic => fromPhrase E trimmed (fundingPath f)
  | privateKey =>
      let key :=
        if Js.startsWith trimmed "0x" then trimmed else "0x" +++ trimmed in
      newWallet E key
  | unknown =>
      inl (Js.new_Error "资金账户输入无效，请输入私钥或助记词")
  end.

Definition bump_nonce : M State unit :=
  s <- get ;; set_nextNonce (nextNonce s + 1)%Z.

(** Submission and the bookkeeping that follows it; the same five
    statements open the [try] block and both retry blocks. *)
Definition submit (wallet : string) (fees : FeeOptions) (amountWei : Z)
  (to label submitted : string) : M State unit :=
  s <- get ;;
  hash <- send C wallet (mkTx to amountWei 21000 fees (nextNonce s)) ;;
  bump_nonce ;;
  set_lastSubmittedHash (Some hash) ;;
  log (submitted +++ label +++ " → " +++ hash) ;;
  when (waitConfirm f) (waitOne C hash ;; log ("✅ 已确认 " +++ label)).

(** The body of the loop of [handleBatchSend], for recipient [i]. *)
Definition send_iteration (wallet : string) (fees : FeeOptions)
  (amountWei : Z) (total i : nat) (to : string) : M State unit :=
  let label := label total i to in
  try_catch
    (submit wallet fees amountWei to label "✅ 已提交 ")
    (fun error =>
       if isNonceError error then
         try_catch
           (fresh <- pendingNonce C wallet ;;
            set_nextNonce fresh ;;
            submit wallet fees amountWei to label "✅ 已重试提交 ")
           (fun retryError =>
              log ("❌ 发送失败 " +++ label +++ ": "
                     +++ Js.message retryError))
       else if isInFlightLimitError error then
         try_catch
           (log ("⏳ 节点限制未确认交易数量，等待确认后重试 " +++ label) ;;
            s <- get ;;
            match truthy (lastSubmittedHash s) with
            | Some last => waitForOne C last
            | None => delay (Z.max (sendDelayMs f) 2000)
            end ;;
            fresh <- pendingNonce C wallet ;;
            set_nextNonce fresh ;;
            submit wallet fees amountWei to label "✅ 已重试提交 ")
           (fun retryError =>
              log ("❌ 发送失败 " +++ label +++ ": "
                     +++ Js.message retryError))
       else
         log ("❌ 发送失败 " +++ label +++ ": " +++ Js.message error)) ;;
  when (i <? total - 1)%nat (delay (sendDelayMs f)).

Definition send_recipients : list string :=
  filter (isAddress E) (map acc_address (selectedAccounts f))
    ++ validManualRecipients f.

Definition handleBatchSend : M State unit :=
  if sending f then ret tt
  else if Js.is_empty (Js.trim (fundingSecret f)) then
    log "❌ 请输入资金账户私钥或助记词"
  else if Js.is_empty (Js.trim (rpcUrl f)) then
    log "❌ 请输入 RPC 地址"
  else if (List.length (selectedAccounts f) =? 0)%nat
          && (List.length (validManualRecipients f) =? 0)%nat then
    log "❌ 请至少选择一个收款地址"
  else
    match parseEther E (sendAmount f) with
    | inl _ => log "❌ 转账数量无效"
    | inr amountWei =>
        clear_logs ;;
        try_catch
          (let recipients := send_recipients in
           if useBackendSender f then
             lines <- lift (postSendBatch K
                        (TxServer.mkSendPayload recipients (sendAmount f)
                           (sendDelayMs f) (waitConfirm f) (rpcUrl f)
                           (fundingSecret f) (fundingPath f))) ;;
             log_all lines
           else
             wallet <- lift resolveFundingWallet ;;
             fees <- getFeeOptions C ;;
             first <- pendingNonce C wallet ;;
             set_nextNonce first ;;
             set_lastSubmittedHash None ;;
             for_each recipients
               (send_iteration wallet fees amountWei
                  (List.length recipients)))
          (fun error =>
             log ("❌ 发送流程失败: " +++ describeRpcError error))
    end.

(** The body of the loop of [handleBatchReclaim], for account [i]. *)
Definition reclaim_iteration (fees : FeeOptions) (reserveWei gasCost : Z)
  (total i : nat) (account : Account) : M State unit :=
  let label := label total i (acc_address account) in
  if Js.is_empty (acc_privateKey account) then
    log ("⚠️ 无私钥，跳过 " +++ label) ;; continue_
  else
    try_catch
      (wallet <- lift (newWallet E (acc_privateKey account)) ;;
       nonce <- pendingNonce C wallet ;;
       balance <- balanceOf C wallet ;;
       let sendable := (balance - reserveWei - gasCost)%Z in
       if (sendable <=? 0)%Z then
         log ("⚠️ 余额不足，跳过 " +++ label) ;; continue_
       else
         hash <- send C wallet
                   (mkTx (reclaimAddress f) sendable 21000 fees nonce) ;;
         log ("✅ 已提交 " +++ label +++ " → " +++ hash) ;;
         when (reclaimWaitConfirm f)
           (waitOne C hash ;; log ("✅ 已确认 " +++ label)))
      (fun error =>
         log ("❌ 回收失败 " +++ label +++ ": " +++ Js.message error)) ;;
    when (i <? total - 1)%nat (delay (reclaimDelayMs f)).

Definition handleBatchReclaim : M State unit :=
  if reclaiming f then ret tt
  else if negb (isAddress E (reclaimAddress f)) then
    log "❌ 请输入有效的主账号地址"
  else if Js.is_empty (Js.trim (rpcUrl f)) then
    log "❌ 请输入 RPC 地址"
  else if (List.length (selectedAccounts f) =? 0)%nat then
    log "❌ 请至少选择一个回收账号"
  else
    match parseEther E (reclaimReserve f) with
    | inl _ => log "❌ 预留手续费无效"
    | inr reserveWei =>
        clear_logs ;;
        try_catch
          (if useBackendSender f then
             lines <- lift (postReclaimBatch K
                        (TxServer.mkReclaimPayload
                           (map (fun a =>
                                   TxServer.mkEntry (acc_address a)
                                     (acc_privateKey a))
                              (selectedAccounts f))
                           (rpcUrl f) (reclaimReserve f)
                           (reclaimDelayMs f) (reclaimWaitConfirm f)
                           (reclaimAddress f))) ;;
             log_all lines
           else
             fees <- getFeeOptions C ;;
             let gasCost := (maxFeePerGas fees * 21000)%Z in
             for_each (selectedAccounts f)
               (reclaim_iteration fees reserveWei gasCost
                  (List.length (selectedAccounts f))))
          (fun error =>
             log ("❌ 回收流程失败: " +++ describeRpcError error))
    end.

End WithEnvironment.

End GasBatchManager.

(** ** Reading a history *)

Module Observe.
Import Rpc.

(** The requests handed to [sendTransaction], with the node's answers. *)
Fixpoint submissions (h : History) : list (TxRequest * (Js.Error + string)) :=
  match h with
  | [] => []
  | EvSendTransaction _ tx r :: rest => (tx, r) :: submissions rest
  | _ :: rest => submissions rest
  end.

Definition sent_nonces (h : History) : list Z :=
  map (fun x => tx_nonce (fst x)) (submissions h).

Definition sent_to (h : History) : list string :=
  map (fun x => tx_to (fst x)) (submissions h).

(** A submission or a confirmation wait that threw. *)
Definition is_failure (e : Event) : bool :=
  match e with
  | EvSendTransaction _ _ (inl _) => true
  | EvWait _ (inl _) => true
  | _ => false
  end.

Definition error_free (h : History) : Prop :=
  forallb (fun e => negb (is_failure e)) h = true.

Definition is_accepted (e : Event) : bool :=
  match e with
  | EvSendTransaction _ _ (inr _) => true
  | _ => false
  end.

(** No submission was accepted. *)
Definition none_accepted (h : History) : Prop :=
  existsb is_accepted h = false.

(** A pending nonce the node reported during [h]. *)
Definition fetched (n : Z) (h : History) : Prop :=
  exists a, In (EvGetTransactionCount a (inr n)) h.

(** The errors after which the catch blocks try again. *)
Definition retryable (e : Js.Error) : bool :=
  isNonceError e || isInFlightLimitError e.

(** A submission or a confirmation wait of [h] threw [e]. *)
Definition thrown (e : Js.Error) (h : History) : Prop :=
  (exists w tx, In (EvSendTransaction w tx (inl e)) h)
  \/ (exists hash, In (EvWait hash (inl e)) h).

Definition is_delay (e : Event) : bool :=
  match e with
  | EvDelay _ => true
  | _ => false
  end.

(** What happened after the first submission. *)
Fixpoint after_submission (h : History) : History :=
  match h with
  | [] => []
  | EvSendTransaction _ _ _ :: rest => rest
  | _ :: rest => after_submission rest
  end.

(** [n; n+1; ...] of length [k] *)
Fixpoint consecutive (n : Z) (k : nat) : list Z :=
  match k with
  | O => []
  | S k' => n :: consecutive (n + 1) k'
  end.

(** Log lines of the reclaim loops. *)
Definition skip_line (label : string) : string := "⚠️ 余额不足，跳过 " +++ label.

Definition failure_line (label : string) (e : Js.Error) : string :=
  "❌ 回收失败 " +++ label +++ ": " +++ Js.message e.

(** Log line of a recipient whose retry failed too. *)
Definition send_failure_line (label : string) (e : Js.Error) : string :=
  "❌ 发送失败 " +++ label +++ ": " +++ Js.message e.

(** The number of words both entry points count in a trimmed secret. *)
Definition word_count (s : string) : nat :=
  List.length (Js.filter_Boolean (Js.split_ws s)).

(** The key both entry points hand to [new ethers.Wallet]. *)
Definition as_key (t : string) : string :=
  if Js.startsWith t "0x" then t else "0x" +++ t.


(** The errors a caller of the crypto modules sees. *)
Definition format_error : Js.Error :=
  Js.new_Error "解密失败: 加密数据格式错误".

Definition unsupported (w : Z) : Js.Error :=
  Js.new_Error ("助记词生成失败: 不支持的助记词长度: " +++ Js.of_Z w).

End Observe.

(** ** What is assumed of the libraries *)

Module Contract.

(** The entropy sizes (in bytes) and strengths (in bits) of BIP39. *)
Definition entropy_size (n : nat) : Prop :=
  n = 16%nat \/ n = 20%nat \/ n = 24%nat \/ n = 28%nat \/ n = 32%nat.

Definition strength (bits : Z) : Prop :=
  (bits = 128 \/ bits = 160 \/ bits = 192 \/ bits = 224 \/ bits = 256)%Z.

(** bip39 turns valid entropy into a phrase that it validates itself, with
    three words for every four bytes. *)
Record generator (B : Bip39.Lib) : Prop := {
  entropy_phrase :
    forall e, entropy_size (List.length e) ->
      exists m,
        Bip39.entropyToMnemonic B (Bytes.to_hex e) = inr m
        /\ Bip39.validateMnemonic B m = inr true
        /\ (4 * List.length (Bip39.words m) = 3 * List.length e)%nat;
  generated_phrase :
    forall bits g, strength bits ->
      exists m g',
        Bip39.generateMnemonic B bits g = (inr m, g')
        /\ Bip39.validateMnemonic B m = inr true
        /\ (32 * Z.of_nat (List.length (Bip39.words m)) = 3 * bits)%Z
}.

(** bip39 rejects the empty string, PBKDF2 returns a key of the requested
    size, and a phrase that bip39 accepts survives the UTF-8 round trip
    through a [Buffer]. *)
Record envelope (B : Bip39.Lib) (L : Crypto.NodeLib) : Prop := {
  empty_rejected :
    Bip39.validateMnemonic B "" <> inr true;
  pbkdf2_size :
    forall password salt,
      exists key,
        Crypto.pbkdf2 L password salt CryptoUtils.iterations 32 "sha256"
          = inr key
        /\ List.length key = 32%nat;
  utf8_round_trip :
    forall m, Bip39.validateMnemonic B m = inr true ->
      Crypto.utf8_toString L (Crypto.utf8_write L m) = m
}.

End Contract.

(** ** Small stand-ins for the libraries, to run the functions on *)

Module Demo.

Definition wordlist : list string :=
  ["legal"; "winner"; "thank"; "year"; "wave"; "sausage"; "worth";
   "useful"; "yellow"; "zoo"; "wrong"; "abandon"; "about"]%string.

Definition known (w : string) : bool :=
  existsb (String.eqb w) wordlist.

Definition valid (m : string) : bool :=
  let ws := Js.split_space m in
  let n := List.length ws in
  (Nat.modulo n 3 =? 0)%nat && (12 <=? n)%nat && (n <=? 24)%nat
  && forallb known ws.

Definition phrase (n : nat) : string :=
  String.concat " " (repeat "zoo"%string n).

Definition bip39 : Bip39.Lib :=
  Bip39.mkLib
    (fun m => inr (valid m))
    (fun hex => inr (phrase (Nat.div (3 * String.length hex) 8)))
    (fun bits g =>
       (inr (phrase (Z.to_nat (3 * bits / 32))),
        fun i => g (Z.to_nat (bits / 8) + i)%nat)).

Definition stretch (password : string) (salt : list byte) (len : nat)
  : list byte :=
  map (fun i =>
         Bytes.of_N (N.of_nat i * 31 + Bytes.to_uint (firstn 4 salt)
                     + N.of_nat (String.length password) * 7)%N)
    (seq 0 len).

Definition mix : AesCtr.BlockFn :=
  fun key ctr =>
    ((ctr * 6364136223846793005 + Bytes.to_uint (firstn 8 key)
      + 1442695040888963407) mod AesCtr.counter_modulus)%N.

Definition node : Crypto.NodeLib :=
  Crypto.mkNodeLib
    (fun password salt _ len _ => inr (stretch password salt len))
    mix
    list_byte_of_string
    string_of_list_byte.

(** A toy AEAD: the tag is sixteen copies of the first key byte. *)
Definition open (iv key data : list byte) : Js.Error + list byte :=
  let n := (List.length data - 16)%nat in
  if (List.length data <? 16)%nat then
    inl (Js.mkError "OperationError" "")
  else if forallb (fun b => Byte.eqb b (hd x00 key)) (skipn n data) then
    inr (Bytes.xor_with (firstn n data)
           (AesCtr.keystream mix key (Bytes.to_uint iv)
              (AesCtr.blocks_for n)))
  else inl (Js.mkError "OperationError" "").

Definition web : Crypto.WebLib :=
  Crypto.mkWebLib
    (fun text => inr (string_of_list_byte (Base64.decode text)))
    list_byte_of_string
    string_of_list_byte
    (fun data => inr data)
    (fun salt _ material => inr (stretch "" (salt ++ material) 32))
    open.

Definition zeros : Crypto.Rng := fun _ => x00.
Definition counting : Crypto.Rng := fun i => Bytes.of_N (N.of_nat i).
Definition start (g : Crypto.Rng) : Crypto.State := Crypto.mkState g [].

Definition sample_mnemonic : string :=
  "legal winner thank year wave sausage worth useful legal winner thank yellow".

(** The sample phrase under the password ["Test1234!"], for the CTR
    module. *)
Definition ctr_envelope : string :=
  match CryptoUtils.encryptMnemonic bip39 node sample_mnemonic "Test1234!"
          (start counting) with
  | (Flow.Ret envelope, _) => envelope
  | _ => ""
  end.

(** The same for the GCM module: salt, IV, the phrase under the toy
    cipher, and its tag. *)
Definition gui_key : list byte :=
  stretch "" (repeat x00 16 ++ list_byte_of_string "Test1234!") 32.

Definition gui_envelope : string :=
  Base64.encode
    (repeat x00 28
     ++ Bytes.xor_with (list_byte_of_string sample_mnemonic)
          (AesCtr.keystream mix gui_key 0
             (AesCtr.blocks_for (String.length sample_mnemonic)))
     ++ repeat (hd x00 gui_key) 16).

(** Eight zero bytes, in Base64. *)
Definition envelope8 : string := Base64.encode (repeat x00 8).

(** Thirty-two and twenty-eight zero bytes, in Base64. *)
Definition envelope32 : string := Base64.encode (repeat x00 32).
Definition envelope28 : string := Base64.encode (repeat x00 28).

Definition ethers : Rpc.Ethers :=
  Rpc.mkEthers
    (fun phrase _ => inr ("0xF0" +++ Js.slice_to 4 phrase))
    (fun key => inr ("0xAD" +++ Js.slice_last 4 key))
    (fun _ => inr 1000%Z)
    (fun _ => true).

Definition fee_data : Rpc.FeeData := Rpc.mkFeeData (Some 10%Z) None None.

(** A node on which everything succeeds: the pending nonce is 5 plus the
    number of transactions accepted so far, every estimate is 21000. *)
Definition accepted (h : Rpc.History) : Z :=
  Z.of_nat (List.length
    (filter (fun e => match e with
                      | Rpc.EvSendTransaction _ _ (inr _) => true
                      | _ => false
                      end) h)).

Definition calm : Rpc.Chain :=
  Rpc.mkChain
    (fun _ => inr fee_data)
    (fun h _ => inr (5 + accepted h)%Z)
    (fun _ _ => inr 1000000%Z)
    (fun _ _ => inr 21000%Z)
    (fun h _ tx => inr ("0xhash" +++ Js.of_Z (Rpc.tx_nonce tx)))
    (fun _ _ => inr tt)
    (fun _ _ => inr tt).

Definition nonce_too_low : Js.Error :=
  Js.mkError "NONCE_EXPIRED" "nonce too low".

(** A node that refuses every transaction as stale and reports 7 as the
    pending nonce. *)
Definition stale : Rpc.Chain :=
  Rpc.mkChain
    (fun _ => inr fee_data)
    (fun h _ => inr (if (List.length h <=? 1)%nat then 5 else 7)%Z)
    (fun _ _ => inr 1000000%Z)
    (fun _ _ => inr 21000%Z)
    (fun _ _ _ => inl nonce_too_low)
    (fun _ _ => inr tt)
    (fun _ _ => inr tt).

(** A node whose accounts are empty. *)
Definition broke : Rpc.Chain :=
  Rpc.mkChain
    (fun _ => inr fee_data)
    (fun _ _ => inr 0%Z)
    (fun _ _ => inr 0%Z)
    (fun _ _ => inr 21000%Z)
    (fun h _ tx => inr ("0xhash" +++ Js.of_Z (Rpc.tx_nonce tx)))
    (fun _ _ => inr tt)
    (fun _ _ => inr tt).

Definition no_backend : GasBatchManager.Backend :=
  GasBatchManager.mkBackend
    (fun _ => inl (Js.new_Error "Failed to fetch"))
    (fun _ => inl (Js.new_Error "Failed to fetch")).

Definition alice : string := "0x1111111111111111111111111111111111111111".
Definition bob : string := "0x2222222222222222222222222222222222222222".
Definition carol : string := "0x3333333333333333333333333333333333333333".
Definition secret_key : string :=
  "0x4c0883a69102937d6231471b5dbb6204fe5129617082792ae468d01a3f362318".

Definition send_payload (rs : list string) : TxServer.SendPayload :=
  TxServer.mkSendPayload rs "0.00003" 0 false "http://localhost:8545"
    secret_key "".

Definition reclaim_payload (es : list TxServer.Entry)
  : TxServer.ReclaimPayload :=
  TxServer.mkReclaimPayload es "http://localhost:8545" "0" 0 false alice.

Definition form (secret : string) (rs : list string) : GasBatchManager.Form :=
  GasBatchManager.mkForm false false secret "m/44'/60'/0'/0/0"
    "http://localhost:8545"
    (map (fun a => GasBatchManager.mkAccount a secret_key) rs) []
    "0.00003" 400 false false alice "0.0000001" 400 false.

Definition wallet : string := "0xAD2318".
Definition fees : Rpc.FeeOptions := Rpc.mkFeeOptions 10 50000000.
Definition at_nonce_5 : Rpc.State := Rpc.mkState [] [] 5 None.

Definition alice_entry : TxServer.Entry := TxServer.mkEntry alice secret_key.
Definition bob_entry : TxServer.Entry := TxServer.mkEntry bob secret_key.

(** A run of the server on the calm node, for three recipients. *)
Definition calm_run : Flow.Outcome (list string) * Rpc.State :=
  TxServer.handleSendBatch ethers calm (send_payload [alice; bob; carol])
    Rpc.initial.

Definition lines_of (r : Flow.Outcome (list string) * Rpc.State)
  : list string :=
  match fst r with
  | Flow.Ret l => l
  | _ => []
  end.

End Demo.

(** ** More of [String.prototype] and [Array.prototype] *)

Module Text.

Definition dquote : ascii := "034"%char.
Definition squote : ascii := "039"%char.
Definition LF : ascii := "010"%char.
Definition CR : ascii := "013"%char.

(** The one-character string. *)
Definition char (c : ascii) : string := String c EmptyString.

(** [s.toLowerCase()], on ASCII letters; the other code units are kept. *)
Definition toLowerCase (s : string) : string :=
  string_of_list_ascii (map Js.lower (list_ascii_of_string s)).

(** [s.padStart(n, fill)] for a one-character [fill]. *)
Definition padStart (n : nat) (fill : ascii) (s : string) : string :=
  string_of_list_ascii (repeat fill (n - String.length s)) +++ s.

(** [xs.join(sep)] *)
Definition join (sep : string) (xs : list string) : string :=
  String.concat sep xs.

(** [xs.map((x, index) => f index x)], counting from [i]. *)
Fixpoint mapi_from {A B} (i : nat) (f : nat -> A -> B) (xs : list A) : list B :=
  match xs with
  | [] => []
  | x :: rest => f i x :: mapi_from (S i) f rest
  end.

Definition mapi {A B} (f : nat -> A -> B) (xs : list A) : list B :=
  mapi_from 0 f xs.

(** [a || b] on a string that may be [undefined]. *)
Definition or_string (a : option string) (b : string) : string :=
  match a with
  | Some x => if Js.is_empty x then b else x
  | None => b
  end.

(** [a || b] on a number that may be [undefined]. *)
Definition or_number (a : option Z) (b : Z) : Z :=
  match a with
  | Some x => if (x =? 0)%Z then b else x
  | None => b
  end.

(** [s.replace(/^"|"$/g, '')]: one leading and one trailing double quote
    are removed. *)
Definition strip_quotes_list (l : list ascii) : list ascii :=
  let l1 :=
    match l with
    | c :: r => if Ascii.eqb c dquote then r else l
    | [] => []
    end in
  match rev l1 with
  | c :: r => if Ascii.eqb c dquote then rev r else l1
  | [] => []
  end.

Definition strip_quotes (s : string) : string :=
  string_of_list_ascii (strip_quotes_list (list_ascii_of_string s)).

(** [s.replace(/:/g, '-')] *)
Definition dash_colons (s : string) : string :=
  string_of_list_ascii
    (map (fun c => if Ascii.eqb c ":" then "-"%char else c)
       (list_ascii_of_string s)).

(** A plain object used as a map from strings: [obj[key]] and
    [obj[key] = v].  The keys keep their insertion order. *)
Fixpoint obj_get {V} (key : string) (obj : list (string * V)) : option V :=
  match obj with
  | [] => None
  | (k, v) :: rest => if String.eqb key k then Some v else obj_get key rest
  end.

Fixpoint obj_set {V} (key : string) (v : V) (obj : list (string * V))
  : list (string * V) :=
  match obj with
  | [] => [(key, v)]
  | (k, old) :: rest =>
      if String.eqb key k then (k, v) :: rest
      else (k, old) :: obj_set key v rest
  end.

(** Reading a decimal numeral, leading zeros allowed. *)
Definition read_nat (s : string) : option nat :=
  option_map Nat.of_uint (NilEmpty.uint_of_string s).

End Text.

(** ** The export utilities ([FileExportUtils], in [fileExportUtils.js])

    The clock, the locale and [JSON.stringify] belong to the host.  A
    function that reads the clock takes the reading as [now]. *)

Module FileExport.
Import Flow.

(** A value handed to [JSON.stringify]. *)
#[warnings="-register-all"]
Inductive Json : Type :=
| JNum (n : Z)
| JStr (s : string)
| JArr (items : list Json)
| JObj (fields : list (string * Json)).

Record Host := mkHost {
  (** [date.toISOString()] *)
  toISOString : Z -> string;
  (** [date.toLocaleString()] *)
  toLocaleString : Z -> string;
  (** [new Date(text).toLocaleString()] *)
  dateLocale : string -> string;
  (** [n.toLocaleString()] on a number *)
  numberLocale : Z -> string;
  (** [JSON.stringify(value, null, 2)] *)
  stringify : Json -> string;
  (** Handing a file to the browser ([saveAs], or a temporary link). *)
  download : string -> string -> Js.Error + unit
}.

(** An encryption result, as the batch processor builds it. *)
Record Result := mkResult {
  id : option Z;
  encryptedData : string;
  address : option string;
  createdAt : string;
  wordCount : Z;
  algorithm : option string;
  keyDerivation : option string;
  iterations : option Z
}.

Definition supportedFormats : list string := ["json"; "csv"; "txt"]%string.
Definition supportedModes : list string :=
  ["single"; "multiple"; "archive"]%string.

Definition nl : string := Text.char Text.LF.
Definition q : string := Text.char Text.dquote.

Definition unsupported_format (format : string) : Js.Error :=
  Js.new_Error ("不支持的格式: " +++ format).

Definition stats_key (count : Z) : string := Js.of_Z count +++ "词".

(** [results.forEach(r => stats[key] = (stats[key] || 0) + 1)] *)
Definition getWordCountStats (results : list Result) : list (string * Z) :=
  fold_left
    (fun stats r =>
       let key := stats_key (wordCount r) in
       Text.obj_set key (Text.or_number (Text.obj_get key stats) 0 + 1)%Z
         stats)
    results [].

Section WithHost.
Variable H : Host.

Definition csv_header : string := "ID,加密数据,EVM地址,创建时间,词数,算法,备注" +++ nl.

(** One line of the CSV export; [tag] is the remark of the last column. *)
Definition csv_row (number : Z) (r : Result) (tag : string) : string :=
  Js.of_Z number +++ ","
  +++ q +++ encryptedData r +++ q +++ ","
  +++ q +++ Text.or_string (address r) "" +++ q +++ ","
  +++ q +++ dateLocale H (createdAt r) +++ q +++ ","
  +++ Js.of_Z (wordCount r) +++ ","
  +++ q +++ Text.or_string (algorithm r) "AES-256-CTR" +++ q +++ ","
  +++ q +++ tag +++ q.

Definition formatSingleData (now : Z) (result : Result) (format : string)
  : Js.Error + string :=
  let f := Text.toLowerCase format in
  if String.eqb f "json" then
    inr (stringify H
           (JObj [("version", JStr "1.0");
                  ("exportTime", JStr (toISOString H now));
                  ("algorithm",
                   JStr (Text.or_string (algorithm result) "AES-256-CTR"));
                  ("keyDerivation",
                   JStr (Text.or_string (keyDerivation result)
                           "PBKDF2-SHA256"));
                  ("iterations",
                   JNum (Text.or_number (iterations result) 10000));
                  ("wordCount", JNum (wordCount result));
                  ("createdAt", JStr (createdAt result));
                  ("encryptedData", JStr (encryptedData result));
                  ("note", JStr "助记词加密工具生成")]%string))
  else if String.eqb f "csv" then
    inr (csv_header
         +++ csv_row (Text.or_number (id result) 1) result "单个导出")
  else if String.eqb f "txt" then
    inr ("=== 助记词加密数据 ===" +++ nl
         +++ "导出时间: " +++ toLocaleString H now +++ nl
         +++ "加密算法: "
         +++ Text.or_string (algorithm result) "AES-256-CTR" +++ nl
         +++ "密钥派生: "
         +++ Text.or_string (keyDerivation result) "PBKDF2-SHA256" +++ nl
         +++ "迭代次数: "
         +++ numberLocale H (Text.or_number (iterations result) 10000) +++ nl
         +++ "助记词长度: " +++ Js.of_Z (wordCount result) +++ " 词" +++ nl
         +++ "创建时间: " +++ dateLocale H (createdAt result) +++ nl +++ nl
         +++ "加密数据:" +++ nl +++ encryptedData result +++ nl +++ nl
         +++ "⚠️ 重要提醒:" +++ nl
         +++ "• 请妥善保管此文件和解密密码" +++ nl
         +++ "• 不要将此文件上传到网络或发送给他人" +++ nl
         +++ "• 建议将文件备份到多个安全位置")
  else inl (unsupported_format format).

Definition formatBatchData (now : Z) (results : list Result) (format : string)
  : Js.Error + string :=
  let f := Text.toLowerCase format in
  let total := Z.of_nat (List.length results) in
  if String.eqb f "json" then
    inr (stringify H
           (JObj [("version", JStr "1.0");
                  ("batchInfo",
                   JObj [("exportTime", JStr (toISOString H now));
                         ("totalCount", JNum total);
                         ("encryptionParams",
                          JStr "AES-256-CTR/PBKDF2-SHA256/10000");
                         ("wordCounts",
                          JObj (map (fun kv => (fst kv, JNum (snd kv)))
                                  (getWordCountStats results)))]%string);
                  ("mnemonics",
                   JArr (Text.mapi
                           (fun index r =>
                              JObj [("id", JNum (Z.of_nat index + 1));
                                    ("encryptedData",
                                     JStr (encryptedData r));
                                    ("createdTime", JStr (createdAt r));
                                    ("wordCount", JNum (wordCount r));
                                    ("algorithm",
                                     JStr (Text.or_string (algorithm r)
                                             "AES-256-CTR"))]%string)
                           results))]%string))
  else if String.eqb f "csv" then
    inr (csv_header
         +++ Text.join nl
               (Text.mapi
                  (fun index r => csv_row (Z.of_nat index + 1) r "批量生成")
                  results))
  else if String.eqb f "txt" then
    inr (("=== 助记词加密批次 ===" +++ nl
          +++ "导出时间: " +++ toLocaleString H now +++ nl
          +++ "总数量: " +++ Js.of_Z total +++ nl
          +++ "加密算法: AES-256-CTR" +++ nl
          +++ "密钥派生: PBKDF2-SHA256" +++ nl
          +++ "迭代次数: 10,000" +++ nl +++ nl)
         +++ Text.join nl
               (Text.mapi
                  (fun index r =>
                     "[" +++ Text.padStart 3 "0" (Js.of_nat (index + 1))
                     +++ "] " +++ Js.of_Z (wordCount r) +++ "词 | "
                     +++ dateLocale H (createdAt r) +++ nl
                     +++ encryptedData r +++ nl)
                  results)
         +++ nl +++ "⚠️ 请妥善保管此文件和解密密码！")
  else inl (unsupported_format format).

(** The object literal [prefixes] of [generateFilename]. *)
Definition prefixes : list (string * string) :=
  [("single", "mnemonic_encrypted");
   ("batch_single", "mnemonic_batch");
   ("batch_multiple", "mnemonic_batch");
   ("batch_archive", "mnemonic_batch_archive")]%string.

Fixpoint prefix_of (type : string) (table : list (string * string))
  : option string :=
  match table with
  | [] => None
  | (k, v) :: rest => if String.eqb type k then Some v else prefix_of type rest
  end.

Definition generateFilename (now : Z) (type format : string) : string :=
  let timestamp := Text.dash_colons (Js.slice_to 19 (toISOString H now)) in
  let prefix := Text.or_string (prefix_of type prefixes) "mnemonic" in
  prefix +++ "_" +++ timestamp +++ "." +++ format.

Definition validateParams (format mode : string) : Js.Error + bool :=
  if negb (existsb (String.eqb (Text.toLowerCase format)) supportedFormats)
  then inl (unsupported_format format)
  else if negb (existsb (String.eqb (Text.toLowerCase mode)) supportedModes)
  then inl (Js.new_Error ("不支持的模式: " +++ mode))
  else inr true.

(** The files handed to the browser so far, oldest first. *)
Definition Saved : Type := list (string * string).

Definition saveFile (data filename : string) : M Saved unit :=
  try_catch
    (lift (download H filename data) ;;
     modify (fun saved => saved ++ [(filename, data)]))
    (fun error =>
       throw (Js.new_Error ("文件保存失败: " +++ Js.message error))).

(** The name of the file for [results[i]] in the multiple-file and the
    archive modes. *)
Definition numbered (prefix format : string) (i : nat) : string :=
  prefix +++ Text.padStart 3 "0" (Js.of_nat (i + 1)) +++ "." +++ format.

(** The first loop of [exportBatchMultiple]; [now i] is the clock when
    [results[i]] is formatted. *)
Fixpoint collect (now : nat -> Z) (prefix format : string) (i : nat)
  (results : list Result) : Js.Error + list (string * string) :=
  match results with
  | [] => inr []
  | result :: rest =>
      match formatSingleData (now i) result format with
      | inl e => inl e
      | inr data =>
          match collect now prefix format (S i) rest with
          | inl e => inl e
          | inr files => inr ((numbered prefix format i, data) :: files)
          end
      end
  end.

Record BatchReport := mkBatchReport {
  count : nat;
  files : list string
}.

Definition exportBatchMultiple (now : nat -> Z) (results : list Result)
  (format prefix : string) : M Saved BatchReport :=
  try_catch
    (files <- lift (collect now prefix format 0 results) ;;
     for_each files (fun _ file => saveFile (snd file) (fst file)) ;;
     ret (mkBatchReport (List.length files) (map fst files)))
    (fun error => throw (Js.new_Error ("导出失败: " +++ Js.message error))).

End WithHost.

End FileExport.

(** ** Reading the results of the export utilities *)

Module ObserveExport.
Import FileExport.

(** The number of results with [w] words. *)
Definition occurrences (w : Z) (results : list Result) : nat :=
  count_occ Z.eq_dec (map wordCount results) w.

(** The entry a count of [n] stands for in a statistics object: none for
    zero. *)
Definition tally (w : Z) (results : list Result) : option Z :=
  match occurrences w results with
  | O => None
  | n => Some (Z.of_nat n)
  end.

Definition total (stats : list (string * Z)) : Z :=
  fold_right Z.add 0%Z (map snd stats).

End ObserveExport.

(** ** Reading the encrypted CSV (GasBatchManager: [parseCsv],
       [detectHeaderMap], [getColumnIndex], [parseEncryptedCsv]) *)

Module Csv.

(** The variables of the scanning loop of [parseCsv]. *)
Record Scan := mkScan {
  rows : list (list string);
  row : list string;
  current : list ascii;
  inQuotes : bool
}.

(** [cell.trim() !== ''] *)
Definition filled (cell : string) : bool := negb (Js.is_empty (Js.trim cell)).

(** [row.some((cell) => cell.trim() !== '')] *)
Definition hasContent (cells : list string) : bool := existsb filled cells.

(** [current += char] *)
Definition add (c : ascii) (st : Scan) : Scan :=
  mkScan (rows st) (row st) (current st ++ [c]) (inQuotes st).

(** [inQuotes = !inQuotes] *)
Definition toggle (st : Scan) : Scan :=
  mkScan (rows st) (row st) (current st) (negb (inQuotes st)).

(** [row.push(current); current = ''] *)
Definition end_cell (st : Scan) : Scan :=
  mkScan (rows st) (row st ++ [string_of_list_ascii (current st)]) []
    (inQuotes st).

(** [row.push(current); if (hasContent) rows.push(row); row = [];
    current = ''] *)
Definition end_row (st : Scan) : Scan :=
  let cells := row st ++ [string_of_list_ascii (current st)] in
  mkScan (if hasContent cells then rows st ++ [cells] else rows st) [] []
    (inQuotes st).

(** The [for] loop over the characters; where the source skips the next
    character ([i += 1]) the scan goes on two characters further. *)
Fixpoint scan (text : list ascii) (st : Scan) : Scan :=
  match text with
  | [] => st
  | char :: rest =>
      if Ascii.eqb char Text.dquote then
        match rest with
        | next :: rest' =>
            if inQuotes st && Ascii.eqb next Text.dquote
            then scan rest' (add Text.dquote st)
            else scan rest (toggle st)
        | [] => scan rest (toggle st)
        end
      else if Ascii.eqb char "," && negb (inQuotes st) then
        scan rest (end_cell st)
      else if (Ascii.eqb char Text.LF || Ascii.eqb char Text.CR)
              && negb (inQuotes st) then
        match rest with
        | next :: rest' =>
            if Ascii.eqb char Text.CR && Ascii.eqb next Text.LF
            then scan rest' (end_row st)
            else scan rest (end_row st)
        | [] => scan rest (end_row st)
        end
      else scan rest (add char st)
  end.

Definition start : Scan := mkScan [] [] [] false.

(** What follows the loop: the last row, when the text does not end with
    a line break. *)
Definition finish (st : Scan) : list (list string) :=
  match current st, row st with
  | [], [] => rows st
  | _, _ => rows (end_row st)
  end.

Definition parseCsv (text : string) : list (list string) :=
  finish (scan (list_ascii_of_string text) start).

Definition normalizeHeader (value : string) : string :=
  if Js.is_empty value then EmptyString
  else Text.toLowerCase (Js.trim (Text.strip_quotes value)).

(** [headerRow.forEach((cell, index) => ...)], from column [index] on.
    Assigning to the key [__proto__] of an object literal creates no
    property. *)
Fixpoint detect_from (index : Z) (cells : list string)
  (map : list (string * Z)) : list (string * Z) :=
  match cells with
  | [] => map
  | cell :: rest =>
      let key := normalizeHeader cell in
      detect_from (index + 1) rest
        (if Js.is_empty key then map
         else if String.eqb key "__proto__" then map
         else Text.obj_set key index map)
  end.

Definition detectHeaderMap (headerRow : list string) : list (string * Z) :=
  detect_from 0 headerRow [].

Fixpoint getColumnIndex (headerMap : list (string * Z))
  (candidates : list string) (fallbackIndex : Z) : Z :=
  match candidates with
  | [] => fallbackIndex
  | key :: rest =>
      match Text.obj_get key headerMap with
      | Some index => index
      | None => getColumnIndex headerMap rest fallbackIndex
      end
  end.

(** [row[index]], which is [undefined] outside the row. *)
Definition cell_at (cells : list string) (index : Z) : option string :=
  if (index <? 0)%Z then None else nth_error cells (Z.to_nat index).

Record Item := mkItem {
  id : Z;
  encryptedData : string;
  address : string;
  privateKey : string
}.

Record Parsed := mkParsed {
  items : list Item;
  warnings : list string
}.

(** [raw.trim().replace(/^"|"$/g, '')] *)
Definition unquote (raw : string) : string :=
  Text.strip_quotes (Js.trim raw).

(** The loop over the data rows; [k] is [i - startIndex]. *)
Fixpoint read_rows (encryptedIndex addressIndex privateKeyIndex : Z)
  (k : nat) (data : list (list string)) : list Item :=
  match data with
  | [] => []
  | cells :: rest =>
      let encryptedData :=
        unquote (Text.or_string (cell_at cells encryptedIndex) "") in
      let address :=
        unquote (Text.or_string (cell_at cells addressIndex) "") in
      let privateKeyRaw :=
        if (0 <=? privateKeyIndex)%Z
        then Text.or_string (cell_at cells privateKeyIndex) ""
        else EmptyString in
      let privateKey :=
        if Js.is_empty privateKeyRaw then EmptyString
        else unquote privateKeyRaw in
      let more :=
        read_rows encryptedIndex addressIndex privateKeyIndex (S k) rest in
      if Js.is_empty encryptedData && Js.is_empty privateKey then more
      else mkItem (Z.of_nat k + 1) encryptedData address privateKey :: more
  end.

Definition parseEncryptedCsv (text : string) : Parsed :=
  match parseCsv text with
  | [] => mkParsed [] ["CSV 文件为空"%string]
  | (header :: _) as all =>
      let headerMap := detectHeaderMap header in
      let hasHeader :=
        existsb (fun key =>
                   Js.includes key "加密" || Js.includes key "encrypted"
                   || Js.includes key "evm" || Js.includes key "地址")
          (map fst headerMap) in
      let startIndex := if hasHeader then 1%nat else 0%nat in
      let encryptedIndex :=
        if hasHeader
        then getColumnIndex headerMap
               ["加密数据"; "encrypteddata"; "encrypted"; "ciphertext"]%string
               0
        else 0%Z in
      let addressIndex :=
        if hasHeader
        then getColumnIndex headerMap
               ["evm地址"; "address"; "钱包地址"; "addr"]%string 1
        else 1%Z in
      let privateKeyIndex :=
        if hasHeader
        then getColumnIndex headerMap
               ["私钥"; "privatekey"; "private key"]%string (-1)
        else (-1)%Z in
      let items :=
        read_rows encryptedIndex addressIndex privateKeyIndex 0
          (skipn startIndex all) in
      mkParsed items
        (match items with
         | [] => ["未能从CSV解析出加密数据"%string]
         | _ => []
         end)
  end.

End Csv.

(** ** Reading the results of the CSV functions *)

Module ObserveCsv.

(** No double quote occurs in [s]. *)
Definition no_quote (s : string) : bool :=
  forallb (fun c => negb (Ascii.eqb c Text.dquote)) (list_ascii_of_string s).

(** [s] has no white space at either end. *)
Definition tidy (s : string) : bool := String.eqb (Js.trim s) s.

(** A result whose line of the CSV export can be read back: none of the
    quoted columns holds a double quote, and the encrypted data is not
    empty and, like the address, has no white space around it. *)
Definition exportable (H : FileExport.Host) (r : FileExport.Result) : bool :=
  no_quote (FileExport.encryptedData r)
  && no_quote (Text.or_string (FileExport.address r) "")
  && no_quote (FileExport.dateLocale H (FileExport.createdAt r))
  && no_quote (Text.or_string (FileExport.algorithm r) "AES-256-CTR")
  && tidy (FileExport.encryptedData r)
  && tidy (Text.or_string (FileExport.address r) "")
  && negb (Js.is_empty (FileExport.encryptedData r)).

(** A character that is copied into the current cell outside quotes. *)
Definition plain (c : ascii) : bool :=
  negb (Ascii.eqb c Text.dquote) && negb (Ascii.eqb c ",")
  && negb (Ascii.eqb c Text.LF) && negb (Ascii.eqb c Text.CR).

(** The text goes on with something else than a double quote. *)
Definition not_quote_next (rest : list ascii) : Prop :=
  match rest with
  | c :: _ => Ascii.eqb c Text.dquote = false
  | [] => True
  end.

(** The cells of the header line and of the line for [results[i]] in the
    CSV export. *)
Definition header_cells : list string :=
  ["ID"; "加密数据"; "EVM地址"; "创建时间"; "词数"; "算法"; "备注"]%string.

Definition cells_of (H : FileExport.Host) (tag : string) (i : nat)
  (r : FileExport.Result) : list string :=
  [Js.of_Z (Z.of_nat i + 1);
   FileExport.encryptedData r;
   Text.or_string (FileExport.address r) "";
   FileExport.dateLocale H (FileExport.createdAt r);
   Js.of_Z (FileExport.wordCount r);
   Text.or_string (FileExport.algorithm r) "AES-256-CTR";
   tag].

(** The item [parseEncryptedCsv] is expected to read for [results[i]]. *)
Definition item_of (i : nat) (r : FileExport.Result) : Csv.Item :=
  Csv.mkItem (Z.of_nat i + 1) (FileExport.encryptedData r)
    (Text.or_string (FileExport.address r) "") "".

(** The identifiers grow strictly, from at least [low]. *)
Fixpoint ascending (low : Z) (ids : list Z) : Prop :=
  match ids with
  | [] => True
  | i :: rest => (low <= i)%Z /\ ascending (i + 1) rest
  end.

(** Every row collected so far has a cell that is not blank. *)
Definition kept (st : Csv.Scan) : Prop :=
  Forall (fun cells => Csv.hasContent cells = true) (Csv.rows st).

End ObserveCsv.

(** ** [validateEncryptedData] of [src/utils/cryptoUtils.js] *)

Module EnvelopeCheck.

(** The object that [validateEncryptedData] returns: [valid: false] with
    an error, or [valid: true] with the lengths and the format. *)
Inductive Validation : Type :=
| invalid (error : string)
| valid (totalLength saltLength ivLength encryptedLength : nat)
    (format : string).

Definition validateEncryptedData (encryptedData : string) : Validation :=
  if Js.is_empty encryptedData then invalid "加密数据不能为空"
  else
    let data := Base64.decode encryptedData in
    if (List.length data <? 33)%nat then invalid "数据长度不足"
    else
      valid (List.length data) 16 16 (List.length data - 32)
        "AES-256-CTR/PBKDF2-SHA256".

End EnvelopeCheck.

(** ** [encryptMnemonic] of [src/utils/cryptoUtilsGUI.js] *)

Module CryptoUtilsGUIEncrypt.
Import Flow Crypto.

(** The browser calls that only encryption makes. *)
Record EncryptLib := mkEncryptLib {
  (** [crypto.subtle.deriveKey({PBKDF2, salt, iterations, SHA-256},
       keyMaterial, {AES-GCM, 256}, false, ['encrypt'])] *)
  deriveEncryptKey : list byte -> Z -> list byte -> Js.Error + list byte;
  (** [crypto.subtle.encrypt({AES-GCM, iv}, key, data)] *)
  subtleEncrypt : list byte -> list byte -> list byte -> Js.Error + list byte
}.

Section WithLibraries.
Variable B : Bip39.Lib.
Variable W : WebLib.
Variable X : EncryptLib.

(** [crypto.getRandomValues(new Uint8Array(n))] draws on the same random
    source as [randomBytes]; [btoa(String.fromCharCode(...result))] is the
    Base64 text of the bytes. *)
Definition encryptMnemonic (mnemonic password : string) : M State string :=
  try_catch
    (if Js.is_empty mnemonic || Js.is_empty password then
       throw (Js.new_Error "助记词和密码不能为空")
     else if negb (CryptoUtilsGUI.validateMnemonic B mnemonic) then
       throw (Js.new_Error "助记词格式不正确")
     else
       let data := textEncode W mnemonic in
       let passwordData := textEncode W password in
       salt <- randomBytes 16 ;;
       record OpImportKey ;;
       keyMaterial <- lift (importKey W passwordData) ;;
       record (OpDeriveKey salt) ;;
       key <- lift (deriveEncryptKey X salt 10000 keyMaterial) ;;
       iv <- randomBytes 12 ;;
       encrypted <- lift (subtleEncrypt X iv key data) ;;
       let result := salt ++ iv ++ encrypted in
       ret (Base64.encode result))
    (fun error => throw (Js.new_Error ("加密失败: " +++ Js.message error))).

End WithLibraries.

End CryptoUtilsGUIEncrypt.

(** ** What is assumed of WebCrypto *)

Module ContractGcm.
Import Crypto CryptoUtilsGUIEncrypt.

(** bip39 rejects the empty string; importing the password and deriving
    the two keys succeed; AES-GCM
    under the key derived for decryption opens what it sealed under the
    key derived for encryption from the same password and salt; [atob]
    reads what [btoa] wrote; and a phrase that bip39 accepts survives
    [TextEncoder] and [TextDecoder]. *)
Record gcm (B : Bip39.Lib) (W : WebLib) (X : EncryptLib) : Prop := {
  empty_refused :
    Bip39.validateMnemonic B "" <> inr true;
  import_succeeds :
    forall data, exists material, importKey W data = inr material;
  keys_match :
    forall salt material,
      exists sealing opening,
        deriveEncryptKey X salt 10000 material = inr sealing
        /\ deriveKey W salt 10000 material = inr opening
        /\ forall iv data,
             exists sealed,
               subtleEncrypt X iv sealing data = inr sealed
               /\ subtleDecrypt W iv opening sealed = inr data;
  atob_btoa :
    forall bytes,
      atob W (Base64.encode bytes)
      = inr (string_of_list_ascii (map ascii_of_byte bytes));
  text_round_trip :
    forall m, Bip39.validateMnemonic B m = inr true ->
      textDecode W (textEncode W m) = m
}.

End ContractGcm.

(** ** The address utilities ([evmUtils.js]) *)

Module EvmUtils.

Definition DEFAULT_ETH_PATH : string := "m/44'/60'/0'/0/0".

(** What the sources read of a wallet. *)
Record Keys := mkKeys {
  k_address : string;
  k_privateKey : string;
  k_publicKey : string
}.

Record Lib := mkLib {
  (** [ethers.HDNodeWallet.fromMnemonic(ethers.Mnemonic.fromPhrase(phrase),
       path)] *)
  fromMnemonic : string -> string -> Js.Error + Keys;
  (** [new ethers.Wallet(privateKey)] *)
  walletOf : string -> Js.Error + Keys
}.

Record AddressInfo := mkAddressInfo {
  address : string;
  privateKey : string;
  publicKey : string;
  path : string;
  mnemonic : string
}.

(** [s.slice(-n)]; [s.slice(-0)] is the whole string. *)
Definition slice_from_end (n : nat) (s : string) : string :=
  if (n =? 0)%nat then s else Js.slice_last n s.

Definition formatAddress (address : string) (prefixLength suffixLength : nat)
  : string :=
  if Js.is_empty address
     || (String.length address <? prefixLength + suffixLength)%nat
  then address
  else Js.slice_to prefixLength address +++ "..."
       +++ slice_from_end suffixLength address.

Section WithLibraries.
Variable B : Bip39.Lib.
Variable V : Lib.

Definition generateEthereumAddress (mnemonic derivationPath : string)
  : Js.Error + AddressInfo :=
  let attempt :=
    match Bip39.validateMnemonic B mnemonic with
    | inl e => inl e
    | inr false => inl (Js.new_Error "无效的助记词")
    | inr true =>
        match fromMnemonic V mnemonic derivationPath with
        | inl e => inl e
        | inr hdWallet =>
            inr (mkAddressInfo (k_address hdWallet) (k_privateKey hdWallet)
                   (k_publicKey hdWallet) derivationPath mnemonic)
        end
    end in
  match attempt with
  | inl error => inl (Js.new_Error ("地址生成失败: " +++ Js.message error))
  | inr info => inr info
  end.

(** An element of the array that [batchGenerateAddresses] returns. *)
Inductive Generated : Type :=
| generated (id : Z) (mnemonic : string) (info : AddressInfo)
| failed (id : Z) (mnemonic : string) (error : string).

Definition batchGenerateAddresses (mnemonics : list string)
  : list Generated :=
  Text.mapi
    (fun index mnemonic =>
       match generateEthereumAddress mnemonic DEFAULT_ETH_PATH with
       | inr addressInfo =>
           generated (Z.of_nat index + 1) (EvmUtils.mnemonic addressInfo)
             addressInfo
       | inl error => failed (Z.of_nat index + 1) mnemonic (Js.message error)
       end)
    mnemonics.

(** An entry of [duplicates]: the address, and the two phrases (with their
    indices) that gave it. *)
Record Duplicate := mkDuplicate {
  d_address : string;
  d_first : string * nat;
  d_second : string * nat
}.

Record Uniqueness := mkUniqueness {
  isUnique : bool;
  totalAddresses : nat;
  duplicates : list Duplicate;
  message : string
}.

(** The [Map] and the array that the loop of [validateAddressUniqueness]
    fills. *)
Record Seen := mkSeen {
  addressMap : list (string * (string * nat));
  found : list Duplicate
}.

Definition visit (seen : Seen) (index : nat) (mnemonic : string) : Seen :=
  match generateEthereumAddress mnemonic DEFAULT_ETH_PATH with
  | inr addressInfo =>
      let address := EvmUtils.address addressInfo in
      match Text.obj_get address (addressMap seen) with
      | Some earlier =>
          mkSeen (addressMap seen)
            (found seen ++ [mkDuplicate address earlier (mnemonic, index)])
      | None =>
          mkSeen (addressMap seen ++ [(address, (mnemonic, index))])
            (found seen)
      end
  | inl _ => seen
  end.

Fixpoint visit_from (index : nat) (mnemonics : list string) (seen : Seen)
  : Seen :=
  match mnemonics with
  | [] => seen
  | mnemonic :: rest => visit_from (S index) rest (visit seen index mnemonic)
  end.

Definition validateAddressUniqueness (mnemonics : list string) : Uniqueness :=
  let seen := visit_from 0 mnemonics (mkSeen [] []) in
  let n := List.length (found seen) in
  mkUniqueness (n =? 0)%nat (List.length (addressMap seen)) (found seen)
    (if (n =? 0)%nat then "所有地址都是唯一的"
     else "发现 " +++ Js.of_nat n +++ " 组重复地址").

End WithLibraries.

End EvmUtils.

(** ** Reading the results of the address utilities *)

Module ObserveEvm.
Import EvmUtils.

(** The addresses derived from the phrases for which derivation
    succeeds, in order. *)
Definition derived (B : Bip39.Lib) (V : Lib) (mnemonics : list string)
  : list string :=
  flat_map
    (fun m =>
       match generateEthereumAddress B V m DEFAULT_ETH_PATH with
       | inr info => [address info]
       | inl _ => []
       end)
    mnemonics.

Definition id_of (g : Generated) : Z :=
  match g with
  | generated id _ _ => id
  | failed id _ _ => id
  end.

Definition mnemonic_of (g : Generated) : string :=
  match g with
  | generated _ m _ => m
  | failed _ m _ => m
  end.

(** The state of the loop of [validateAddressUniqueness] after the
    addresses [acc]: the map holds each of them once, and every repeat
    was recorded. *)
Definition tracks (seen : Seen) (acc : list string) : Prop :=
  let keys := map fst (addressMap seen) in
  NoDup keys
  /\ (forall a, In a keys <-> In a acc)
  /\ (List.length keys + List.length (found seen) = List.length acc)%nat.

End ObserveEvm.

(** ** Reading a history: who sent what *)

Module ObserveBatch.
Import Rpc.

(** The sender and the request of every call of [sendTransaction]. *)
Fixpoint transfers (h : History) : list (string * TxRequest) :=
  match h with
  | [] => []
  | EvSendTransaction from tx _ :: rest => (from, tx) :: transfers rest
  | _ :: rest => transfers rest
  end.

(** [balance] was reported for [address] during [h]. *)
Definition balance_seen (address : string) (balance : Z) (h : History)
  : Prop :=
  In (EvGetBalance address (inr balance)) h.

(** The key [handleReclaimBatch] hands to [new ethers.Wallet] for an
    entry. *)
Definition entry_key (entry : TxServer.Entry) : string :=
  if Js.startsWith (TxServer.privateKey entry) "0x"
  then TxServer.privateKey entry
  else "0x" +++ TxServer.privateKey entry.

(** The pass for a recipient: one or two submissions, all from [wallet]
    to the recipient, of [value], under [fees]. *)
Definition sends_for (wallet : string) (value : Z) (fees : FeeOptions)
  (to : string) (seg : History) : Prop :=
  Forall (fun ft => fst ft = wallet /\ tx_to (snd ft) = to
                    /\ tx_value (snd ft) = value
                    /\ tx_fees (snd ft) = fees) (transfers seg)
  /\ (1 <= List.length (transfers seg) <= 2)%nat.

(** The pass for a reclaim entry whose wallet is made from [key]: at most
    one submission, from that wallet to [target], of a positive amount
    that is the reported balance less the reserve and the gas limit times
    the fee cap. *)
Definition reclaims_for (E : Ethers) (target : string) (reserveWei : Z)
  (fees : FeeOptions) (key : string) (seg : History) : Prop :=
  Forall (fun ft =>
            newWallet E key = inr (fst ft)
            /\ tx_to (snd ft) = target
            /\ tx_fees (snd ft) = fees
            /\ (0 < tx_value (snd ft))%Z
            /\ exists balance,
                 balance_seen (fst ft) balance seg
                 /\ tx_value (snd ft)
                    = (balance - reserveWei
                       - tx_gasLimit (snd ft) * maxFeePerGas fees)%Z)
    (transfers seg)
  /\ (List.length (transfers seg) <= 1)%nat.

End ObserveBatch.

(** ** [loadEnvFile] of [scripts/tx-server.js]

    The file system hands over the content of the file, if the file
    exists; [process.env] is a map from names to strings. *)

Module EnvFile.

Definition Env : Type := string -> option string.

(** [process.env[key] = value] *)
Definition assign (key value : string) (env : Env) : Env :=
  fun name => if String.eqb name key then Some value else env name.

(** [!process.env[key]] *)
Definition unset (env : Env) (key : string) : bool :=
  match env key with
  | Some value => Js.is_empty value
  | None => true
  end.

(** [content.split(/\r?\n/)]; [cur] is the line being read, reversed. *)
Fixpoint lines_from (cur : list ascii) (l : list ascii) : list string :=
  match l with
  | [] => [string_of_list_ascii (rev cur)]
  | c :: r =>
      if Ascii.eqb c Text.LF then
        string_of_list_ascii (rev cur) :: lines_from [] r
      else
        match r with
        | next :: r' =>
            if Ascii.eqb c Text.CR && Ascii.eqb next Text.LF
            then string_of_list_ascii (rev cur) :: lines_from [] r'
            else lines_from (c :: cur) r
        | [] => lines_from (c :: cur) r
        end
  end.

Definition lines (content : string) : list string :=
  lines_from [] (list_ascii_of_string content).

(** The parts before and after the first ['='] ([indexOf] and the two
    [slice]s), if there is one. *)
Fixpoint cut (l : list ascii) : option (list ascii * list ascii) :=
  match l with
  | [] => None
  | c :: r =>
      if Ascii.eqb c "=" then Some ([], r)
      else
        match cut r with
        | Some (before, after) => Some (c :: before, after)
        | None => None
        end
  end.

Definition wrapped (quote : ascii) (l : list ascii) : bool :=
  match l with
  | c :: _ => Ascii.eqb c quote && Ascii.eqb (last l c) quote
  | [] => false
  end.

(** [value.slice(1, -1)] when the value starts and ends with the same
    kind of quote. *)
Definition unwrap (value : string) : string :=
  let l := list_ascii_of_string value in
  if wrapped Text.dquote l || wrapped Text.squote l
  then string_of_list_ascii (removelast (tl l))
  else value.

(** The callback of [forEach]. *)
Definition load_line (env : Env) (line : string) : Env :=
  let trimmed := Js.trim line in
  if Js.is_empty trimmed || Js.startsWith trimmed "#" then env
  else
    match cut (list_ascii_of_string trimmed) with
    | None => env
    | Some (before, after) =>
        let key := Js.trim (string_of_list_ascii before) in
        let value := unwrap (Js.trim (string_of_list_ascii after)) in
        if unset env key then assign key value env else env
    end.

(** [content] is [None] when the file does not exist. *)
Definition loadEnvFile (content : option string) (env : Env) : Env :=
  match content with
  | None => env
  | Some text => fold_left load_line (lines text) env
  end.

End EnvFile.

(** ** Selection and manual recipients (GasBatchManager) *)

Module Selection.

(** [ids.includes(id)] *)
Definition includes (ids : list Z) (id : Z) : bool := existsb (Z.eqb id) ids.

Definition toggleSelection (id : Z) (prev : list Z) : list Z :=
  if includes prev id
  then filter (fun item => negb (item =? id)%Z) prev
  else prev ++ [id].

(** [text.split(/\n|,|;/)]; [cur] is the piece being read, reversed. *)
Definition separator (c : ascii) : bool :=
  Ascii.eqb c Text.LF || Ascii.eqb c "," || Ascii.eqb c ";".

Fixpoint pieces_from (cur : list ascii) (l : list ascii) : list string :=
  match l with
  | [] => [string_of_list_ascii (rev cur)]
  | c :: r =>
      if separator c
      then string_of_list_ascii (rev cur) :: pieces_from [] r
      else pieces_from (c :: cur) r
  end.

Definition parsedRecipients (manualRecipients : string) : list string :=
  Js.filter_Boolean
    (map Js.trim (pieces_from [] (list_ascii_of_string manualRecipients))).

Section WithEthers.
Variable E : Rpc.Ethers.

Definition validManualRecipients (manualRecipients : string) : list string :=
  filter (Rpc.isAddress E) (parsedRecipients manualRecipients).

Definition invalidManualRecipients (manualRecipients : string)
  : list string :=
  filter (fun addr => negb (Js.is_empty addr) && negb (Rpc.isAddress E addr))
    (parsedRecipients manualRecipients).

End WithEthers.

End Selection.

(** ** [handleDecrypt] of the GasBatchManager component *)

Module DecryptView.
Import Flow.

Record Decrypted := mkDecrypted {
  id : Z;
  encryptedData : string;
  address : string;
  sourceAddress : string;
  mnemonic : string;
  privateKey : string;
  (** whether the value stored as [mismatch] is truthy *)
  mismatch : bool
}.

(** The crypto libraries' state, the two arrays local to the handler, and
    the component state the handler sets. *)
Record Run := mkRun {
  crypto : Crypto.State;
  results : list Decrypted;
  errors : list string;
  decrypting : bool;
  decryptErrors : list string;
  decryptProgress : Z;
  decryptedItems : list Decrypted;
  selectedIds : list Z
}.

Definition with_crypto {A} (m : M Crypto.State A) : M Run A :=
  fun r =>
    let (o, c) := m (crypto r) in
    (o, mkRun c (results r) (errors r) (decrypting r) (decryptErrors r)
          (decryptProgress r) (decryptedItems r) (selectedIds r)).

Definition push_result (d : Decrypted) : M Run unit :=
  modify (fun r =>
    mkRun (crypto r) (results r ++ [d]) (errors r) (decrypting r)
      (decryptErrors r) (decryptProgress r) (decryptedItems r)
      (selectedIds r)).

Definition push_error (line : string) : M Run unit :=
  modify (fun r =>
    mkRun (crypto r) (results r) (errors r ++ [line]) (decrypting r)
      (decryptErrors r) (decryptProgress r) (decryptedItems r)
      (selectedIds r)).

Definition setDecrypting (b : bool) : M Run unit :=
  modify (fun r =>
    mkRun (crypto r) (results r) (errors r) b (decryptErrors r)
      (decryptProgress r) (decryptedItems r) (selectedIds r)).

Definition setDecryptErrors (lines : list string) : M Run unit :=
  modify (fun r =>
    mkRun (crypto r) (results r) (errors r) (decrypting r) lines
      (decryptProgress r) (decryptedItems r) (selectedIds r)).

Definition setDecryptProgress (p : Z) : M Run unit :=
  modify (fun r =>
    mkRun (crypto r) (results r) (errors r) (decrypting r) (decryptErrors r)
      p (decryptedItems r) (selectedIds r)).

Definition setDecryptedItems (items : list Decrypted) : M Run unit :=
  modify (fun r =>
    mkRun (crypto r) (results r) (errors r) (decrypting r) (decryptErrors r)
      (decryptProgress r) items (selectedIds r)).

Definition setSelectedIds (ids : list Z) : M Run unit :=
  modify (fun r =>
    mkRun (crypto r) (results r) (errors r) (decrypting r) (decryptErrors r)
      (decryptProgress r) (decryptedItems r) ids).

(** [const results = []; const errors = [];] *)
Definition fresh_arrays : M Run unit :=
  modify (fun r =>
    mkRun (crypto r) [] [] (decrypting r) (decryptErrors r)
      (decryptProgress r) (decryptedItems r) (selectedIds r)).

Section WithLibraries.
Variable B : Bip39.Lib.
Variable W : Crypto.WebLib.
Variable V : EvmUtils.Lib.
(** [Math.round(((i + 1) / n) * 100)], computed in floating point *)
Variable percent : nat -> nat -> Z.

(** The [try] block for one row. *)
Definition decrypt_row (password : string) (item : Csv.Item)
  : M Run Decrypted :=
  mnemonic <-
    (if negb (Js.is_empty (Csv.encryptedData item))
     then with_crypto
            (CryptoUtilsGUI.decryptMnemonic B W (Csv.encryptedData item)
               password)
     else ret EmptyString) ;;
  addressInfo <-
    (if negb (Js.is_empty mnemonic) then
       info <- lift (EvmUtils.generateEthereumAddress B V mnemonic
                       EvmUtils.DEFAULT_ETH_PATH) ;;
       ret (Some (EvmUtils.address info, EvmUtils.privateKey info))
     else if negb (Js.is_empty (Csv.privateKey item)) then
       wallet <- lift (EvmUtils.walletOf V (Csv.privateKey item)) ;;
       ret (Some (EvmUtils.k_address wallet, EvmUtils.k_privateKey wallet))
     else ret None) ;;
  let derived := option_map fst addressInfo in
  ret (mkDecrypted (Csv.id item) (Csv.encryptedData item)
         (Text.or_string derived (Csv.address item))
         (Csv.address item)
         mnemonic
         (Text.or_string (option_map snd addressInfo) (Csv.privateKey item))
         (negb (Js.is_empty (Csv.address item))
          && negb (Js.is_empty (Text.or_string derived ""))
          && negb (String.eqb (Csv.address item)
                     (Text.or_string derived "")))).

Definition decrypt_pass (password : string) (total i : nat)
  (item : Csv.Item) : M Run unit :=
  try_catch
    (d <- decrypt_row password item ;; push_result d)
    (fun error =>
       push_error ("第 " +++ Js.of_Z (Csv.id item) +++ " 行解密失败: "
                   +++ Js.message error)) ;;
  setDecryptProgress (percent i total).

Definition handleDecrypt (decryptPassword : string)
  (encryptedItems : list Csv.Item) : M Run unit :=
  if Js.is_empty decryptPassword then setDecryptErrors ["请输入解密密码"%string]
  else if (List.length encryptedItems =? 0)%nat then
    setDecryptErrors ["请先上传CSV文件"%string]
  else
    setDecrypting true ;;
    setDecryptErrors [] ;;
    setDecryptProgress 0 ;;
    fresh_arrays ;;
    for_each encryptedItems
      (decrypt_pass decryptPassword (List.length encryptedItems)) ;;
    r <- get ;;
    setDecryptedItems (results r) ;;
    setSelectedIds (map id (results r)) ;;
    setDecryptErrors (errors r) ;;
    setDecrypting false.

End WithLibraries.

End DecryptView.

(** ** Reading the result of [handleDecrypt] *)

Module ObserveDecrypt.
Import DecryptView.

Section WithLibraries.
Variable B : Bip39.Lib.
Variable V : EvmUtils.Lib.

(** The row [d] of the table was made from the row [item] of the file:
    it carries its identifier, data and address; a row with encrypted data
    holds a phrase that passed [validateMnemonic] and the keys derived
    from it, a row without holds no phrase. *)
Definition made_from (item : Csv.Item) (d : Decrypted) : Prop :=
  id d = Csv.id item
  /\ encryptedData d = Csv.encryptedData item
  /\ sourceAddress d = Csv.address item
  /\ (Js.is_empty (Csv.encryptedData item) = true -> mnemonic d = EmptyString)
  /\ (Js.is_empty (Csv.encryptedData item) = false ->
      CryptoUtilsGUI.validateMnemonic B (mnemonic d) = true
      /\ (Js.is_empty (mnemonic d) = false ->
          exists info,
            EvmUtils.generateEthereumAddress B V (mnemonic d)
              EvmUtils.DEFAULT_ETH_PATH = inr info
            /\ address d
               = Text.or_string (Some (EvmUtils.address info))
                   (Csv.address item)
            /\ privateKey d
               = Text.or_string (Some (EvmUtils.privateKey info))
                   (Csv.privateKey item))).

(** The fields of the run that a pass of the loop leaves alone. *)
Definition same_view (r r' : Run) : Prop :=
  decrypting r' = decrypting r
  /\ decryptErrors r' = decryptErrors r
  /\ decryptedItems r' = decryptedItems r
  /\ selectedIds r' = selectedIds r.

(** The rows of the table and the rows of the file: every row of the
    file, in order, gave either a row of the table or an error line. *)
Inductive sorted_out
  : list Csv.Item -> list Decrypted -> list string -> Prop :=
| sorted_nil : sorted_out [] [] []
| sorted_row item items d ds es :
    made_from item d -> sorted_out items ds es ->
    sorted_out (item :: items) (d :: ds) es
| sorted_error item items line ds es :
    sorted_out items ds es ->
    sorted_out (item :: items) ds (line :: es).

End WithLibraries.

End ObserveDecrypt.

(** ** Stand-ins for the host of the export utilities, and sample data *)

Module Fixtures.

Definition host : FileExport.Host :=
  FileExport.mkHost
    (fun _ => "2025-01-02T03:04:05.678Z"%string)
    (fun _ => "2025/1/2 03:04:05"%string)
    (fun text => text)
    Js.of_Z
    (fun _ => "{}"%string)
    (fun _ _ => inr tt).

Definition result (n : Z) (data : string) (address : string)
  : FileExport.Result :=
  FileExport.mkResult (Some n) data (Some address)
    "2025-01-02T03:04:05.678Z" 12 (Some "AES-256-CTR"%string)
    (Some "PBKDF2-SHA256"%string) (Some 10000%Z).

Definition results : list FileExport.Result :=
  [result 1 "QUJDRA==" Demo.alice; result 2 "RUZHSA==" Demo.bob].

(** The sealing half of the toy AEAD of [Demo.open]. *)
Definition seal (iv key data : list byte) : Js.Error + list byte :=
  inr (Bytes.xor_with data
         (AesCtr.keystream Demo.mix key (Bytes.to_uint iv)
            (AesCtr.blocks_for (List.length data)))
       ++ repeat (hd x00 key) 16).

Definition webcrypto : CryptoUtilsGUIEncrypt.EncryptLib :=
  CryptoUtilsGUIEncrypt.mkEncryptLib
    (fun salt _ material => inr (Demo.stretch "" (salt ++ material) 32))
    seal.

(** A derivation that keeps the first word of the phrase, and a wallet
    constructor that keeps the end of the key. *)
Definition evm : EvmUtils.Lib :=
  EvmUtils.mkLib
    (fun phrase _ =>
       inr (EvmUtils.mkKeys ("0xF0" +++ Js.slice_to 5 phrase)
              ("0xkey" +++ Js.slice_to 5 phrase) "0x04"))
    (fun key =>
       inr (EvmUtils.mkKeys ("0xAD" +++ Js.slice_last 4 key) key "0x04")).

Definition other_mnemonic : string :=
  "zoo zoo zoo zoo zoo zoo zoo zoo zoo zoo zoo wrong".

(** Three rows of an uploaded file: the sample phrase under
    ["Test1234!"], data that is too short, and a bare private key. *)
Definition rows : list Csv.Item :=
  [Csv.mkItem 1 Demo.gui_envelope "0xF0legal" "";
   Csv.mkItem 2 Demo.envelope8 Demo.bob "";
   Csv.mkItem 3 "" "" Demo.secret_key].

(** A percentage, rounded to the nearest integer. *)
Definition percent (i total : nat) : Z :=
  Z.of_nat (((i + 1) * 200 + total) / (2 * total)).

Definition idle : DecryptView.Run :=
  DecryptView.mkRun (Demo.start Demo.zeros) [] [] false [] 0 [] [].

(** A file the server reads at start. *)
Definition env_text : string :=
  String.concat (String Text.LF EmptyString)
    ["# funding"; "FUNDING_PATH = 'm/1'"; "PORT=8788"; "noise"]%string.

Definition env : EnvFile.Env :=
  EnvFile.assign "PORT" "9000" (fun _ => None).




End Fixtures.

(** ** Reading the answer of a wallet constructor *)

Module ObserveFunding.

(** The call returned a wallet. *)
Definition accepted {A} (r : Js.Error + A) : bool :=
  match r with
  | inr _ => true
  | inl _ => false
  end.


End ObserveFunding.

(* ================================================================== *)
(** * Part II.  Properties                                             *)
(* ================================================================== *)

(** ** Bytes, Base64 and counter mode *)

Module BytesFacts.

Lemma to_N_lt (b : byte) : (Byte.to_N b < 256)%N.
Proof. pose proof (Byte.to_N_bounded b). lia. Qed.

Lemma of_N_spec (n : N) (b : byte) :
  (n mod 256 = Byte.to_N b)%N -> Bytes.of_N n = b.
Proof.
  intros H. unfold Bytes.of_N. rewrite H, Byte.of_to_N. reflexivity.
Qed.

Lemma to_N_of_N (n : N) : Byte.to_N (Bytes.of_N n) = (n mod 256)%N.
Proof.
  unfold Bytes.of_N. destruct (Byte.of_N (n mod 256)) as [b|] eqn:E.
  - now apply Byte.to_of_N in E.
  - apply Byte.of_N_None_iff in E.
    pose proof (N.mod_upper_bound n 256). lia.
Qed.

Lemma high_bits (x : N) (m : N) :
  (x < 256)%N -> (8 <= m)%N -> N.testbit x m = false.
Proof.
  intros Hx Hm. rewrite <- (N.mod_small x (2 ^ 8)) by exact Hx.
  now apply N.mod_pow2_bits_high.
Qed.

Lemma lxor_lt (x y : N) : (x < 256)%N -> (y < 256)%N -> (N.lxor x y < 256)%N.
Proof.
  intros Hx Hy.
  assert (E : (N.lxor x y mod 2 ^ 8 = N.lxor x y)%N).
  { apply N.bits_inj. intros m.
    destruct (N.lt_ge_cases m 8) as [Hm|Hm].
    - now rewrite N.mod_pow2_bits_low.
    - rewrite N.mod_pow2_bits_high by exact Hm.
      rewrite N.lxor_spec, !high_bits by assumption. reflexivity. }
  rewrite <- E. apply N.mod_upper_bound. discriminate.
Qed.

Lemma xor_involutive (a k : byte) : Bytes.xor (Bytes.xor a k) k = a.
Proof.
  unfold Bytes.xor at 1. apply of_N_spec.
  unfold Bytes.xor. rewrite to_N_of_N.
  rewrite (N.mod_small (N.lxor (Byte.to_N a) (Byte.to_N k)))
    by (apply lxor_lt; apply to_N_lt).
  rewrite N.lxor_assoc, N.lxor_nilpotent, N.lxor_0_r.
  apply N.mod_small, to_N_lt.
Qed.

Lemma xor_with_length (data stream : list byte) :
  (List.length data <= List.length stream)%nat ->
  List.length (Bytes.xor_with data stream) = List.length data.
Proof.
  revert stream. induction data as [|d data IH]; intros [|k stream] H;
    simpl in *; try reflexivity; try lia.
  f_equal. apply IH. lia.
Qed.

Lemma xor_with_involutive (data stream : list byte) :
  (List.length data <= List.length stream)%nat ->
  Bytes.xor_with (Bytes.xor_with data stream) stream = data.
Proof.
  revert stream. induction data as [|d data IH]; intros [|k stream] H;
    simpl in *; try reflexivity; try lia.
  rewrite xor_involutive. f_equal. apply IH. lia.
Qed.

Lemma of_uint_length (len : nat) (n : N) :
  List.length (Bytes.of_uint len n) = len.
Proof.
  revert n. induction len as [|len IH]; intros n; simpl.
  - reflexivity.
  - rewrite length_app, IH. simpl. lia.
Qed.

Lemma to_hex_length (bs : list byte) :
  String.length (Bytes.to_hex bs) = (2 * List.length bs)%nat.
Proof. induction bs as [|b bs IH]; simpl; [reflexivity | rewrite IH; lia]. Qed.

End BytesFacts.

Module AesCtrFacts.

Lemma keystream_length E key ctr blocks :
  List.length (AesCtr.keystream E key ctr blocks) = (16 * blocks)%nat.
Proof.
  revert ctr. induction blocks as [|k IH]; intros ctr;
    cbn [AesCtr.keystream].
  - reflexivity.
  - rewrite length_app, BytesFacts.of_uint_length, IH.
    unfold AesCtr.block_bytes. lia.
Qed.

Lemma blocks_cover (len : nat) : (len <= 16 * AesCtr.blocks_for len)%nat.
Proof.
  unfold AesCtr.blocks_for.
  pose proof (Nat.div_mod (len + 15) 16 ltac:(discriminate)) as H.
  pose proof (Nat.mod_upper_bound (len + 15) 16 ltac:(discriminate)). lia.
Qed.

Lemma update_final_length E c data :
  List.length (AesCtr.update_final E c data) = List.length data.
Proof.
  unfold AesCtr.update_final. apply BytesFacts.xor_with_length.
  rewrite keystream_length. apply blocks_cover.
Qed.

(** Deciphering with the key and IV of the cipher gives the data back. *)
Lemma update_final_involutive E c data :
  AesCtr.update_final E c (AesCtr.update_final E c data) = data.
Proof.
  unfold AesCtr.update_final at 1. rewrite update_final_length.
  unfold AesCtr.update_final. apply BytesFacts.xor_with_involutive.
  rewrite keystream_length. apply blocks_cover.
Qed.

End AesCtrFacts.

Module Base64Facts.

(** Induction on byte strings three bytes at a time. *)
Lemma by_triples {A} (P : list A -> Prop) :
  P [] -> (forall a, P [a]) -> (forall a b, P [a; b]) ->
  (forall a b c l, P l -> P (a :: b :: c :: l)) ->
  forall l, P l.
Proof.
  intros H0 H1 H2 H3 l.
  enough (P l /\ (forall a, P (a :: l)) /\ (forall a b, P (a :: b :: l)))
    by tauto.
  induction l as [|x l (IH0 & IH1 & IH2)]; repeat split; auto.
Qed.

Import Base64.

(** Linear arithmetic with division and remainder by constants. *)
Ltac divmod := zify; Z.to_euclidean_division_equations; lia.

Lemma sextets_bounded (bs : list byte) : Forall sextet (Base64.sextets bs).
Proof.
  induction bs as [| a | a b | a b c l IH] using by_triples;
    cbn [Base64.sextets]; repeat constructor; try exact IH; unfold sextet;
    pose proof (BytesFacts.to_N_lt a);
    try pose proof (BytesFacts.to_N_lt b);
    try pose proof (BytesFacts.to_N_lt c);
    try (apply N.mod_upper_bound; discriminate);
    try (apply N.Div0.div_lt_upper_bound; lia).
Qed.

Lemma table_checked :
  forallb table_ok (map N.of_nat (seq 0 64)) = true.
Proof. vm_compute. reflexivity. Qed.

Lemma table_sound (n : N) : sextet n -> table_ok n = true.
Proof.
  intros Hn. pose proof table_checked as H.
  rewrite forallb_forall in H. apply H.
  apply in_map_iff. exists (N.to_nat n). split.
  - apply N2Nat.id.
  - apply in_seq. unfold sextet in Hn. lia.
Qed.

Lemma sextet_of_char_of_sextet (n : N) :
  sextet n -> Base64.sextet_of_char (Base64.char_of_sextet n) = Some n.
Proof.
  intros Hn. apply table_sound in Hn. unfold table_ok in Hn.
  apply andb_prop in Hn as [Hn _].
  destruct (Base64.sextet_of_char _) as [m|]; [|discriminate].
  apply N.eqb_eq in Hn. now subst.
Qed.

Lemma char_is_not_pad (n : N) :
  sextet n -> Ascii.eqb (Base64.char_of_sextet n) "=" = false.
Proof.
  intros Hn. apply table_sound in Hn. unfold table_ok in Hn.
  apply andb_prop in Hn as [_ Hn]. now apply negb_true_iff in Hn.
Qed.

Lemma before_pad_padding (k : nat) : Base64.before_pad (Base64.padding k) = [].
Proof.
  unfold Base64.padding.
  destruct (Nat.modulo k 3) as [|[|[|r]]]; reflexivity.
Qed.

(** Reading the text of an encoding finds the sextets that were written. *)
Lemma read_written (l : list N) (k : nat) :
  Forall sextet l ->
  Base64.valid_sextets
    (Base64.before_pad (map Base64.char_of_sextet l ++ Base64.padding k)) = l.
Proof.
  induction 1 as [|n l Hn Hl IH]; cbn [map app].
  - now rewrite before_pad_padding.
  - cbn [Base64.before_pad]. rewrite (char_is_not_pad n Hn).
    cbn [Base64.valid_sextets].
    rewrite (sextet_of_char_of_sextet n Hn), IH. reflexivity.
Qed.

Lemma bytes_of_sextets_of_bytes (bs : list byte) :
  Base64.bytes_of_sextets (Base64.sextets bs) = bs.
Proof.
  induction bs as [| a | a b | a b c l IH] using by_triples;
    cbn [Base64.sextets Base64.bytes_of_sextets].
  - reflexivity.
  - pose proof (BytesFacts.to_N_lt a).
    f_equal. apply BytesFacts.of_N_spec. divmod.
  - pose proof (BytesFacts.to_N_lt a). pose proof (BytesFacts.to_N_lt b).
    f_equal; [|f_equal]; apply BytesFacts.of_N_spec; divmod.
  - pose proof (BytesFacts.to_N_lt a). pose proof (BytesFacts.to_N_lt b).
    pose proof (BytesFacts.to_N_lt c).
    rewrite IH.
    f_equal; [|f_equal; [|f_equal]]; apply BytesFacts.of_N_spec; divmod.
Qed.

Lemma sextets_short (bs : list byte) :
  (List.length (Base64.sextets bs) <? 2)%nat = true -> bs = [].
Proof.
  destruct bs as [|a [|b [|c l]]]; cbn; intros H;
    [reflexivity | discriminate ..].
Qed.

(** [Buffer.from(buf.toString('base64'), 'base64')] is [buf]. *)
Lemma decode_encode (bs : list byte) :
  Base64.decode (Base64.encode bs) = bs.
Proof.
  unfold Base64.decode, Base64.encode.
  rewrite list_ascii_of_string_of_list_ascii.
  rewrite read_written by apply sextets_bounded.
  destruct (List.length (Base64.sextets bs) <? 2)%nat eqn:E.
  - symmetry. now apply sextets_short.
  - apply bytes_of_sextets_of_bytes.
Qed.

Lemma encode_not_empty (bs : list byte) :
  bs <> [] -> Js.is_empty (Base64.encode bs) = false.
Proof.
  intros H. unfold Base64.encode.
  destruct bs as [|a [|b [|c l]]]; [contradiction | reflexivity ..].
Qed.

End Base64Facts.

(** ** The encryption envelope of [cryptoUtils.js] *)

Section CryptoUtilsProperties.
Import Flow Crypto.
Variable B : Bip39.Lib.
Variable L : NodeLib.

Lemma valid_spec (m : string) :
  CryptoUtils.validateMnemonic B m = true <->
  Bip39.validateMnemonic B m = inr true.
Proof.
  unfold CryptoUtils.validateMnemonic.
  destruct (Bip39.validateMnemonic B m) as [e|[|]]; split; intros H;
    congruence.
Qed.

Lemma firstn_exact {A} (n : nat) (l r : list A) :
  List.length l = n -> firstn n (l ++ r) = l.
Proof. intros <-. now rewrite firstn_app, Nat.sub_diag, firstn_all, app_nil_r. Qed.

Lemma skipn_exact {A} (n : nat) (l r : list A) :
  List.length l = n -> skipn n (l ++ r) = r.
Proof. intros <-. now rewrite skipn_app, Nat.sub_diag, skipn_all. Qed.

(** Claim C1.  For every mnemonic [m] that passes [validateMnemonic] and
    every non-empty password [p], [encryptMnemonic m p] returns an envelope,
    and [decryptMnemonic] applied to that envelope and [p] returns [m].
    The libraries are assumed to honour [Contract.envelope]. *)
Theorem decrypt_encrypt_round_trip (m p : string) (s s2 : State) :
  Contract.envelope B L ->
  CryptoUtils.validateMnemonic B m = true ->
  Js.is_empty p = false ->
  exists envelope s',
    CryptoUtils.encryptMnemonic B L m p s = (Ret envelope, s')
    /\ fst (CryptoUtils.decryptMnemonic B L envelope p s2) = Ret m.
Proof.
  intros [Hempty Hkdf Hutf] Hm Hp.
  assert (Hne : Js.is_empty m = false).
  { destruct m; [|reflexivity]. apply valid_spec in Hm. contradiction. }
  set (salt := map (rng s) (seq 0 16)).
  set (iv := map (fun i => rng s (16 + i)%nat) (seq 0 16)).
  destruct (Hkdf p salt) as (key & Hkey & Hlen).
  set (c := AesCtr.mkCipher key iv).
  set (enc := AesCtr.update_final (aes256 L) c (utf8_write L m)).
  assert (Hc : AesCtr.createCipheriv key iv = inr c).
  { unfold AesCtr.createCipheriv. rewrite Hlen. reflexivity. }
  exists (Base64.encode (salt ++ iv ++ enc)). eexists. split.
  - unfold CryptoUtils.encryptMnemonic, try_catch, bind, CryptoUtils.deriveKey,
      randomBytes, record, modify, bind.
    rewrite Hne, Hp, Hm. cbn [orb negb fst snd rng ops].
    fold salt. fold iv. rewrite Hkey. cbn [lift ret].
    rewrite Hc. reflexivity.
  - unfold CryptoUtils.decryptMnemonic, try_catch, bind, CryptoUtils.deriveKey,
      record, modify, bind.
    rewrite Base64Facts.encode_not_empty, Hp by (subst salt; discriminate).
    cbn [orb]. rewrite Base64Facts.decode_encode.
    assert (Hs : List.length salt = 16%nat) by reflexivity.
    assert (Hi : List.length iv = 16%nat) by reflexivity.
    replace (List.length (salt ++ iv ++ enc) <? 32)%nat with false
      by (symmetry; apply Nat.ltb_ge; rewrite !length_app; lia).
    rewrite (firstn_exact 16 salt) by exact Hs.
    rewrite (skipn_exact 16 salt) by exact Hs.
    rewrite (firstn_exact 16 iv) by exact Hi.
    replace (skipn 32 (salt ++ iv ++ enc)) with enc
      by (change 32%nat with (16 + 16)%nat;
          now rewrite <- skipn_skipn, (skipn_exact 16 salt),
            (skipn_exact 16 iv)).
    rewrite Hkey. cbn [lift ret]. rewrite Hc. cbn [lift ret].
    subst enc. rewrite AesCtrFacts.update_final_involutive.
    rewrite Hutf by now apply valid_spec.
    rewrite Hm. reflexivity.
Qed.

End CryptoUtilsProperties.

(** ** Both crypto modules *)

Section EnvelopeProperties.
Import Flow Crypto Observe.
Variable B : Bip39.Lib.
Variable L : NodeLib.
Variable W : WebLib.

(** Claim C2.  [decryptMnemonic] fails closed, in the CTR module and in the
    GCM module: whenever it returns a string, for any envelope and any
    password, that string passes [validateMnemonic]. *)
Theorem decrypt_fails_closed (e p m : string) (s s' : State) :
  (CryptoUtils.decryptMnemonic B L e p s = (Ret m, s') ->
   CryptoUtils.validateMnemonic B m = true)
  /\
  (CryptoUtilsGUI.decryptMnemonic B W e p s = (Ret m, s') ->
   CryptoUtilsGUI.validateMnemonic B m = true).
Proof.
  split.
  - unfold CryptoUtils.decryptMnemonic, try_catch, bind,
      CryptoUtils.deriveKey, record, modify, bind, lift, throw, ret.
    intros H.
    destruct (Js.is_empty e || Js.is_empty p); [discriminate|].
    destruct (List.length (Base64.decode e) <? 32)%nat; [discriminate|].
    destruct (pbkdf2 L _ _ _ _ _); [discriminate|].
    destruct (AesCtr.createCipheriv _ _); [discriminate|].
    match type of H with
    | context [CryptoUtils.validateMnemonic B ?t] =>
        destruct (CryptoUtils.validateMnemonic B t) eqn:V
    end; cbn in H; [|discriminate].
    injection H as <- _. exact V.
  - unfold CryptoUtilsGUI.decryptMnemonic, CryptoUtilsGUI.decode_base64,
      try_catch, bind, record, modify, bind, lift, throw, ret.
    intros H.
    destruct (Js.is_empty e || Js.is_empty p); [discriminate|].
    destruct (atob W e); [discriminate|].
    match type of H with
    | context [(?n <? 28)%nat] => destruct (n <? 28)%nat
    end; [discriminate|].
    destruct (importKey W _); [discriminate|].
    destruct (deriveKey W _ _ _); [discriminate|].
    destruct (subtleDecrypt W _ _ _); [discriminate|].
    match type of H with
    | context [CryptoUtilsGUI.validateMnemonic B ?t] =>
        destruct (CryptoUtilsGUI.validateMnemonic B t) eqn:V
    end; cbn in H; [|discriminate].
    injection H as <- _. exact V.
Qed.

(** Claim C8, amended.  For a non-empty envelope and a non-empty password,
    an input whose decoded length is below salt + IV (32 bytes in the CTR
    module, 28 in the GCM module) is rejected by the length check, and the
    state is untouched: no key has been derived, no cipher has run. *)
Theorem short_envelope_rejected (e p : string) (s : State) :
  Js.is_empty e = false ->
  Js.is_empty p = false ->
  ((List.length (Base64.decode e) < 32)%nat ->
   CryptoUtils.decryptMnemonic B L e p s = (Throw format_error, s))
  /\
  (forall data,
     CryptoUtilsGUI.decode_base64 W e s = (Ret data, s) ->
     (List.length data < 28)%nat ->
     CryptoUtilsGUI.decryptMnemonic B W e p s = (Throw format_error, s)).
Proof.
  intros He Hp. split.
  - intros Hlen. apply Nat.ltb_lt in Hlen.
    unfold CryptoUtils.decryptMnemonic, try_catch, bind.
    rewrite He, Hp, Hlen. reflexivity.
  - intros data Hdata Hlen. apply Nat.ltb_lt in Hlen.
    unfold CryptoUtilsGUI.decryptMnemonic, try_catch, bind.
    rewrite He, Hp. cbn [orb]. rewrite Hdata, Hlen. reflexivity.
Qed.

Lemma lookup_unsupported (w : Z) :
  ~ In w CryptoUtils.SUPPORTED_WORD_COUNTS ->
  CryptoUtils.lookup w CryptoUtils.entropyBits = None.
Proof.
  intros H. cbn.
  repeat match goal with
    | |- context [(w =? ?k)%Z] =>
        destruct (Z.eqb_spec w k) as [->|_];
        [exfalso; apply H; cbn; tauto|]
    end.
  reflexivity.
Qed.

(** Claim C9.  For a word count in [12; 15; 18; 21; 24], [generateMnemonic]
    of either module returns a phrase of exactly that many words which
    passes [validateMnemonic] (bip39 being assumed to honour
    [Contract.generator]); for any other word count it throws the
    unsupported-word-count error and leaves the state, the random source
    included, as it was. *)
Theorem generateMnemonic_word_count (w : Z) (s : State) :
  (Contract.generator B ->
   In w CryptoUtils.SUPPORTED_WORD_COUNTS ->
   (exists m s',
      CryptoUtils.generateMnemonic B w s = (Ret m, s')
      /\ Z.of_nat (List.length (Bip39.words m)) = w
      /\ CryptoUtils.validateMnemonic B m = true)
   /\
   (exists m s',
      CryptoUtilsGUI.generateMnemonic B w s = (Ret m, s')
      /\ Z.of_nat (List.length (Bip39.words m)) = w
      /\ CryptoUtilsGUI.validateMnemonic B m = true))
  /\
  (~ In w CryptoUtils.SUPPORTED_WORD_COUNTS ->
   CryptoUtils.generateMnemonic B w s = (Throw (unsupported w), s)
   /\ CryptoUtilsGUI.generateMnemonic B w s = (Throw (unsupported w), s)).
Proof.
  split.
  - intros [Hent Hgen] Hw. split.
    + unfold CryptoUtils.generateMnemonic, try_catch, bind, randomBytes.
      cbn in Hw.
      destruct Hw as [<-|[<-|[<-|[<-|[<-|[]]]]]];
        cbn [CryptoUtils.lookup CryptoUtils.entropyBits Z.eqb Pos.eqb
               CryptoUtils.missing];
        match goal with
        | |- context [map (rng s) (seq 0 ?n)] =>
            let n' := eval vm_compute in n in
            change n with n';
            destruct (Hent (map (rng s) (seq 0 n'))) as (m & Hm & Hv & Hc);
            [cbn; unfold Contract.entropy_size; tauto|]
        end;
        rewrite Hm; cbn [lift ret]; rewrite Hv; cbn [lift ret negb];
        exists m; eexists; (split; [reflexivity|]);
        (split; [rewrite length_map, length_seq in Hc; lia|]);
        unfold CryptoUtils.validateMnemonic; now rewrite Hv.
    + unfold CryptoUtilsGUI.generateMnemonic, CryptoUtilsGUI.bip39_generate,
        try_catch, bind.
      cbn in Hw.
      destruct Hw as [<-|[<-|[<-|[<-|[<-|[]]]]]];
        cbn [CryptoUtils.lookup CryptoUtilsGUI.entropyBits Z.eqb Pos.eqb
               CryptoUtils.missing];
        match goal with
        | |- context [Bip39.generateMnemonic B ?bits (rng s)] =>
            destruct (Hgen bits (rng s)) as (m & g' & Hm & Hv & Hc);
            [unfold Contract.strength; tauto|]
        end;
        rewrite Hm; cbn [lift ret]; rewrite Hv; cbn [lift ret negb];
        exists m; eexists; (split; [reflexivity|]);
        (split; [lia|]);
        unfold CryptoUtilsGUI.validateMnemonic; now rewrite Hv.
  - intros Hw. apply lookup_unsupported in Hw.
    unfold CryptoUtils.generateMnemonic, CryptoUtilsGUI.generateMnemonic,
      try_catch, bind.
    change CryptoUtilsGUI.entropyBits with CryptoUtils.entropyBits.
    rewrite Hw. split; reflexivity.
Qed.

End EnvelopeProperties.

(** ** Running the batch loops *)

Section Histories.
Import Rpc Observe.

Lemma submissions_app h1 h2 :
  submissions (h1 ++ h2) = submissions h1 ++ submissions h2.
Proof.
  induction h1 as [|e h1 IH]; [reflexivity|].
  destruct e; cbn; rewrite ?IH; reflexivity.
Qed.

Lemma sent_nonces_app h1 h2 :
  sent_nonces (h1 ++ h2) = sent_nonces h1 ++ sent_nonces h2.
Proof. unfold sent_nonces. now rewrite submissions_app, map_app. Qed.

Lemma sent_to_app h1 h2 : sent_to (h1 ++ h2) = sent_to h1 ++ sent_to h2.
Proof. unfold sent_to. now rewrite submissions_app, map_app. Qed.

Lemma error_free_app h1 h2 :
  error_free (h1 ++ h2) <-> error_free h1 /\ error_free h2.
Proof. unfold error_free. rewrite forallb_app. apply andb_true_iff. Qed.

Lemma none_accepted_app h1 h2 :
  none_accepted (h1 ++ h2) <-> none_accepted h1 /\ none_accepted h2.
Proof. unfold none_accepted. rewrite existsb_app. apply orb_false_iff. Qed.

Lemma fetched_cons n e h : fetched n h -> fetched n (e :: h).
Proof. intros [a H]. exists a. now right. Qed.

Lemma fetched_here n a h : fetched n (EvGetTransactionCount a (inr n) :: h).
Proof. exists a. now left. Qed.

End Histories.

Create HintDb history.
#[local] Hint Resolve fetched_cons fetched_here : history.

Ltac unfold_flow :=
  unfold Flow.try_catch, Flow.bind, Flow.when, Flow.lift, Flow.throw,
    Flow.ret, Flow.get, Flow.modify, Flow.continue_ in *.

Ltac unfold_rpc :=
  unfold Rpc.send, Rpc.pendingNonce, Rpc.balanceOf, Rpc.estimate, Rpc.waitOne,
    Rpc.waitForOne, Rpc.await, Rpc.delay, Rpc.log, Rpc.set_nextNonce,
    Rpc.set_lastSubmittedHash, Rpc.clear_logs, Rpc.getFeeOptions in *.

(** Case analysis on the next undetermined answer or test. *)
Ltac next_case :=
  match goal with
  | |- context [match ?x with _ => _ end] =>
      lazymatch x with
      | context [match _ with _ => _ end] => fail
      | context [if _ then _ else _] => fail
      | _ => destruct x eqn:?
      end
  | |- context [if ?x then _ else _] =>
      lazymatch x with
      | context [match _ with _ => _ end] => fail
      | context [if _ then _ else _] => fail
      | _ => destruct x eqn:?
      end
  end.

Ltac next_case_in H :=
  match type of H with
  | context [match ?x with _ => _ end] =>
      lazymatch x with
      | context [match _ with _ => _ end] => fail
      | context [if _ then _ else _] => fail
      | _ => destruct x eqn:?
      end
  | context [if ?x then _ else _] =>
      lazymatch x with
      | context [match _ with _ => _ end] => fail
      | context [if _ then _ else _] => fail
      | _ => destruct x eqn:?
      end
  end.

Ltac state_simpl :=
  cbn [fst snd Rpc.trace Rpc.logs Rpc.nextNonce Rpc.lastSubmittedHash
         Rpc.emit] in *.

Ltac run := repeat (state_simpl; try next_case).

(** After [run]: name the final state and the events that were added. *)
Ltac finish :=
  eexists; eexists; split; [reflexivity|]; state_simpl;
  split; [rewrite <- ?app_assoc; reflexivity|].

Ltac unfold_server_send :=
  unfold TxServer.send_iteration, TxServer.estimateGasLimit,
    TxServer.bump_nonce;
  unfold_flow; unfold_rpc; unfold_flow.

Ltac unfold_browser_send :=
  unfold GasBatchManager.send_iteration, GasBatchManager.submit,
    GasBatchManager.bump_nonce;
  unfold_flow; unfold_rpc; unfold_flow.

Ltac retry_class :=
  unfold Observe.retryable;
  repeat match goal with
    | H : Rpc.isNonceError _ = _ |- _ => rewrite H
    | H : Rpc.isInFlightLimitError _ = _ |- _ => rewrite H
    end;
  first [ reflexivity | assumption | apply Bool.orb_true_r ].

(** Every pending nonce fetched in a pass follows an error of the pass
    that the catch block classified as worth a retry. *)
Ltac fetch_cause :=
  let n := fresh "n" in
  let Hf := fresh "Hf" in
  let Hin := fresh "Hin" in
  intros n Hf; destruct Hf as [? Hin]; cbn in Hin;
  repeat (destruct Hin as [Hin|Hin]; [try discriminate Hin|]);
  try contradiction;
  match goal with
  | H : Rpc.isNonceError ?e || _ = true |- _ => exists e
  | H : Rpc.isNonceError ?e = true |- _ => exists e
  | H : Rpc.isInFlightLimitError ?e = true |- _ => exists e
  end;
  (split; [|retry_class]);
  first [ solve [left; eexists; eexists; cbn; eauto 12]
        | solve [right; eexists; cbn; eauto 12] ].

Section SendIteration.
Import Flow Rpc Observe.
Variable C : Chain.

(** *** The server *)

Lemma server_iteration_clean wallet fees value p total i to s :
  exists seg s',
    TxServer.send_iteration C wallet fees value p total i to s = (Ret tt, s')
    /\ trace s' = trace s ++ seg
    /\ (error_free seg ->
        sent_nonces seg = [nextNonce s] /\ sent_to seg = [to]
        /\ nextNonce s' = (nextNonce s + 1)%Z).
Proof.
  unfold_server_send.
  run; finish; cbn; intros; try discriminate; auto.
Qed.

Lemma server_iteration_counter wallet fees value p total i to s :
  exists seg s',
    TxServer.send_iteration C wallet fees value p total i to s = (Ret tt, s')
    /\ trace s' = trace s ++ seg
    /\ (none_accepted seg ->
        nextNonce s' = nextNonce s
        \/ exists n, fetched n seg /\ nextNonce s' = n).
Proof.
  unfold_server_send.
  run; finish; cbn; intros; try discriminate; auto;
    right; eexists; (split; [|reflexivity]); auto 10 with history.
Qed.

Lemma server_iteration_gas wallet fees value p total i to s :
  exists seg s',
    TxServer.send_iteration C wallet fees value p total i to s = (Ret tt, s')
    /\ trace s' = trace s ++ seg
    /\ let q := mkGasQuery to wallet value in
       let g := TxServer.buffered (estimateGas C (trace s) q)
                  TxServer.GAS_LIMIT_FALLBACK in
       exists first rest,
         submissions seg = first :: rest
         /\ Forall (fun x => fst x = mkTx to value g fees (tx_nonce (fst x)))
              (first :: rest)
         /\ tx_nonce (fst first) = nextNonce s
         /\ (List.length rest <= 1)%nat.
Proof.
  unfold_server_send. unfold TxServer.buffered.
  run; finish; cbn; eexists; eexists; (split; [reflexivity|]);
    repeat split; repeat constructor.
Qed.

(** *** The component *)

Lemma browser_iteration_clean f wallet fees value total i to s :
  exists seg s',
    GasBatchManager.send_iteration C f wallet fees value total i to s
      = (Ret tt, s')
    /\ trace s' = trace s ++ seg
    /\ (error_free seg ->
        sent_nonces seg = [nextNonce s] /\ sent_to seg = [to]
        /\ nextNonce s' = (nextNonce s + 1)%Z).
Proof.
  unfold_browser_send.
  run; finish; cbn; intros; try discriminate; auto.
Qed.

Lemma browser_iteration_counter f wallet fees value total i to s :
  exists seg s',
    GasBatchManager.send_iteration C f wallet fees value total i to s
      = (Ret tt, s')
    /\ trace s' = trace s ++ seg
    /\ (none_accepted seg ->
        nextNonce s' = nextNonce s
        \/ exists n, fetched n seg /\ nextNonce s' = n).
Proof.
  unfold_browser_send.
  run; finish; cbn; intros; try discriminate; auto;
    right; eexists; (split; [|reflexivity]); auto 10 with history.
Qed.

Lemma server_iteration_fetch_cause wallet fees value p total i to s :
  exists seg s',
    TxServer.send_iteration C wallet fees value p total i to s = (Ret tt, s')
    /\ trace s' = trace s ++ seg
    /\ (forall n, fetched n seg ->
        exists e, thrown e seg /\ retryable e = true).
Proof.
  unfold_server_send.
  run; finish; fetch_cause.
Qed.

Lemma browser_iteration_fetch_cause f wallet fees value total i to s :
  exists seg s',
    GasBatchManager.send_iteration C f wallet fees value total i to s
      = (Ret tt, s')
    /\ trace s' = trace s ++ seg
    /\ (forall n, fetched n seg ->
        exists e, thrown e seg /\ retryable e = true).
Proof.
  unfold_browser_send.
  run; finish; fetch_cause.
Qed.

Lemma browser_iteration_gas f wallet fees value total i to s :
  exists seg s',
    GasBatchManager.send_iteration C f wallet fees value total i to s
      = (Ret tt, s')
    /\ trace s' = trace s ++ seg
    /\ exists first rest,
         submissions seg = first :: rest
         /\ Forall (fun x => fst x = mkTx to value 21000 fees (tx_nonce (fst x)))
              (first :: rest)
         /\ tx_nonce (fst first) = nextNonce s
         /\ (List.length rest <= 1)%nat.
Proof.
  unfold_browser_send.
  run; finish; cbn; eexists; eexists; (split; [reflexivity|]);
    repeat split; repeat constructor.
Qed.

End SendIteration.

Section Loops.
Import Flow Rpc Observe.

(** A loop whose body always returns runs to its end. *)
Lemma for_from_step {X} (body : nat -> X -> M State unit) i x rest s s' :
  body i x s = (Ret tt, s') ->
  for_from i (x :: rest) body s = for_from (S i) rest body s'.
Proof.
  intros H. cbn [for_from]. unfold bind, iteration. now rewrite H.
Qed.

Lemma for_from_skip {X} (body : nat -> X -> M State unit) i x rest s s' :
  body i x s = (Continue, s') ->
  for_from i (x :: rest) body s = for_from (S i) rest body s'.
Proof.
  intros H. cbn [for_from]. unfold bind, iteration. now rewrite H.
Qed.

Variable X : Type.
Variable body : nat -> X -> M State unit.
Variable target : X -> string.

Hypothesis body_clean :
  forall i x s, exists seg s',
    body i x s = (Ret tt, s')
    /\ trace s' = trace s ++ seg
    /\ (error_free seg ->
        sent_nonces seg = [nextNonce s] /\ sent_to seg = [target x]
        /\ nextNonce s' = (nextNonce s + 1)%Z).

Lemma loop_clean xs : forall i s,
  exists seg s',
    for_from i xs body s = (Ret tt, s')
    /\ trace s' = trace s ++ seg
    /\ (error_free seg ->
        sent_nonces seg = consecutive (nextNonce s) (List.length xs)
        /\ sent_to seg = map target xs).
Proof.
  induction xs as [|x rest IH]; intros i s.
  - exists [], s. cbn. rewrite app_nil_r. auto.
  - destruct (body_clean i x s) as (seg1 & s1 & Hrun & Htr & Hclean).
    destruct (IH (S i) s1) as (seg2 & s2 & Hrun2 & Htr2 & Hclean2).
    exists (seg1 ++ seg2), s2. split; [|split].
    + rewrite (for_from_step _ _ _ _ _ _ Hrun). exact Hrun2.
    + rewrite Htr2, Htr. now rewrite app_assoc.
    + intros Hfree. apply error_free_app in Hfree as [F1 F2].
      destruct (Hclean F1) as (N1 & T1 & C1).
      destruct (Hclean2 F2) as (N2 & T2).
      rewrite sent_nonces_app, sent_to_app, N1, T1, N2, T2, C1.
      split; reflexivity.
Qed.

Hypothesis body_attempts :
  forall i x s, exists seg s',
    body i x s = (Ret tt, s')
    /\ trace s' = trace s ++ seg
    /\ In (target x) (sent_to seg).

Lemma loop_attempts xs : forall i s,
  exists seg s',
    for_from i xs body s = (Ret tt, s')
    /\ trace s' = trace s ++ seg
    /\ (forall x, In x xs -> In (target x) (sent_to seg)).
Proof.
  induction xs as [|x rest IH]; intros i s.
  - exists [], s. cbn. rewrite app_nil_r. repeat split. intros _ [].
  - destruct (body_attempts i x s) as (seg1 & s1 & Hrun & Htr & Hin).
    destruct (IH (S i) s1) as (seg2 & s2 & Hrun2 & Htr2 & Hall).
    exists (seg1 ++ seg2), s2. split; [|split].
    + rewrite (for_from_step _ _ _ _ _ _ Hrun). exact Hrun2.
    + rewrite Htr2, Htr. now rewrite app_assoc.
    + intros y [<-|Hy]; rewrite sent_to_app; apply in_or_app; auto.
Qed.

Variable Q : TxRequest * (Js.Error + string) -> Prop.

Hypothesis body_submits :
  forall i x s, exists seg s',
    body i x s = (Ret tt, s')
    /\ trace s' = trace s ++ seg
    /\ Forall Q (submissions seg).

Lemma loop_submits xs : forall i s,
  exists seg s',
    for_from i xs body s = (Ret tt, s')
    /\ trace s' = trace s ++ seg
    /\ Forall Q (submissions seg).
Proof.
  induction xs as [|x rest IH]; intros i s.
  - exists [], s. cbn. rewrite app_nil_r. auto.
  - destruct (body_submits i x s) as (seg1 & s1 & Hrun & Htr & Hq).
    destruct (IH (S i) s1) as (seg2 & s2 & Hrun2 & Htr2 & Hq2).
    exists (seg1 ++ seg2), s2. split; [|split].
    + rewrite (for_from_step _ _ _ _ _ _ Hrun). exact Hrun2.
    + rewrite Htr2, Htr. now rewrite app_assoc.
    + rewrite submissions_app. apply Forall_app. auto.
Qed.

End Loops.

Section SendBatch.
Import Flow Rpc Observe.
Variable E : Ethers.
Variable C : Chain.
Variable K : GasBatchManager.Backend.

(** The nonces of an error-free run of [handleSendBatch]. *)
Lemma server_batch_nonces p s lines s' :
  TxServer.handleSendBatch E C p s = (Ret lines, s') ->
  exists seg n0,
    trace s' = trace s ++ seg
    /\ fetched n0 seg
    /\ (error_free seg ->
        sent_to seg = TxServer.recipients p
        /\ sent_nonces seg
           = consecutive n0 (List.length (TxServer.recipients p))).
Proof.
  unfold TxServer.handleSendBatch, for_each. intros H.
  pose proof (fun w f v => loop_clean string
                (TxServer.send_iteration C w f v p
                   (List.length (TxServer.recipients p)))
                (fun x => x)
                (server_iteration_clean C w f v p _)
                (TxServer.recipients p) 0%nat) as Hloop.
  unfold_flow. unfold_rpc. unfold_rpc. unfold_flow.
  repeat (state_simpl; cbv beta in H; try discriminate H;
          first [ match type of H with
                  | context [for_from 0 _ (_ _ ?w ?f ?v _ _) ?st] =>
                      destruct (Hloop w f v st)
                        as (seg & s2 & Hrun & Htr & Hclean);
                      rewrite Hrun in H; clear Hloop
                  end
                | next_case_in H ]).
  injection H as _ <-. state_simpl.
  eexists; eexists. split; [|split].
  - rewrite Htr, <- !app_assoc. reflexivity.
  - cbn. eauto 6 with history.
  - cbn. intros Hfree. destruct (Hclean Hfree) as (N & T).
    rewrite map_id in T. state_simpl. split; assumption.
Qed.

End SendBatch.

(** Execution along answers that are given as hypotheses. *)
Ltac use_answer :=
  match goal with
  | H : ?l = _ |- context [?l] => rewrite H
  end.

Ltac run_given :=
  repeat (state_simpl; cbn [orb andb negb];
          first [use_answer | next_case]).

Section Retry.
Import Flow Rpc Observe.
Variable C : Chain.

(** The server after a stale-nonce failure: one fetch, one retry. *)
Lemma server_retry wallet fees value p total i to s r0 e n' :
  let q := mkGasQuery to wallet value in
  let g := TxServer.buffered r0 TxServer.GAS_LIMIT_FALLBACK in
  let tx := mkTx to value g fees in
  let h1 := trace s ++ [EvEstimateGas q r0] in
  let h2 := h1 ++ [EvSendTransaction wallet (tx (nextNonce s)) (inl e)] in
  let h3 := h2 ++ [EvGetTransactionCount wallet (inr n')] in
  let r2 := sendTransaction C h3 wallet (tx n') in
  estimateGas C (trace s) q = r0 ->
  sendTransaction C h1 wallet (tx (nextNonce s)) = inl e ->
  isNonceError e = true ->
  isInFlightLimitError e = false ->
  getTransactionCount C h2 wallet = inr n' ->
  exists tail s',
    TxServer.send_iteration C wallet fees value p total i to s = (Ret tt, s')
    /\ trace s' = h3 ++ EvSendTransaction wallet (tx n') r2 :: tail
    /\ submissions tail = []
    /\ (forall e2, r2 = inl e2 ->
        logs s' = logs s ++ [send_failure_line
                               (TxServer.send_label total i to) e2]
        /\ nextNonce s' = n').
Proof.
  intros q g tx h1 h2 h3 r2 H0 H1 Hn Hf H2.
  subst q g tx h1 h2 h3 r2.
  unfold_server_send.
  destruct r0 as [e0|est]; cbn [TxServer.buffered] in *;
    run_given; eexists; eexists; (split; [reflexivity|]); state_simpl;
    (split; [rewrite <- ?app_assoc; reflexivity|]);
    (split; [reflexivity|]);
    intros e2 He2; inversion He2; subst; auto.
Qed.

(** The component after a stale-nonce failure. *)
Lemma browser_retry f wallet fees value total i to s e n' :
  let tx := mkTx to value 21000 fees in
  let h1 := trace s ++ [EvSendTransaction wallet (tx (nextNonce s)) (inl e)] in
  let h2 := h1 ++ [EvGetTransactionCount wallet (inr n')] in
  let r2 := sendTransaction C h2 wallet (tx n') in
  sendTransaction C (trace s) wallet (tx (nextNonce s)) = inl e ->
  isNonceError e = true ->
  getTransactionCount C h1 wallet = inr n' ->
  exists tail s',
    GasBatchManager.send_iteration C f wallet fees value total i to s
      = (Ret tt, s')
    /\ trace s' = h2 ++ EvSendTransaction wallet (tx n') r2 :: tail
    /\ submissions tail = []
    /\ (forall e2, r2 = inl e2 ->
        logs s' = logs s ++ [send_failure_line
                               (GasBatchManager.label total i to) e2]
        /\ nextNonce s' = n').
Proof.
  intros tx h1 h2 r2 H1 Hn H2.
  subst tx h1 h2 r2.
  unfold_browser_send.
  run_given; eexists; eexists; (split; [reflexivity|]); state_simpl;
    (split; [rewrite <- ?app_assoc; reflexivity|]);
    (split; [reflexivity|]);
    intros e2 He2; inversion He2; subst; auto.
Qed.

(** Every pass makes an attempt for its recipient and returns. *)
Lemma server_iteration_attempts wallet fees value p total i to s :
  exists seg s',
    TxServer.send_iteration C wallet fees value p total i to s = (Ret tt, s')
    /\ trace s' = trace s ++ seg
    /\ In to (sent_to seg).
Proof.
  destruct (server_iteration_gas C wallet fees value p total i to s)
    as (seg & s' & Hrun & Htr & first & rest & Hsub & Hall & _).
  exists seg, s'. repeat split; try assumption.
  unfold sent_to. rewrite Hsub. left.
  apply Forall_inv in Hall. now rewrite Hall.
Qed.

Lemma browser_iteration_attempts f wallet fees value total i to s :
  exists seg s',
    GasBatchManager.send_iteration C f wallet fees value total i to s
      = (Ret tt, s')
    /\ trace s' = trace s ++ seg
    /\ In to (sent_to seg).
Proof.
  destruct (browser_iteration_gas C f wallet fees value total i to s)
    as (seg & s' & Hrun & Htr & first & rest & Hsub & Hall & _).
  exists seg, s'. repeat split; try assumption.
  unfold sent_to. rewrite Hsub. left.
  apply Forall_inv in Hall. now rewrite Hall.
Qed.

End Retry.

Ltac unfold_server_reclaim :=
  unfold TxServer.reclaim_iteration, TxServer.estimateGasLimit;
  unfold_flow; unfold_rpc; unfold_flow.

Ltac unfold_browser_reclaim :=
  unfold GasBatchManager.reclaim_iteration;
  unfold_flow; unfold_rpc; unfold_flow.

Section Reclaim.
Import Flow Rpc Observe.
Variable E : Ethers.
Variable C : Chain.

(** The server skips an account whose first estimate leaves nothing. *)
Lemma server_skip_first fees reserveWei p total i entry s w n b r1 :
  let pk := TxServer.privateKey entry in
  let key := if Js.startsWith pk "0x" then pk else "0x" +++ pk in
  let q := mkGasQuery (TxServer.reclaimAddress p) w 1 in
  let h1 := trace s ++ [EvGetTransactionCount w (inr n)] in
  let h2 := h1 ++ [EvGetBalance w (inr b)] in
  let h3 := h2 ++ [EvEstimateGas q r1] in
  let gasCost := (TxServer.buffered r1 TxServer.GAS_LIMIT_FALLBACK
                  * maxFeePerGas fees)%Z in
  Js.is_empty pk = false ->
  newWallet E key = inr w ->
  getTransactionCount C (trace s) w = inr n ->
  getBalance C h1 w = inr b ->
  estimateGas C h2 q = r1 ->
  (b - reserveWei - gasCost <= 0)%Z ->
  TxServer.reclaim_iteration E C fees reserveWei p total i entry s
  = (Continue,
     mkState h3
       (logs s ++ [skip_line (TxServer.reclaim_label total i
                                (TxServer.address entry))])
       (nextNonce s) (lastSubmittedHash s)).
Proof.
  intros pk key q h1 h2 h3 gasCost Hpk Hw Hn Hb H1 Hle.
  subst pk key q h1 h2 h3 gasCost.
  apply Z.leb_le in Hle.
  unfold_server_reclaim.
  destruct r1 as [e1|est]; cbn [TxServer.buffered] in *;
    run_given; reflexivity.
Qed.

(** ... and one whose second estimate leaves nothing. *)
Lemma server_skip_final fees reserveWei p total i entry s w n b r1 r2 :
  let pk := TxServer.privateKey entry in
  let key := if Js.startsWith pk "0x" then pk else "0x" +++ pk in
  let q := mkGasQuery (TxServer.reclaimAddress p) w 1 in
  let h1 := trace s ++ [EvGetTransactionCount w (inr n)] in
  let h2 := h1 ++ [EvGetBalance w (inr b)] in
  let h3 := h2 ++ [EvEstimateGas q r1] in
  let estimated := TxServer.buffered r1 TxServer.GAS_LIMIT_FALLBACK in
  let sendable := (b - reserveWei - estimated * maxFeePerGas fees)%Z in
  let q' := mkGasQuery (TxServer.reclaimAddress p) w sendable in
  let h4 := h3 ++ [EvEstimateGas q' r2] in
  let finalCost := (TxServer.buffered r2 estimated * maxFeePerGas fees)%Z in
  Js.is_empty pk = false ->
  newWallet E key = inr w ->
  getTransactionCount C (trace s) w = inr n ->
  getBalance C h1 w = inr b ->
  estimateGas C h2 q = r1 ->
  (0 < sendable)%Z ->
  estimateGas C h3 q' = r2 ->
  (b - reserveWei - finalCost <= 0)%Z ->
  TxServer.reclaim_iteration E C fees reserveWei p total i entry s
  = (Continue,
     mkState h4
       (logs s ++ [skip_line (TxServer.reclaim_label total i
                                (TxServer.address entry))])
       (nextNonce s) (lastSubmittedHash s)).
Proof.
  intros pk key q h1 h2 h3 estimated sendable q' h4 finalCost
    Hpk Hw Hn Hb H1 Hpos H2 Hle.
  subst pk key q h1 h2 h3 estimated sendable q' h4 finalCost.
  apply Z.leb_le in Hle. apply Z.leb_gt in Hpos.
  unfold_server_reclaim.
  destruct r1 as [e1|est1]; destruct r2 as [e2|est2];
    cbn [TxServer.buffered] in *; try congruence;
    run_given; reflexivity.
Qed.

(** The component skips an account that cannot pay for the transfer. *)
Lemma browser_skip f fees reserveWei gasCost total i account s w n b :
  let h1 := trace s ++ [EvGetTransactionCount w (inr n)] in
  let h2 := h1 ++ [EvGetBalance w (inr b)] in
  Js.is_empty (GasBatchManager.acc_privateKey account) = false ->
  newWallet E (GasBatchManager.acc_privateKey account) = inr w ->
  getTransactionCount C (trace s) w = inr n ->
  getBalance C h1 w = inr b ->
  (b - reserveWei - gasCost <= 0)%Z ->
  GasBatchManager.reclaim_iteration E C f fees reserveWei gasCost total i
    account s
  = (Continue,
     mkState h2
       (logs s ++ [skip_line (GasBatchManager.label total i
                                (GasBatchManager.acc_address account))])
       (nextNonce s) (lastSubmittedHash s)).
Proof.
  intros h1 h2 Hpk Hw Hn Hb Hle. subst h1 h2.
  apply Z.leb_le in Hle.
  unfold_browser_reclaim. run_given. reflexivity.
Qed.

(** A reclaim pass submits at most once; when the node refuses, the
    refusal is logged and nothing but the delay follows. *)
Lemma server_reclaim_once fees reserveWei p total i entry s :
  exists seg o s',
    TxServer.reclaim_iteration E C fees reserveWei p total i entry s = (o, s')
    /\ trace s' = trace s ++ seg
    /\ (List.length (submissions seg) <= 1)%nat
    /\ (forall tx e, submissions seg = [(tx, inl e)] ->
        o = Ret tt
        /\ Forall (fun ev => is_delay ev = true) (after_submission seg)
        /\ logs s' = logs s ++ [failure_line
                                  (TxServer.reclaim_label total i
                                     (TxServer.address entry)) e]).
Proof.
  unfold_server_reclaim. unfold failure_line.
  run; eexists; eexists; eexists; (split; [reflexivity|]); state_simpl;
    (split; [rewrite <- ?app_assoc; first [reflexivity | symmetry; apply app_nil_r]|]);
    cbn; (split; [lia|]); intros ? ? He; inversion He; subst;
    repeat split; repeat constructor.
Qed.

Lemma browser_reclaim_once f fees reserveWei gasCost total i account s :
  exists seg o s',
    GasBatchManager.reclaim_iteration E C f fees reserveWei gasCost total i
      account s = (o, s')
    /\ trace s' = trace s ++ seg
    /\ (List.length (submissions seg) <= 1)%nat
    /\ (forall tx e, submissions seg = [(tx, inl e)] ->
        o = Ret tt
        /\ Forall (fun ev => is_delay ev = true) (after_submission seg)
        /\ logs s' = logs s ++ [failure_line
                                  (GasBatchManager.label total i
                                     (GasBatchManager.acc_address account))
                                  e]).
Proof.
  unfold_browser_reclaim. unfold failure_line.
  run; eexists; eexists; eexists; (split; [reflexivity|]); state_simpl;
    (split; [rewrite <- ?app_assoc; first [reflexivity | symmetry; apply app_nil_r]|]);
    cbn; (split; [lia|]); intros ? ? He; inversion He; subst;
    repeat split; repeat constructor.
Qed.

End Reclaim.

(** ** Funding secrets *)

Section Secrets.
Import Flow Rpc Observe.

Lemma drop_space_head (l : list ascii) :
  match Js.drop_space l with
  | [] => True
  | c :: _ => Js.is_space c = false
  end.
Proof.
  induction l as [|c l IH]; cbn; [exact I|].
  destruct (Js.is_space c) eqn:Hc; [exact IH | exact Hc].
Qed.

Lemma drop_space_fixed (c : ascii) (l : list ascii) :
  Js.is_space c = false -> Js.drop_space (c :: l) = c :: l.
Proof. intros H. cbn. now rewrite H. Qed.

Lemma drop_space_last (l : list ascii) (c : ascii) :
  Js.is_space c = false ->
  exists l', Js.drop_space (l ++ [c]) = l' ++ [c].
Proof.
  intros Hc. induction l as [|a l [l' IH]]; cbn.
  - rewrite Hc. now exists [].
  - destruct (Js.is_space a); [now exists l' | now exists (a :: l)].
Qed.

Lemma trim_list_idempotent (l : list ascii) :
  let t := rev (Js.drop_space (rev (Js.drop_space l))) in
  rev (Js.drop_space (rev (Js.drop_space t))) = t.
Proof.
  cbn zeta.
  pose proof (drop_space_head l) as Hhead.
  destruct (Js.drop_space l) as [|c m]; [reflexivity|].
  cbn [rev].
  destruct (drop_space_last (rev m) c Hhead) as [l' Hl'].
  rewrite Hl', rev_app_distr. cbn [rev app].
  rewrite (drop_space_fixed c) by exact Hhead.
  cbn [rev]. rewrite rev_involutive.
  pose proof (drop_space_head (rev m ++ [c])) as Hlast.
  rewrite Hl' in Hlast.
  destruct (l' ++ [c]) as [|d r] eqn:Hd.
  - now destruct l'.
  - rewrite (drop_space_fixed d) by exact Hlast.
    rewrite <- Hd, rev_app_distr. reflexivity.
Qed.

(** [s.trim().trim()] is [s.trim()]. *)
Lemma trim_idempotent (s : string) : Js.trim (Js.trim s) = Js.trim s.
Proof.
  unfold Js.trim. rewrite list_ascii_of_string_of_list_ascii.
  now rewrite trim_list_idempotent.
Qed.

Variable E : Ethers.









End Secrets.

Section BrowserBatch.
Import Flow Rpc Observe.
Variable E : Ethers.
Variable C : Chain.
Variable K : GasBatchManager.Backend.

Lemma log_all_run lines s :
  GasBatchManager.log_all lines s
  = (Ret tt, mkState (trace s) (logs s ++ lines) (nextNonce s)
               (lastSubmittedHash s)).
Proof.
  revert s. induction lines as [|l lines IH]; intros s; cbn.
  - rewrite app_nil_r. now destruct s.
  - unfold bind, log, modify. rewrite IH. cbn. now rewrite <- app_assoc.
Qed.

Lemma browser_iteration_gas_limit f wallet fees value total i to s :
  exists seg s',
    GasBatchManager.send_iteration C f wallet fees value total i to s
      = (Ret tt, s')
    /\ trace s' = trace s ++ seg
    /\ Forall (fun x => tx_gasLimit (fst x) = 21000%Z) (submissions seg).
Proof.
  destruct (browser_iteration_gas C f wallet fees value total i to s)
    as (seg & s' & Hrun & Htr & first & rest & Hsub & Hall & _).
  exists seg, s'. repeat split; try assumption.
  rewrite Hsub. eapply Forall_impl; [|exact Hall].
  intros x Hx. now rewrite Hx.
Qed.

Ltac unfold_browser_batch :=
  unfold GasBatchManager.handleBatchSend, for_each;
  unfold_flow; unfold_rpc; unfold_rpc; unfold_flow.

(** Every transaction the component submits has gas limit 21000. *)
Lemma browser_batch_gas f s :
  exists seg s',
    GasBatchManager.handleBatchSend E C K f s = (Ret tt, s')
    /\ trace s' = trace s ++ seg
    /\ Forall (fun x => tx_gasLimit (fst x) = 21000%Z) (submissions seg).
Proof.
  pose proof (fun w fe v => loop_submits string
                (GasBatchManager.send_iteration C f w fe v
                   (List.length (GasBatchManager.send_recipients E f)))
                (fun x => tx_gasLimit (fst x) = 21000%Z)
                (browser_iteration_gas_limit f w fe v _)
                (GasBatchManager.send_recipients E f) 0%nat) as Hloop.
  unfold_browser_batch.
  repeat (state_simpl; cbv zeta;
          first [ rewrite log_all_run
                | match goal with
                  | |- context [for_from 0 _ (_ _ _ ?w ?fe ?v _) ?st] =>
                      destruct (Hloop w fe v st)
                        as (seg & s2 & Hrun & Htr & Hq);
                      rewrite Hrun; clear Hloop
                  end
                | next_case ]);
    eexists; eexists; (split; [reflexivity|]); state_simpl;
    try rewrite Htr; state_simpl;
    (split; [rewrite <- ?app_assoc;
             first [reflexivity | symmetry; apply app_nil_r]|]);
    cbn; auto.
Qed.

(** The nonces of an error-free run of [handleBatchSend]. *)
Lemma browser_batch_nonces f s :
  exists seg s',
    GasBatchManager.handleBatchSend E C K f s = (Ret tt, s')
    /\ trace s' = trace s ++ seg
    /\ (error_free seg ->
        submissions seg = []
        \/ exists n0,
             fetched n0 seg
             /\ sent_to seg = GasBatchManager.send_recipients E f
             /\ sent_nonces seg
                = consecutive n0
                    (List.length (GasBatchManager.send_recipients E f))).
Proof.
  pose proof (fun w fe v => loop_clean string
                (GasBatchManager.send_iteration C f w fe v
                   (List.length (GasBatchManager.send_recipients E f)))
                (fun x => x)
                (browser_iteration_clean C f w fe v _)
                (GasBatchManager.send_recipients E f) 0%nat) as Hloop.
  unfold_browser_batch.
  repeat (state_simpl; cbv zeta;
          first [ rewrite log_all_run
                | match goal with
                  | |- context [for_from 0 _ (_ _ _ ?w ?fe ?v _) ?st] =>
                      destruct (Hloop w fe v st)
                        as (seg & s2 & Hrun & Htr & Hclean);
                      rewrite Hrun; clear Hloop
                  end
                | next_case ]);
    eexists; eexists; (split; [reflexivity|]); state_simpl;
    try rewrite Htr; state_simpl;
    (split; [rewrite <- ?app_assoc;
             first [reflexivity | symmetry; apply app_nil_r]|]);
    cbn; intros Hfree; try (left; reflexivity).
  right. destruct (Hclean Hfree) as (N & T). rewrite map_id in T.
  state_simpl. eexists. split; [eauto 6 with history|]. split; assumption.
Qed.



End BrowserBatch.

(** ** The batch broadcaster *)

Section Broadcaster.
Import Flow Rpc Observe.
Variable E : Ethers.
Variable C : Chain.
Variable K : GasBatchManager.Backend.

Lemma same_run {A} (r : Outcome A * State) o1 s1 o2 s2 seg1 seg2 h :
  r = (o1, s1) -> r = (o2, s2) ->
  trace s1 = h ++ seg1 -> trace s2 = h ++ seg2 ->
  o1 = o2 /\ s1 = s2 /\ seg1 = seg2.
Proof.
  intros H1 H2 T1 T2. rewrite H1 in H2. injection H2 as <- <-.
  rewrite T1 in T2. apply app_inv_head in T2. auto.
Qed.

(** Claim C3, amended.  In a run of the server batch and of the component
    batch in which no submission and no confirmation wait fails, the
    recipients are served in order with consecutive nonces, starting at a
    pending nonce the node reported.  In one pass of either loop, an
    error-free pass advances the counter by one, and a pass in which no
    submission is accepted leaves the counter unchanged or equal to a
    pending nonce fetched during the pass: it is never incremented without
    an accepted submission.  The pending nonce is fetched in a pass only
    after a submission or a wait of that pass threw a stale-nonce or an
    in-flight-limit error. *)
Theorem nonce_counter_discipline :
  (forall p s lines s',
     TxServer.handleSendBatch E C p s = (Ret lines, s') ->
     exists seg n0,
       trace s' = trace s ++ seg
       /\ fetched n0 seg
       /\ (error_free seg ->
           sent_to seg = TxServer.recipients p
           /\ sent_nonces seg
              = consecutive n0 (List.length (TxServer.recipients p))))
  /\
  (forall f s,
     exists seg s',
       GasBatchManager.handleBatchSend E C K f s = (Ret tt, s')
       /\ trace s' = trace s ++ seg
       /\ (error_free seg ->
           submissions seg = []
           \/ exists n0,
                fetched n0 seg
                /\ sent_to seg = GasBatchManager.send_recipients E f
                /\ sent_nonces seg
                   = consecutive n0
                       (List.length (GasBatchManager.send_recipients E f))))
  /\
  (forall wallet fees value p total i to s,
     exists seg s',
       TxServer.send_iteration C wallet fees value p total i to s
         = (Ret tt, s')
       /\ trace s' = trace s ++ seg
       /\ (error_free seg -> nextNonce s' = (nextNonce s + 1)%Z)
       /\ (none_accepted seg ->
           nextNonce s' = nextNonce s
           \/ exists n, fetched n seg /\ nextNonce s' = n)
       /\ (forall n, fetched n seg ->
           exists e, thrown e seg /\ retryable e = true))
  /\
  (forall f wallet fees value total i to s,
     exists seg s',
       GasBatchManager.send_iteration C f wallet fees value total i to s
         = (Ret tt, s')
       /\ trace s' = trace s ++ seg
       /\ (error_free seg -> nextNonce s' = (nextNonce s + 1)%Z)
       /\ (none_accepted seg ->
           nextNonce s' = nextNonce s
           \/ exists n, fetched n seg /\ nextNonce s' = n)
       /\ (forall n, fetched n seg ->
           exists e, thrown e seg /\ retryable e = true)).
Proof.
  split; [|split; [|split]].
  - intros p s lines s'. apply server_batch_nonces.
  - intros f s. apply browser_batch_nonces.
  - intros wallet fees value p total i to s.
    destruct (server_iteration_clean C wallet fees value p total i to s)
      as (seg & s' & Hrun & Htr & Hclean).
    destruct (server_iteration_counter C wallet fees value p total i to s)
      as (seg2 & s2 & Hrun2 & Htr2 & Hcount).
    destruct (server_iteration_fetch_cause C wallet fees value p total i to s)
      as (seg3 & s3 & Hrun3 & Htr3 & Hcause).
    destruct (same_run _ _ _ _ _ _ _ _ Hrun Hrun2 Htr Htr2)
      as (_ & <- & <-).
    destruct (same_run _ _ _ _ _ _ _ _ Hrun Hrun3 Htr Htr3)
      as (_ & <- & <-).
    exists seg, s'. repeat split; try assumption.
    intros Hfree. now destruct (Hclean Hfree) as (_ & _ & ?).
  - intros f wallet fees value total i to s.
    destruct (browser_iteration_clean C f wallet fees value total i to s)
      as (seg & s' & Hrun & Htr & Hclean).
    destruct (browser_iteration_counter C f wallet fees value total i to s)
      as (seg2 & s2 & Hrun2 & Htr2 & Hcount).
    destruct (browser_iteration_fetch_cause C f wallet fees value total i to s)
      as (seg3 & s3 & Hrun3 & Htr3 & Hcause).
    destruct (same_run _ _ _ _ _ _ _ _ Hrun Hrun2 Htr Htr2)
      as (_ & <- & <-).
    destruct (same_run _ _ _ _ _ _ _ _ Hrun Hrun3 Htr Htr3)
      as (_ & <- & <-).
    exists seg, s'. repeat split; try assumption.
    intros Hfree. now destruct (Hclean Hfree) as (_ & _ & ?).
Qed.

(** Claim C4.  In either broadcaster, when the submission for a recipient
    fails with a stale-nonce error and the node then reports the pending
    nonce [n'], exactly one more submission follows, identical but for its
    nonce [n']; if that one fails too, the failure line is logged, nothing
    more is submitted for the recipient, and the loop goes on with the next
    recipient.  Whatever the node answers, the loop returns normally and
    has made an attempt for every recipient. *)
Theorem stale_nonce_retry :
  (forall wallet fees value p total i to rest s r0 e n',
     let q := mkGasQuery to wallet value in
     let g := TxServer.buffered r0 TxServer.GAS_LIMIT_FALLBACK in
     let tx := mkTx to value g fees in
     let h1 := trace s ++ [EvEstimateGas q r0] in
     let h2 := h1 ++ [EvSendTransaction wallet (tx (nextNonce s)) (inl e)] in
     let h3 := h2 ++ [EvGetTransactionCount wallet (inr n')] in
     let r2 := sendTransaction C h3 wallet (tx n') in
     let body := TxServer.send_iteration C wallet fees value p total in
     estimateGas C (trace s) q = r0 ->
     sendTransaction C h1 wallet (tx (nextNonce s)) = inl e ->
     isNonceError e = true ->
     isInFlightLimitError e = false ->
     getTransactionCount C h2 wallet = inr n' ->
     exists tail s',
       body i to s = (Ret tt, s')
       /\ trace s' = h3 ++ EvSendTransaction wallet (tx n') r2 :: tail
       /\ submissions tail = []
       /\ (forall e2, r2 = inl e2 ->
           logs s' = logs s ++ [send_failure_line
                                  (TxServer.send_label total i to) e2]
           /\ nextNonce s' = n')
       /\ for_from i (to :: rest) body s = for_from (S i) rest body s')
  /\
  (forall f wallet fees value total i to rest s e n',
     let tx := mkTx to value 21000 fees in
     let h1 := trace s
               ++ [EvSendTransaction wallet (tx (nextNonce s)) (inl e)] in
     let h2 := h1 ++ [EvGetTransactionCount wallet (inr n')] in
     let r2 := sendTransaction C h2 wallet (tx n') in
     let body := GasBatchManager.send_iteration C f wallet fees value total in
     sendTransaction C (trace s) wallet (tx (nextNonce s)) = inl e ->
     isNonceError e = true ->
     getTransactionCount C h1 wallet = inr n' ->
     exists tail s',
       body i to s = (Ret tt, s')
       /\ trace s' = h2 ++ EvSendTransaction wallet (tx n') r2 :: tail
       /\ submissions tail = []
       /\ (forall e2, r2 = inl e2 ->
           logs s' = logs s ++ [send_failure_line
                                  (GasBatchManager.label total i to) e2]
           /\ nextNonce s' = n')
       /\ for_from i (to :: rest) body s = for_from (S i) rest body s')
  /\
  (forall wallet fees value p total rs s,
     exists seg s',
       for_each rs (TxServer.send_iteration C wallet fees value p total) s
         = (Ret tt, s')
       /\ trace s' = trace s ++ seg
       /\ (forall to, In to rs -> In to (sent_to seg)))
  /\
  (forall f wallet fees value total rs s,
     exists seg s',
       for_each rs (GasBatchManager.send_iteration C f wallet fees value total)
         s = (Ret tt, s')
       /\ trace s' = trace s ++ seg
       /\ (forall to, In to rs -> In to (sent_to seg))).
Proof.
  split; [|split; [|split]].
  - intros wallet fees value p total i to rest s r0 e n'
      q g tx h1 h2 h3 r2 body H0 H1 Hn Hf H2.
    destruct (server_retry C wallet fees value p total i to s r0 e n'
                H0 H1 Hn Hf H2) as (tail & s' & Hrun & Htr & Hsub & Hlog).
    exists tail, s'.
    split; [exact Hrun|]. split; [exact Htr|]. split; [exact Hsub|].
    split; [exact Hlog|]. now apply for_from_step.
  - intros f wallet fees value total i to rest s e n'
      tx h1 h2 r2 body H1 Hn H2.
    destruct (browser_retry C f wallet fees value total i to s e n'
                H1 Hn H2) as (tail & s' & Hrun & Htr & Hsub & Hlog).
    exists tail, s'.
    split; [exact Hrun|]. split; [exact Htr|]. split; [exact Hsub|].
    split; [exact Hlog|]. now apply for_from_step.
  - intros wallet fees value p total rs s. unfold for_each.
    destruct (loop_attempts string
                (TxServer.send_iteration C wallet fees value p total)
                (fun x => x)
                (server_iteration_attempts C wallet fees value p total)
                rs 0%nat s) as (seg & s' & Hrun & Htr & Hall).
    exists seg, s'. auto.
  - intros f wallet fees value total rs s. unfold for_each.
    destruct (loop_attempts string
                (GasBatchManager.send_iteration C f wallet fees value total)
                (fun x => x)
                (browser_iteration_attempts C f wallet fees value total)
                rs 0%nat s) as (seg & s' & Hrun & Htr & Hall).
    exists seg, s'. auto.
Qed.

(** Claim C6, amended.  Every transaction the component submits carries
    the gas limit 21000.  Every transaction the server submits for a
    recipient, the retry included, carries the gas limit obtained once for
    that recipient: the node's estimate plus a fifth, or 60000 when the
    estimate fails. *)
Theorem gas_limit_by_sender :
  (forall f s,
     exists seg s',
       GasBatchManager.handleBatchSend E C K f s = (Ret tt, s')
       /\ trace s' = trace s ++ seg
       /\ Forall (fun x => tx_gasLimit (fst x) = 21000%Z) (submissions seg))
  /\
  (forall wallet fees value p total i to s,
     let q := mkGasQuery to wallet value in
     let g := TxServer.buffered (estimateGas C (trace s) q)
                TxServer.GAS_LIMIT_FALLBACK in
     exists seg s',
       TxServer.send_iteration C wallet fees value p total i to s
         = (Ret tt, s')
       /\ trace s' = trace s ++ seg
       /\ submissions seg <> []
       /\ Forall (fun x => tx_gasLimit (fst x) = g) (submissions seg)).
Proof.
  split.
  - intros f s. apply browser_batch_gas.
  - intros wallet fees value p total i to s q g.
    destruct (server_iteration_gas C wallet fees value p total i to s)
      as (seg & s' & Hrun & Htr & first & rest & Hsub & Hall & _).
    exists seg, s'. repeat split; try assumption.
    + rewrite Hsub. discriminate.
    + rewrite Hsub. eapply Forall_impl; [|exact Hall].
      intros x Hx. now rewrite Hx.
Qed.

End Broadcaster.

(** ** The reclaim engine *)

Section ReclaimEngine.
Import Flow Rpc Observe.
Variable E : Ethers.
Variable C : Chain.

(** Claim C5.  In either reclaim loop, an account whose balance minus the
    reserve minus the gas cost is at most zero (at the first estimate or,
    on the server, at the second) is skipped: the pass ends by [continue],
    nothing is submitted, the skip line is logged, and the loop goes on
    with the next account. *)
Theorem reclaim_skips_unfunded :
  (forall fees reserveWei p total i entry rest s w n b r1,
     let pk := TxServer.privateKey entry in
     let q := mkGasQuery (TxServer.reclaimAddress p) w 1 in
     let h1 := trace s ++ [EvGetTransactionCount w (inr n)] in
     let h2 := h1 ++ [EvGetBalance w (inr b)] in
     let estimated := TxServer.buffered r1 TxServer.GAS_LIMIT_FALLBACK in
     let sendable := (b - reserveWei - estimated * maxFeePerGas fees)%Z in
     let body := TxServer.reclaim_iteration E C fees reserveWei p total in
     let line := skip_line (TxServer.reclaim_label total i
                              (TxServer.address entry)) in
     Js.is_empty pk = false ->
     newWallet E (as_key pk) = inr w ->
     getTransactionCount C (trace s) w = inr n ->
     getBalance C h1 w = inr b ->
     estimateGas C h2 q = r1 ->
     (sendable <= 0)%Z ->
     exists seg s',
       body i entry s = (Continue, s')
       /\ trace s' = trace s ++ seg
       /\ submissions seg = []
       /\ logs s' = logs s ++ [line]
       /\ for_from i (entry :: rest) body s = for_from (S i) rest body s')
  /\
  (forall fees reserveWei p total i entry rest s w n b r1 r2,
     let pk := TxServer.privateKey entry in
     let q := mkGasQuery (TxServer.reclaimAddress p) w 1 in
     let h1 := trace s ++ [EvGetTransactionCount w (inr n)] in
     let h2 := h1 ++ [EvGetBalance w (inr b)] in
     let h3 := h2 ++ [EvEstimateGas q r1] in
     let estimated := TxServer.buffered r1 TxServer.GAS_LIMIT_FALLBACK in
     let sendable := (b - reserveWei - estimated * maxFeePerGas fees)%Z in
     let q' := mkGasQuery (TxServer.reclaimAddress p) w sendable in
     let final := (b - reserveWei
                   - TxServer.buffered r2 estimated * maxFeePerGas fees)%Z in
     let body := TxServer.reclaim_iteration E C fees reserveWei p total in
     let line := skip_line (TxServer.reclaim_label total i
                              (TxServer.address entry)) in
     Js.is_empty pk = false ->
     newWallet E (as_key pk) = inr w ->
     getTransactionCount C (trace s) w = inr n ->
     getBalance C h1 w = inr b ->
     estimateGas C h2 q = r1 ->
     (0 < sendable)%Z ->
     estimateGas C h3 q' = r2 ->
     (final <= 0)%Z ->
     exists seg s',
       body i entry s = (Continue, s')
       /\ trace s' = trace s ++ seg
       /\ submissions seg = []
       /\ logs s' = logs s ++ [line]
       /\ for_from i (entry :: rest) body s = for_from (S i) rest body s')
  /\
  (forall f fees reserveWei gasCost total i account rest s w n b,
     let h1 := trace s ++ [EvGetTransactionCount w (inr n)] in
     let body := GasBatchManager.reclaim_iteration E C f fees reserveWei
                   gasCost total in
     let line := skip_line (GasBatchManager.label total i
                              (GasBatchManager.acc_address account)) in
     Js.is_empty (GasBatchManager.acc_privateKey account) = false ->
     newWallet E (GasBatchManager.acc_privateKey account) = inr w ->
     getTransactionCount C (trace s) w = inr n ->
     getBalance C h1 w = inr b ->
     (b - reserveWei - gasCost <= 0)%Z ->
     exists seg s',
       body i account s = (Continue, s')
       /\ trace s' = trace s ++ seg
       /\ submissions seg = []
       /\ logs s' = logs s ++ [line]
       /\ for_from i (account :: rest) body s = for_from (S i) rest body s').
Proof.
  split; [|split].
  - intros fees reserveWei p total i entry rest s w n b r1
      pk q h1 h2 estimated sendable body line Hpk Hw Hn Hb H1 Hle.
    pose proof (server_skip_first E C fees reserveWei p total i entry s
                  w n b r1 Hpk Hw Hn Hb H1 Hle) as Hrun.
    eexists; eexists. split; [exact Hrun|]. state_simpl.
    split; [rewrite <- !app_assoc; reflexivity|].
    split; [reflexivity|]. split; [reflexivity|].
    now apply for_from_skip.
  - intros fees reserveWei p total i entry rest s w n b r1 r2
      pk q h1 h2 h3 estimated sendable q' final body line
      Hpk Hw Hn Hb H1 Hpos H2 Hle.
    pose proof (server_skip_final E C fees reserveWei p total i entry s
                  w n b r1 r2 Hpk Hw Hn Hb H1 Hpos H2 Hle) as Hrun.
    eexists; eexists. split; [exact Hrun|]. state_simpl.
    split; [rewrite <- !app_assoc; reflexivity|].
    split; [reflexivity|]. split; [reflexivity|].
    now apply for_from_skip.
  - intros f fees reserveWei gasCost total i account rest s w n b
      h1 body line Hpk Hw Hn Hb Hle.
    pose proof (browser_skip E C f fees reserveWei gasCost total i account
                  s w n b Hpk Hw Hn Hb Hle) as Hrun.
    eexists; eexists. split; [exact Hrun|]. state_simpl.
    split; [rewrite <- !app_assoc; reflexivity|].
    split; [reflexivity|]. split; [reflexivity|].
    now apply for_from_skip.
Qed.

(** The reclaim loops of [tx-server.js] and of the component have no
    retry path.  A pass of either loop submits at most one transaction.
    When that submission fails, with whatever error, nothing but the delay
    follows it (no fresh nonce is fetched, nothing is resubmitted), the
    failure line is logged, and the loop goes on with the next account. *)
Theorem reclaim_submits_once :
  (forall fees reserveWei p total i entry rest s,
     let body := TxServer.reclaim_iteration E C fees reserveWei p total in
     exists seg o s',
       body i entry s = (o, s')
       /\ trace s' = trace s ++ seg
       /\ (List.length (submissions seg) <= 1)%nat
       /\ (forall tx e, submissions seg = [(tx, inl e)] ->
           Forall (fun ev => is_delay ev = true) (after_submission seg)
           /\ logs s' = logs s ++ [failure_line
                                     (TxServer.reclaim_label total i
                                        (TxServer.address entry)) e]
           /\ for_from i (entry :: rest) body s
              = for_from (S i) rest body s'))
  /\
  (forall f fees reserveWei gasCost total i account rest s,
     let body := GasBatchManager.reclaim_iteration E C f fees reserveWei
                   gasCost total in
     exists seg o s',
       body i account s = (o, s')
       /\ trace s' = trace s ++ seg
       /\ (List.length (submissions seg) <= 1)%nat
       /\ (forall tx e, submissions seg = [(tx, inl e)] ->
           Forall (fun ev => is_delay ev = true) (after_submission seg)
           /\ logs s' = logs s ++ [failure_line
                                     (GasBatchManager.label total i
                                        (GasBatchManager.acc_address account))
                                     e]
           /\ for_from i (account :: rest) body s
              = for_from (S i) rest body s')).
Proof.
  split.
  - intros fees reserveWei p total i entry rest s body.
    destruct (server_reclaim_once E C fees reserveWei p total i entry s)
      as (seg & o & s' & Hrun & Htr & Hone & Hfail).
    exists seg, o, s'.
    split; [exact Hrun|]. split; [exact Htr|]. split; [exact Hone|].
    intros tx e He. destruct (Hfail tx e He) as (Ho & Hd & Hl).
    split; [exact Hd|]. split; [exact Hl|].
    subst o. now apply for_from_step.
  - intros f fees reserveWei gasCost total i account rest s body.
    destruct (browser_reclaim_once E C f fees reserveWei gasCost total i
                account s)
      as (seg & o & s' & Hrun & Htr & Hone & Hfail).
    exists seg, o, s'.
    split; [exact Hrun|]. split; [exact Htr|]. split; [exact Hone|].
    intros tx e He. destruct (Hfail tx e He) as (Ho & Hd & Hl).
    split; [exact Hd|]. split; [exact Hl|].
    subst o. now apply for_from_step.
Qed.

End ReclaimEngine.

(** ** The two entry points for a funding secret *)

Section FundingSecret.
Import Flow Rpc Observe.
Variable E : Ethers.
Variable C : Chain.
Variable K : GasBatchManager.Backend.


End FundingSecret.

(** ** The stand-in libraries honour the contracts *)

Section DemoFacts.
Import Flow.

Lemma demo_envelope : Contract.envelope Demo.bip39 Demo.node.
Proof.
  split.
  - intros H. vm_compute in H. discriminate.
  - intros password salt. eexists. split; [reflexivity|].
    unfold Demo.stretch. now rewrite length_map, length_seq.
  - intros m _. apply string_of_list_byte_of_string.
Qed.

Lemma demo_generator : Contract.generator Demo.bip39.
Proof.
  split.
  - intros e He. eexists. split; [reflexivity|].
    rewrite BytesFacts.to_hex_length.
    destruct He as [H|[H|[H|[H|H]]]]; rewrite H; split;
      vm_compute; reflexivity.
  - intros bits g Hb. eexists. eexists. split; [reflexivity|].
    destruct Hb as [H|[H|[H|[H|H]]]]; rewrite H; split;
      vm_compute; reflexivity.
Qed.

End DemoFacts.

(** ** Witnesses and counterexamples for the envelope properties *)

Section EnvelopeWitnesses.
Import Flow Crypto Observe.

Lemma decrypt_encrypt_round_trip_witness :
  CryptoUtils.validateMnemonic Demo.bip39 Demo.sample_mnemonic = true
  /\ Js.is_empty "Test1234!" = false
  /\ exists envelope s',
       CryptoUtils.encryptMnemonic Demo.bip39 Demo.node Demo.sample_mnemonic
         "Test1234!" (Demo.start Demo.counting) = (Ret envelope, s')
       /\ fst (CryptoUtils.decryptMnemonic Demo.bip39 Demo.node envelope
                 "Test1234!" (Demo.start Demo.zeros))
          = Ret Demo.sample_mnemonic.
Proof.
  split; [reflexivity|]. split; [reflexivity|].
  apply (decrypt_encrypt_round_trip Demo.bip39 Demo.node
           Demo.sample_mnemonic "Test1234!"
           (Demo.start Demo.counting) (Demo.start Demo.zeros)
           demo_envelope);
    reflexivity.
Defined.

Lemma decrypt_fails_closed_witness :
  let s := Demo.start Demo.zeros in
  let ctr :=
    CryptoUtils.decryptMnemonic Demo.bip39 Demo.node Demo.ctr_envelope
      "Test1234!" s in
  let gcm :=
    CryptoUtilsGUI.decryptMnemonic Demo.bip39 Demo.web Demo.gui_envelope
      "Test1234!" s in
  (ctr = (Ret Demo.sample_mnemonic, snd ctr)
   /\ CryptoUtils.validateMnemonic Demo.bip39 Demo.sample_mnemonic = true)
  /\ (gcm = (Ret Demo.sample_mnemonic, snd gcm)
      /\ CryptoUtilsGUI.validateMnemonic Demo.bip39 Demo.sample_mnemonic
         = true).
Proof.
  intros s ctr gcm.
  assert (Hc : ctr = (Ret Demo.sample_mnemonic, snd ctr))
    by (vm_compute; reflexivity).
  assert (Hg : gcm = (Ret Demo.sample_mnemonic, snd gcm))
    by (vm_compute; reflexivity).
  split; (split; [assumption|]).
  - exact (proj1 (decrypt_fails_closed Demo.bip39 Demo.node Demo.web
                    Demo.ctr_envelope "Test1234!" Demo.sample_mnemonic
                    s (snd ctr)) Hc).
  - exact (proj2 (decrypt_fails_closed Demo.bip39 Demo.node Demo.web
                    Demo.gui_envelope "Test1234!" Demo.sample_mnemonic
                    s (snd gcm)) Hg).
Defined.

Lemma short_envelope_rejected_witness :
  let s := Demo.start Demo.zeros in
  Js.is_empty Demo.envelope8 = false
  /\ Js.is_empty "pw" = false
  /\ (List.length (Base64.decode Demo.envelope8) < 32)%nat
  /\ CryptoUtilsGUI.decode_base64 Demo.web Demo.envelope8 s
     = (Ret (repeat x00 8), s)
  /\ (List.length (repeat x00 8) < 28)%nat
  /\ CryptoUtils.decryptMnemonic Demo.bip39 Demo.node Demo.envelope8 "pw" s
     = (Throw format_error, s)
  /\ CryptoUtilsGUI.decryptMnemonic Demo.bip39 Demo.web Demo.envelope8 "pw" s
     = (Throw format_error, s).
Proof.
  intros s.
  assert (He : Js.is_empty Demo.envelope8 = false) by reflexivity.
  assert (Hp : Js.is_empty "pw" = false) by reflexivity.
  assert (Hl : (List.length (Base64.decode Demo.envelope8) < 32)%nat)
    by (vm_compute; lia).
  assert (Hd : CryptoUtilsGUI.decode_base64 Demo.web Demo.envelope8 s
               = (Ret (repeat x00 8), s)) by reflexivity.
  assert (Hl' : (List.length (repeat x00 8) < 28)%nat) by (vm_compute; lia).
  destruct (short_envelope_rejected Demo.bip39 Demo.node Demo.web
              Demo.envelope8 "pw" s He Hp) as [Hctr Hgcm].
  exact (conj He (conj Hp (conj Hl (conj Hd (conj Hl'
           (conj (Hctr Hl) (Hgcm _ Hd Hl'))))))).
Defined.

(** An envelope of exactly salt + IV bytes passes the length check of
    either module: the key is derived and the cipher is run before the
    input is rejected. *)
Lemma minimal_envelope_reaches_key_derivation :
  let s := Demo.start Demo.zeros in
  let ctr :=
    CryptoUtils.decryptMnemonic Demo.bip39 Demo.node Demo.envelope32 "pw" s in
  let gcm :=
    CryptoUtilsGUI.decryptMnemonic Demo.bip39 Demo.web Demo.envelope28 "pw"
      s in
  (List.length (Base64.decode Demo.envelope32) = 32%nat
   /\ (32 < 16 + 16 + 1)%nat
   /\ fst ctr <> Throw format_error
   /\ ops (snd ctr) = [OpPbkdf2 "pw" (repeat x00 16); OpCreateDecipheriv])
  /\ (CryptoUtilsGUI.decode_base64 Demo.web Demo.envelope28 s
      = (Ret (repeat x00 28), s)
      /\ (28 < 16 + 12 + 1)%nat
      /\ fst gcm <> Throw format_error
      /\ ops (snd gcm)
         = [OpImportKey; OpDeriveKey (repeat x00 16); OpSubtleDecrypt]).
Proof.
  cbv zeta. repeat split; try (vm_compute; reflexivity); try lia;
    vm_compute; discriminate.
Qed.

Lemma generateMnemonic_word_count_witness :
  let s := Demo.start Demo.counting in
  (In 12%Z CryptoUtils.SUPPORTED_WORD_COUNTS
   /\ (exists m s',
         CryptoUtils.generateMnemonic Demo.bip39 12 s = (Ret m, s')
         /\ Z.of_nat (List.length (Bip39.words m)) = 12%Z
         /\ CryptoUtils.validateMnemonic Demo.bip39 m = true)
   /\ (exists m s',
         CryptoUtilsGUI.generateMnemonic Demo.bip39 12 s = (Ret m, s')
         /\ Z.of_nat (List.length (Bip39.words m)) = 12%Z
         /\ CryptoUtilsGUI.validateMnemonic Demo.bip39 m = true))
  /\ (~ In 13%Z CryptoUtils.SUPPORTED_WORD_COUNTS
      /\ CryptoUtils.generateMnemonic Demo.bip39 13 s
         = (Throw (unsupported 13), s)
      /\ CryptoUtilsGUI.generateMnemonic Demo.bip39 13 s
         = (Throw (unsupported 13), s)).
Proof.
  intros s.
  assert (H12 : In 12%Z CryptoUtils.SUPPORTED_WORD_COUNTS) by (left; reflexivity).
  assert (H13 : ~ In 13%Z CryptoUtils.SUPPORTED_WORD_COUNTS)
    by (cbn; intros H; repeat destruct H as [H|H]; try discriminate H; exact H).
  split.
  - split; [exact H12|].
    exact (proj1 (generateMnemonic_word_count Demo.bip39 12 s)
             demo_generator H12).
  - split; [exact H13|].
    exact (proj2 (generateMnemonic_word_count Demo.bip39 13 s) H13).
Defined.

End EnvelopeWitnesses.

(** ** Witnesses and counterexamples for the batch properties *)

Section BatchWitnesses.
Import Flow Rpc Observe.

Lemma calm_run_returns :
  TxServer.handleSendBatch Demo.ethers Demo.calm
    (Demo.send_payload [Demo.alice; Demo.bob; Demo.carol]) Rpc.initial
  = (Ret (Demo.lines_of Demo.calm_run), snd Demo.calm_run).
Proof. vm_compute. reflexivity. Qed.

Lemma calm_run_error_free : error_free (trace (snd Demo.calm_run)).
Proof. vm_compute. reflexivity. Qed.

Lemma nonce_counter_discipline_witness :
  (exists lines s' seg n0,
     TxServer.handleSendBatch Demo.ethers Demo.calm
       (Demo.send_payload [Demo.alice; Demo.bob; Demo.carol]) Rpc.initial
     = (Ret lines, s')
     /\ trace s' = trace Rpc.initial ++ seg
     /\ error_free seg
     /\ fetched n0 seg
     /\ sent_to seg = [Demo.alice; Demo.bob; Demo.carol]
     /\ sent_nonces seg = consecutive n0 3)
  /\ (exists seg s',
        TxServer.send_iteration Demo.stale Demo.wallet Demo.fees 1000
          (Demo.send_payload [Demo.alice]) 1 0 Demo.alice Demo.at_nonce_5
        = (Ret tt, s')
        /\ trace s' = trace Demo.at_nonce_5 ++ seg
        /\ none_accepted seg
        /\ (nextNonce s' = nextNonce Demo.at_nonce_5
            \/ exists n, fetched n seg /\ nextNonce s' = n)
        /\ (forall n, fetched n seg ->
            exists e, thrown e seg /\ retryable e = true)).
Proof.
  destruct (nonce_counter_discipline Demo.ethers Demo.calm Demo.no_backend)
    as (Hbatch & _).
  destruct (nonce_counter_discipline Demo.ethers Demo.stale Demo.no_backend)
    as (_ & _ & Hiter & _).
  split.
  - destruct (Hbatch _ Rpc.initial _ _ calm_run_returns)
      as (seg & n0 & Htr & Hf & Hclean).
    pose proof calm_run_error_free as Hfree.
    rewrite Htr in Hfree.
    exact (ex_intro _ _ (ex_intro _ _ (ex_intro _ seg (ex_intro _ n0
             (conj calm_run_returns (conj Htr (conj Hfree (conj Hf
                (Hclean Hfree))))))))).
  - destruct (Hiter Demo.wallet Demo.fees 1000%Z
                (Demo.send_payload [Demo.alice]) 1%nat 0%nat Demo.alice
                Demo.at_nonce_5)
      as (seg & s' & Hrun & Htr & _ & Hcount & Hcause).
    assert (Hnone : none_accepted (trace s')).
    { replace s' with
        (snd (TxServer.send_iteration Demo.stale Demo.wallet Demo.fees 1000
                (Demo.send_payload [Demo.alice]) 1 0 Demo.alice
                Demo.at_nonce_5))
        by (rewrite Hrun; reflexivity).
      vm_compute. reflexivity. }
    rewrite Htr in Hnone.
    exact (ex_intro _ seg (ex_intro _ s'
             (conj Hrun (conj Htr (conj Hnone
                (conj (Hcount Hnone) Hcause)))))).
Defined.

(** Every submission of the pass is refused, and yet the counter has
    moved from 5 to the re-fetched 7. *)
Lemma stale_failure_moves_counter :
  let r := TxServer.send_iteration Demo.stale Demo.wallet Demo.fees 1000
             (Demo.send_payload [Demo.alice]) 1 0 Demo.alice Demo.at_nonce_5 in
  map snd (submissions (trace (snd r)))
  = [inl Demo.nonce_too_low; inl Demo.nonce_too_low]
  /\ nextNonce Demo.at_nonce_5 = 5%Z
  /\ nextNonce (snd r) = 7%Z
  /\ nextNonce (snd r) <> nextNonce Demo.at_nonce_5.
Proof. cbv zeta. repeat split; vm_compute; congruence. Qed.

Lemma stale_nonce_retry_witness :
  let q := mkGasQuery Demo.alice Demo.wallet 1000 in
  let tx := mkTx Demo.alice 1000 25200 Demo.fees in
  let h1 := [EvEstimateGas q (inr 21000%Z)] in
  let h2 := h1 ++ [EvSendTransaction Demo.wallet (tx 5%Z)
                     (inl Demo.nonce_too_low)] in
  let h3 := h2 ++ [EvGetTransactionCount Demo.wallet (inr 7%Z)] in
  let body := TxServer.send_iteration Demo.stale Demo.wallet Demo.fees 1000
                (Demo.send_payload [Demo.alice]) 1 in
  estimateGas Demo.stale [] q = inr 21000%Z
  /\ sendTransaction Demo.stale h1 Demo.wallet (tx 5%Z)
     = inl Demo.nonce_too_low
  /\ isNonceError Demo.nonce_too_low = true
  /\ isInFlightLimitError Demo.nonce_too_low = false
  /\ getTransactionCount Demo.stale h2 Demo.wallet = inr 7%Z
  /\ exists tail s',
       body 0%nat Demo.alice Demo.at_nonce_5 = (Ret tt, s')
       /\ trace s'
          = h3 ++ EvSendTransaction Demo.wallet (tx 7%Z)
                    (sendTransaction Demo.stale h3 Demo.wallet (tx 7%Z))
                  :: tail
       /\ submissions tail = []
       /\ (forall e2,
             sendTransaction Demo.stale h3 Demo.wallet (tx 7%Z) = inl e2 ->
             logs s' = [send_failure_line
                          (TxServer.send_label 1 0 Demo.alice) e2]
             /\ nextNonce s' = 7%Z)
       /\ for_from 0 [Demo.alice] body Demo.at_nonce_5 = for_from 1 [] body s'.
Proof.
  intros q tx h1 h2 h3 body.
  assert (H0 : estimateGas Demo.stale [] q = inr 21000%Z) by reflexivity.
  assert (H1 : sendTransaction Demo.stale h1 Demo.wallet (tx 5%Z)
               = inl Demo.nonce_too_low) by reflexivity.
  assert (Hn : isNonceError Demo.nonce_too_low = true) by reflexivity.
  assert (Hf : isInFlightLimitError Demo.nonce_too_low = false)
    by reflexivity.
  assert (H2 : getTransactionCount Demo.stale h2 Demo.wallet = inr 7%Z)
    by reflexivity.
  exact (conj H0 (conj H1 (conj Hn (conj Hf (conj H2
           (proj1 (stale_nonce_retry Demo.stale) Demo.wallet Demo.fees
              1000%Z (Demo.send_payload [Demo.alice]) 1%nat 0%nat
              Demo.alice [] Demo.at_nonce_5 (inr 21000%Z) Demo.nonce_too_low
              7%Z H0 H1 Hn Hf H2)))))).
Defined.

Lemma reclaim_skips_unfunded_witness :
  let p := Demo.reclaim_payload [Demo.alice_entry] in
  let q := mkGasQuery Demo.alice Demo.wallet 1 in
  let h1 := [EvGetTransactionCount Demo.wallet (inr 0%Z)] in
  let h2 := h1 ++ [EvGetBalance Demo.wallet (inr 0%Z)] in
  let body := TxServer.reclaim_iteration Demo.ethers Demo.broke Demo.fees 0
                p 1 in
  Js.is_empty Demo.secret_key = false
  /\ newWallet Demo.ethers (as_key Demo.secret_key) = inr Demo.wallet
  /\ getTransactionCount Demo.broke [] Demo.wallet = inr 0%Z
  /\ getBalance Demo.broke h1 Demo.wallet = inr 0%Z
  /\ estimateGas Demo.broke h2 q = inr 21000%Z
  /\ (0 - 0 - 25200 * 10 <= 0)%Z
  /\ exists seg s',
       body 0%nat Demo.alice_entry Rpc.initial = (Continue, s')
       /\ trace s' = seg
       /\ submissions seg = []
       /\ logs s' = [skip_line (TxServer.reclaim_label 1 0 Demo.alice)]
       /\ for_from 0 [Demo.alice_entry] body Rpc.initial = for_from 1 [] body s'.
Proof.
  intros p q h1 h2 body.
  assert (Hpk : Js.is_empty Demo.secret_key = false) by reflexivity.
  assert (Hw : newWallet Demo.ethers (as_key Demo.secret_key)
               = inr Demo.wallet) by reflexivity.
  assert (Hn : getTransactionCount Demo.broke [] Demo.wallet = inr 0%Z)
    by reflexivity.
  assert (Hb : getBalance Demo.broke h1 Demo.wallet = inr 0%Z)
    by reflexivity.
  assert (H1 : estimateGas Demo.broke h2 q = inr 21000%Z) by reflexivity.
  assert (Hle : (0 - 0 - 25200 * 10 <= 0)%Z) by lia.
  exact (conj Hpk (conj Hw (conj Hn (conj Hb (conj H1 (conj Hle
           (proj1 (reclaim_skips_unfunded Demo.ethers Demo.broke)
              Demo.fees 0%Z p 1%nat 0%nat Demo.alice_entry [] Rpc.initial
              Demo.wallet 0%Z 0%Z (inr 21000%Z)
              Hpk Hw Hn Hb H1 Hle))))))).
Defined.

(** With an estimate of 21000 the server submits with gas limit 25200. *)
Lemma server_gas_limit_is_estimated :
  let r := TxServer.handleSendBatch Demo.ethers Demo.calm
             (Demo.send_payload [Demo.alice; Demo.bob]) Rpc.initial in
  map (fun x => tx_gasLimit (fst x)) (submissions (trace (snd r)))
  = [25200; 25200]%Z
  /\ 25200%Z <> 21000%Z.
Proof. cbv zeta. split; [vm_compute; reflexivity | discriminate]. Qed.

Lemma reclaim_submits_once_witness :
  let body := TxServer.reclaim_iteration Demo.ethers Demo.stale Demo.fees 0
                (Demo.reclaim_payload [Demo.bob_entry]) 1 in
  exists seg o s' tx,
    body 0%nat Demo.bob_entry Rpc.initial = (o, s')
    /\ trace s' = trace Rpc.initial ++ seg
    /\ submissions seg = [(tx, inl Demo.nonce_too_low)]
    /\ Forall (fun ev => is_delay ev = true) (after_submission seg)
    /\ logs s' = logs Rpc.initial
                 ++ [failure_line (TxServer.reclaim_label 1 0 Demo.bob)
                       Demo.nonce_too_low]
    /\ for_from 0 [Demo.bob_entry] body Rpc.initial = for_from 1 [] body s'.
Proof.
  intros body.
  destruct (proj1 (reclaim_submits_once Demo.ethers Demo.stale)
              Demo.fees 0%Z (Demo.reclaim_payload [Demo.bob_entry]) 1%nat 0%nat
              Demo.bob_entry [] Rpc.initial)
    as (seg & o & s' & Hrun & Htr & _ & Hfail).
  fold body in Hrun, Hfail.
  assert (Hsub : submissions (trace s')
                 = [(mkTx Demo.alice 748000 25200 Demo.fees 5,
                     inl Demo.nonce_too_low)]).
  { replace s' with (snd (body 0%nat Demo.bob_entry Rpc.initial))
      by (rewrite Hrun; reflexivity).
    vm_compute. reflexivity. }
  rewrite Htr in Hsub.
  destruct (Hfail _ _ Hsub) as (Hd & Hl & Hnext).
  exact (ex_intro _ seg (ex_intro _ o (ex_intro _ s' (ex_intro _ _
           (conj Hrun (conj Htr (conj Hsub (conj Hd (conj Hl Hnext))))))))).
Defined.

(** Claim C7, on the code.  The claim gives the reclaim engine the retry
    policy of the broadcaster; the reclaim loops of [tx-server.js] and of
    the component do not have it.  On a node that refuses every submission
    as stale ([isNonceError] holds of its error), each of them submits the
    transfer of the one account once, fetches no fresh nonce, submits
    nothing again and logs the failure as final, whereas the broadcaster
    of the same server, on the same node, fetches the pending nonce and
    submits a second time. *)
Lemma reclaim_does_not_retry :
  let r := TxServer.handleReclaimBatch Demo.ethers Demo.stale
             (Demo.reclaim_payload [Demo.bob_entry]) Rpc.initial in
  let b := GasBatchManager.handleBatchReclaim Demo.ethers Demo.stale
             Demo.no_backend (Demo.form Demo.secret_key [Demo.bob])
             Rpc.initial in
  let sent := TxServer.handleSendBatch Demo.ethers Demo.stale
                (Demo.send_payload [Demo.bob]) Rpc.initial in
  isNonceError Demo.nonce_too_low = true
  /\ map snd (submissions (trace (snd r))) = [inl Demo.nonce_too_low]
  /\ after_submission (trace (snd r)) = []
  /\ fst r = Ret [failure_line (TxServer.reclaim_label 1 0 Demo.bob)
                    Demo.nonce_too_low]
  /\ map snd (submissions (trace (snd b))) = [inl Demo.nonce_too_low]
  /\ after_submission (trace (snd b)) = []
  /\ logs (snd b) = [failure_line (GasBatchManager.label 1 0 Demo.bob)
                       Demo.nonce_too_low]
  /\ map (fun x => tx_nonce (fst x)) (submissions (trace (snd sent)))
     = [5; 7]%Z.
Proof. cbv zeta. repeat split; vm_compute; reflexivity. Qed.




End BatchWitnesses.

(* ================================================================== *)
(** * Part III.  Further properties                                    *)
(* ================================================================== *)

(** ** Strings *)

Module TextFacts.

Lemma list_of_append (a b : string) :
  list_ascii_of_string (a +++ b)
  = list_ascii_of_string a ++ list_ascii_of_string b.
Proof. induction a as [|c a IH]; cbn; [reflexivity | now rewrite IH]. Qed.

Lemma string_of_app (l1 l2 : list ascii) :
  string_of_list_ascii (l1 ++ l2)
  = string_of_list_ascii l1 +++ string_of_list_ascii l2.
Proof. induction l1 as [|c l1 IH]; cbn; [reflexivity | now rewrite IH]. Qed.

Lemma list_inj (a b : string) :
  list_ascii_of_string a = list_ascii_of_string b -> a = b.
Proof.
  intros H. rewrite <- (string_of_list_ascii_of_string a),
    <- (string_of_list_ascii_of_string b). now rewrite H.
Qed.

Lemma append_inv_head (a x y : string) : a +++ x = a +++ y -> x = y.
Proof.
  intros H. apply list_inj. apply (f_equal list_ascii_of_string) in H.
  rewrite !list_of_append in H. now apply app_inv_head in H.
Qed.

Lemma append_inv_tail (a x y : string) : x +++ a = y +++ a -> x = y.
Proof.
  intros H. apply list_inj. apply (f_equal list_ascii_of_string) in H.
  rewrite !list_of_append in H. now apply app_inv_tail in H.
Qed.

Lemma append_assoc (a b c : string) : (a +++ b) +++ c = a +++ b +++ c.
Proof. induction a as [|x a IH]; cbn; [reflexivity | now rewrite IH]. Qed.

Lemma append_nil_r (a : string) : a +++ "" = a.
Proof. induction a as [|x a IH]; cbn; [reflexivity | now rewrite IH]. Qed.

Lemma length_list (a : string) :
  List.length (list_ascii_of_string a) = String.length a.
Proof. induction a as [|x a IH]; cbn; [reflexivity | now rewrite IH]. Qed.

Lemma length_append (a b : string) :
  String.length (a +++ b) = (String.length a + String.length b)%nat.
Proof. induction a as [|x a IH]; cbn; [reflexivity | now rewrite IH]. Qed.

Lemma length_string_of (l : list ascii) :
  String.length (string_of_list_ascii l) = List.length l.
Proof. induction l as [|x l IH]; cbn; [reflexivity | now rewrite IH]. Qed.

Lemma of_Z_inj (a b : Z) : Js.of_Z a = Js.of_Z b -> a = b.
Proof.
  unfold Js.of_Z. intros H. apply DecimalZ.to_int_inj.
  apply (f_equal NilEmpty.int_of_string) in H.
  rewrite !NilEmpty.isi in H. now injection H.
Qed.

Lemma of_nat_inj (a b : nat) : Js.of_nat a = Js.of_nat b -> a = b.
Proof.
  unfold Js.of_nat. intros H. apply DecimalNat.Unsigned.to_uint_inj.
  apply (f_equal NilEmpty.uint_of_string) in H.
  rewrite !NilEmpty.usu in H. now injection H.
Qed.

Lemma read_zeros (k : nat) (d : Decimal.uint) :
  NilEmpty.uint_of_string
    (string_of_list_ascii (repeat "0"%char k) +++ NilEmpty.string_of_uint d)
  = Some (Nat.iter k Decimal.D0 d).
Proof.
  induction k as [|k IH]; cbn [repeat string_of_list_ascii String.append Nat.iter].
  - apply NilEmpty.usu.
  - cbn [NilEmpty.uint_of_string]. rewrite IH. reflexivity.
Qed.

Lemma of_uint_zeros (k : nat) (d : Decimal.uint) :
  Nat.of_uint (Nat.iter k Decimal.D0 d) = Nat.of_uint d.
Proof.
  induction k as [|k IH]; [reflexivity|].
  cbn [Nat.iter]. rewrite <- IH. reflexivity.
Qed.

Lemma read_padded (n k : nat) :
  Text.read_nat (Text.padStart k "0" (Js.of_nat n)) = Some n.
Proof.
  unfold Text.read_nat, Text.padStart, Js.of_nat.
  rewrite read_zeros. cbn [option_map]. rewrite of_uint_zeros.
  now rewrite DecimalNat.Unsigned.of_to.
Qed.

Lemma padStart_inj (k a b : nat) :
  Text.padStart k "0" (Js.of_nat a) = Text.padStart k "0" (Js.of_nat b) ->
  a = b.
Proof.
  intros H. apply (f_equal Text.read_nat) in H. rewrite !read_padded in H.
  now injection H.
Qed.

End TextFacts.

(** ** The export utilities *)

Section WordCountStats.
Import FileExport ObserveExport.

Lemma stats_key_inj (a b : Z) : stats_key a = stats_key b -> a = b.
Proof.
  unfold stats_key. intros H. apply TextFacts.append_inv_tail in H.
  now apply TextFacts.of_Z_inj.
Qed.

Lemma obj_get_set_same {V} key (v : V) stats :
  Text.obj_get key (Text.obj_set key v stats) = Some v.
Proof.
  induction stats as [|[k old] rest IH]; cbn.
  - now rewrite String.eqb_refl.
  - destruct (String.eqb key k) eqn:E; cbn; rewrite E; [reflexivity | exact IH].
Qed.

Lemma obj_get_set_other {V} key key' (v : V) stats :
  key' <> key -> Text.obj_get key' (Text.obj_set key v stats) = Text.obj_get key' stats.
Proof.
  intros Hne. induction stats as [|[k old] rest IH]; cbn.
  - destruct (String.eqb_spec key' key); [contradiction | reflexivity].
  - destruct (String.eqb_spec key k) as [->|Hk]; cbn.
    + destruct (String.eqb_spec key' k); [contradiction | reflexivity].
    + destruct (String.eqb key' k); [reflexivity | exact IH].
Qed.

Lemma obj_get_none {V} key (stats : list (string * V)) :
  Text.obj_get key stats = None <-> ~ In key (map fst stats).
Proof.
  induction stats as [|[k v] rest IH]; cbn; [tauto|].
  destruct (String.eqb_spec key k) as [->|Hk].
  - split; [discriminate | intros H; exfalso; apply H; now left].
  - rewrite IH. split; intros H; [intros [E|I]; [congruence | tauto] | tauto].
Qed.

Lemma obj_keys_set_old {V} key (v : V) stats :
  In key (map fst stats) ->
  map fst (Text.obj_set key v stats) = map fst stats.
Proof.
  induction stats as [|[k old] rest IH]; cbn; [tauto|].
  destruct (String.eqb_spec key k) as [->|Hk]; cbn; [reflexivity|].
  intros [E|I]; [congruence | now rewrite IH].
Qed.

Lemma obj_keys_set_new {V} key (v : V) stats :
  ~ In key (map fst stats) ->
  map fst (Text.obj_set key v stats) = map fst stats ++ [key].
Proof.
  induction stats as [|[k old] rest IH]; cbn; [reflexivity|].
  destruct (String.eqb_spec key k) as [->|Hk]; cbn; [tauto|].
  intros H. rewrite IH; tauto.
Qed.

Lemma total_set_old key v old stats :
  Text.obj_get key stats = Some old ->
  total (Text.obj_set key v stats) = (total stats - old + v)%Z.
Proof.
  unfold total.
  induction stats as [|[k o] rest IH]; cbn; [discriminate|].
  destruct (String.eqb_spec key k) as [->|Hk]; cbn.
  - intros [= ->]. lia.
  - intros H. rewrite (IH H). lia.
Qed.

Lemma total_set_new key v stats :
  Text.obj_get key stats = None ->
  total (Text.obj_set key v stats) = (total stats + v)%Z.
Proof.
  unfold total.
  induction stats as [|[k o] rest IH]; cbn; [lia|].
  destruct (String.eqb_spec key k) as [->|Hk]; cbn; [discriminate|].
  intros H. rewrite (IH H). lia.
Qed.

Lemma stats_step results r :
  getWordCountStats (results ++ [r])
  = let stats := getWordCountStats results in
    let key := stats_key (wordCount r) in
    Text.obj_set key (Text.or_number (Text.obj_get key stats) 0 + 1)%Z stats.
Proof. unfold getWordCountStats. now rewrite fold_left_app. Qed.

(** X1.  [getWordCountStats] counts: the entry for a word count is the
    number of results with that word count (and is absent when there is
    none), every key of the object stands for the word count of some
    result, no key occurs twice, and the entries add up to the number of
    results. *)
Theorem word_count_stats_tally (results : list Result) :
  let stats := getWordCountStats results in
  (forall w, Text.obj_get (stats_key w) stats = tally w results)
  /\ (forall key, In key (map fst stats) ->
      exists r, In r results /\ key = stats_key (wordCount r))
  /\ NoDup (map fst stats)
  /\ total stats = Z.of_nat (List.length results).
Proof.
  induction results as [|r results IH] using rev_ind.
  - cbn. repeat split; try constructor. intros key [].
  - rewrite stats_step. cbv zeta.
    destruct IH as (Hlook & Hkeys & Hnd & Htot).
    set (stats := getWordCountStats results) in *.
    set (key := stats_key (wordCount r)).
    assert (Hpos : forall w v, tally w results = Some v -> (0 < v)%Z).
    { intros w v. unfold tally.
      destruct (occurrences w results); [discriminate|].
      intros [= <-]. lia. }
    assert (Hnew : Text.or_number (Text.obj_get key stats) 0
                   = Z.of_nat (occurrences (wordCount r) results)).
    { unfold key. rewrite Hlook. unfold tally.
      destruct (occurrences (wordCount r) results) eqn:E; cbn; [reflexivity|].
      destruct (Z.eqb_spec (Z.pos (Pos.of_succ_nat n)) 0); lia. }
    assert (Hocc : forall w, occurrences w (results ++ [r])
                   = (occurrences w results
                      + (if (wordCount r =? w)%Z then 1 else 0))%nat).
    { intros w. unfold occurrences. rewrite map_app, count_occ_app. cbn.
      destruct (Z.eq_dec (wordCount r) w) as [->|N].
      - now rewrite Z.eqb_refl.
      - destruct (Z.eqb_spec (wordCount r) w); [contradiction | reflexivity]. }
    split; [|split; [|split]].
    + intros w. unfold tally at 1. rewrite Hocc.
      destruct (Z.eqb_spec (wordCount r) w) as [<-|N].
      * fold key. rewrite obj_get_set_same, Hnew.
        destruct (occurrences (wordCount r) results); cbn; f_equal; lia.
      * rewrite obj_get_set_other
          by (intros E; apply stats_key_inj in E; congruence).
        rewrite Hlook, Nat.add_0_r. reflexivity.
    + intros k Hk.
      destruct (in_dec string_dec key (map fst stats)) as [I|I].
      * rewrite obj_keys_set_old in Hk by exact I.
        destruct (Hkeys k Hk) as (r0 & Hr0 & ->).
        exists r0. split; [apply in_or_app; now left | reflexivity].
      * rewrite obj_keys_set_new in Hk by exact I.
        apply in_app_or in Hk as [Hk|[<-|[]]].
        -- destruct (Hkeys k Hk) as (r0 & Hr0 & ->).
           exists r0. split; [apply in_or_app; now left | reflexivity].
        -- exists r. split; [apply in_or_app; right; now left | reflexivity].
    + destruct (in_dec string_dec key (map fst stats)) as [I|I].
      * now rewrite obj_keys_set_old.
      * rewrite obj_keys_set_new by exact I.
        apply NoDup_app; [exact Hnd | repeat constructor; intros [] |].
        intros x Hx [<-|[]]. contradiction.
    + rewrite length_app, Nat.add_comm. cbn [List.length Nat.add].
      destruct (Text.obj_get key stats) as [old|] eqn:L.
      * rewrite (total_set_old _ _ old) by exact L.
        rewrite Htot.
        assert (old <> 0)%Z.
        { unfold key in L. rewrite Hlook in L. apply Hpos in L. lia. }
        cbn [Text.or_number].
        destruct (Z.eqb_spec old 0); lia.
      * rewrite total_set_new by exact L. cbn [Text.or_number]. lia.
Qed.

End WordCountStats.

Section ExportFormats.
Import Flow FileExport.
Variable H : Host.

Lemma format_cases (format : string) :
  let f := Text.toLowerCase format in
  (String.eqb f "json" = true \/ String.eqb f "csv" = true
   \/ String.eqb f "txt" = true)
  \/ (String.eqb f "json" = false /\ String.eqb f "csv" = false
      /\ String.eqb f "txt" = false).
Proof.
  cbv zeta.
  destruct (String.eqb _ "json"), (String.eqb _ "csv"), (String.eqb _ "txt");
    tauto.
Qed.

(** X2.  The formatters and [validateParams] agree on the formats: a
    format that [validateParams] accepts (with any mode) is formatted by
    [formatSingleData] and by [formatBatchData] without an error, and a
    format that one of the formatters refuses is refused by
    [validateParams] with the same error, whatever the mode. *)
Theorem validated_format_is_exportable (format : string) :
  (forall mode,
     validateParams format mode = inr true ->
     forall now result results,
       (exists data, formatSingleData H now result format = inr data)
       /\ (exists data, formatBatchData H now results format = inr data))
  /\
  (forall now result e mode,
     formatSingleData H now result format = inl e ->
     validateParams format mode = inl e)
  /\
  (forall now results e mode,
     formatBatchData H now results format = inl e ->
     validateParams format mode = inl e).
Proof.
  unfold validateParams, formatSingleData, formatBatchData, supportedFormats.
  cbn [existsb].
  destruct (format_cases format) as [[J|[C|T]]|(J & C & T)];
    cbv zeta in *.
  - rewrite J. repeat split; intros; try discriminate; eauto.
  - rewrite C.
    destruct (String.eqb _ "json"); repeat split; intros; try discriminate;
      eauto.
  - rewrite T.
    destruct (String.eqb _ "json"), (String.eqb _ "csv");
      repeat split; intros; try discriminate; eauto.
  - rewrite J, C, T. cbn [orb negb].
    repeat split; intros; try discriminate; congruence.
Qed.

(** The loop that hands the collected files to the browser. *)
Lemma save_all (files : list (string * string)) : forall i s s',
  for_from i files (fun _ file => saveFile H (snd file) (fst file)) s
  = (Ret tt, s') ->
  s' = s ++ files.
Proof.
  induction files as [|[name data] rest IH]; intros i s s'.
  - cbn. intros [= <-]. now rewrite app_nil_r.
  - cbn [for_from]. unfold bind at 1, iteration, saveFile, try_catch,
      bind, lift, modify, throw, ret. cbn [fst snd].
    destruct (download H name data) as [e|[]]; [discriminate|].
    intros Hrest. apply IH in Hrest. now rewrite <- app_assoc in Hrest.
Qed.

Lemma save_all_outcome (files : list (string * string)) : forall i s s' o,
  for_from i files (fun _ file => saveFile H (snd file) (fst file)) s
  = (o, s') ->
  exists done, s' = s ++ done /\ (List.length done <= List.length files)%nat.
Proof.
  induction files as [|[name data] rest IH]; intros i s s' o.
  - cbn. intros [= <- <-]. exists []. now rewrite app_nil_r.
  - cbn [for_from]. unfold bind at 1, iteration, saveFile, try_catch,
      bind, lift, modify, throw, ret. cbn [fst snd].
    destruct (download H name data) as [e|[]].
    + intros [= <- <-]. exists []. rewrite app_nil_r. split; [reflexivity|].
      cbn. lia.
    + intros Hrest. apply IH in Hrest as (done & -> & Hlen).
      exists ((name, data) :: done). rewrite <- app_assoc.
      split; [reflexivity | cbn; lia].
Qed.

Lemma collect_names now prefix format results : forall i files,
  collect H now prefix format i results = inr files ->
  map fst files = map (numbered prefix format) (seq i (List.length results))
  /\ Forall2 (fun r file => exists t, formatSingleData H t r format
                                      = inr (snd file)) results files.
Proof.
  induction results as [|r rest IH]; intros i files; cbn.
  - intros [= <-]. split; constructor.
  - destruct (formatSingleData H (now i) r format) as [e|data] eqn:F;
      [discriminate|].
    destruct (collect H now prefix format (S i) rest) as [e|tail] eqn:C;
      [discriminate|].
    intros [= <-]. destruct (IH _ _ C) as (Hn & Hf). cbn. split.
    + now rewrite Hn.
    + constructor; [exists (now i); exact F | exact Hf].
Qed.

Lemma collect_refuses now prefix format results i e :
  results <> [] ->
  (forall t r, formatSingleData H t r format = inl e) ->
  collect H now prefix format i results = inl e.
Proof.
  intros Hne Hbad. destruct results as [|r rest]; [contradiction|].
  cbn. now rewrite Hbad.
Qed.

Lemma unsupported_refused (format : string) :
  existsb (String.eqb (Text.toLowerCase format)) supportedFormats = false ->
  forall t r, formatSingleData H t r format = inl (unsupported_format format).
Proof.
  unfold supportedFormats, formatSingleData. cbn [existsb].
  intros Hno t r.
  destruct (String.eqb _ "json"), (String.eqb _ "csv"), (String.eqb _ "txt");
    try discriminate.
  reflexivity.
Qed.

Lemma numbered_inj prefix format i j :
  numbered prefix format i = numbered prefix format j -> i = j.
Proof.
  unfold numbered. intros E.
  apply TextFacts.append_inv_head in E.
  rewrite <- !TextFacts.append_assoc in E.
  apply TextFacts.append_inv_tail in E.
  apply TextFacts.append_inv_tail in E.
  apply TextFacts.padStart_inj in E. lia.
Qed.

Lemma NoDup_map_inj {A B} (f : A -> B) (l : list A) :
  (forall a b, f a = f b -> a = b) -> NoDup l -> NoDup (map f l).
Proof.
  intros Hinj Hnd. induction Hnd as [|x l Hx Hnd IH]; cbn; constructor.
  - intros Hin. apply in_map_iff in Hin as (y & E & Hy).
    apply Hinj in E. now subst y.
  - exact IH.
Qed.

Lemma numbered_NoDup prefix format n i :
  NoDup (map (numbered prefix format) (seq i n)).
Proof.
  apply NoDup_map_inj; [|apply seq_NoDup].
  intros a b. apply numbered_inj.
Qed.

(** X3.  When [exportBatchMultiple] returns, it has handed the browser
    exactly one file per result, in the order of the results, under the
    names prefix + three-digit number + "." + format; these names are
    pairwise distinct, so no file of a batch replaces another, and each
    file holds [formatSingleData] of its result.  With at least one result
    and a format that the formatter refuses, the export fails before any
    file is handed over. *)
Theorem export_multiple_files (now : nat -> Z) (results : list Result)
  (format prefix : string) (s : Saved) :
  (forall report s',
     exportBatchMultiple H now results format prefix s = (Ret report, s') ->
     exists saved,
       s' = s ++ saved
       /\ map fst saved
          = map (numbered prefix format) (seq 0 (List.length results))
       /\ NoDup (map fst saved)
       /\ Forall2 (fun r file => exists t, formatSingleData H t r format
                                           = inr (snd file)) results saved
       /\ files report = map fst saved
       /\ count report = List.length results)
  /\
  (results <> [] ->
   existsb (String.eqb (Text.toLowerCase format)) supportedFormats = false ->
   exportBatchMultiple H now results format prefix s
   = (Throw (Js.new_Error
               ("导出失败: " +++ Js.message (unsupported_format format))), s)).
Proof.
  split.
  - intros report s'. unfold exportBatchMultiple, try_catch, bind, for_each.
    destruct (collect H now prefix format 0 results) as [e|saved] eqn:C;
      [cbn; discriminate|].
    cbn [lift ret].
    destruct (for_from 0 saved _ s) as [[[]| |] s1] eqn:L;
      try (cbn; discriminate).
    unfold ret. intros [= <- <-].
    apply save_all in L. destruct (collect_names _ _ _ _ _ _ C) as (Hn & Hf).
    exists saved. cbn [files count].
    repeat split; try assumption.
    + rewrite Hn. apply numbered_NoDup.
    + now rewrite <- (length_map fst), Hn, length_map, length_seq.
  - intros Hne Hbad. unfold exportBatchMultiple, try_catch, bind.
    rewrite (collect_refuses now prefix format results 0 _ Hne
               (unsupported_refused format Hbad)).
    reflexivity.
Qed.

End ExportFormats.

Section ExportWitnesses.
Import Flow FileExport.

Lemma validated_format_is_exportable_witness :
  validateParams "CSV" "Archive" = inr true
  /\ (exists data,
        formatSingleData Fixtures.host 0 (Fixtures.result 1 "QUJDRA==" Demo.alice)
          "CSV" = inr data)
  /\ (exists data,
        formatBatchData Fixtures.host 0 Fixtures.results "CSV" = inr data)
  /\ formatSingleData Fixtures.host 0 (Fixtures.result 1 "QUJDRA==" Demo.alice)
       "xml" = inl (unsupported_format "xml")
  /\ validateParams "xml" "single" = inl (unsupported_format "xml").
Proof.
  destruct (validated_format_is_exportable Fixtures.host "CSV") as (Hok & _).
  destruct (validated_format_is_exportable Fixtures.host "xml")
    as (_ & Hbad & _).
  assert (V : validateParams "CSV" "Archive" = inr true) by reflexivity.
  assert (F : formatSingleData Fixtures.host 0
                (Fixtures.result 1 "QUJDRA==" Demo.alice) "xml"
              = inl (unsupported_format "xml")) by reflexivity.
  destruct (Hok "Archive"%string V 0%Z
              (Fixtures.result 1 "QUJDRA==" Demo.alice) Fixtures.results)
    as (S1 & S2).
  exact (conj V (conj S1 (conj S2 (conj F (Hbad _ _ _ "single"%string F))))).
Defined.

Lemma export_multiple_files_witness :
  (exists report s' saved,
     exportBatchMultiple Fixtures.host (fun _ => 0%Z) Fixtures.results "csv"
       "mnemonic_" [] = (Ret report, s')
     /\ s' = [] ++ saved
     /\ map fst saved = ["mnemonic_001.csv"; "mnemonic_002.csv"]%string
     /\ NoDup (map fst saved))
  /\ exportBatchMultiple Fixtures.host (fun _ => 0%Z) Fixtures.results "xml"
       "mnemonic_" []
     = (Throw (Js.new_Error "导出失败: 不支持的格式: xml"), []).
Proof.
  destruct (export_multiple_files Fixtures.host (fun _ => 0%Z)
              Fixtures.results "csv" "mnemonic_" []) as (Hok & _).
  destruct (export_multiple_files Fixtures.host (fun _ => 0%Z)
              Fixtures.results "xml" "mnemonic_" []) as (_ & Hbad).
  split.
  - assert (R : exists report s',
               exportBatchMultiple Fixtures.host (fun _ => 0%Z)
                 Fixtures.results "csv" "mnemonic_" [] = (Ret report, s')).
    { eexists; eexists. vm_compute. reflexivity. }
    destruct R as (report & s' & R).
    destruct (Hok report s' R) as (saved & Hs & Hn & Hd & _).
    exact (ex_intro _ report (ex_intro _ s' (ex_intro _ saved
             (conj R (conj Hs (conj Hn Hd)))))).
  - apply Hbad; [discriminate | reflexivity].
Defined.

End ExportWitnesses.

(** ** The CSV reader *)

Section CsvScan.
Import Csv ObserveCsv.

Lemma scan_plain_run (l rest : list ascii) : forall st,
  forallb plain l = true ->
  scan (l ++ rest) st
  = scan rest (mkScan (rows st) (row st) (current st ++ l) (inQuotes st)).
Proof.
  induction l as [|c l IH]; intros st Hl.
  - cbn. rewrite app_nil_r. now destruct st.
  - cbn in Hl. apply andb_true_iff in Hl as [Hc Hl].
    unfold plain in Hc.
    apply andb_true_iff in Hc as [Hc Hcr].
    apply andb_true_iff in Hc as [Hc Hlf].
    apply andb_true_iff in Hc as [Hq Hcomma].
    apply negb_true_iff in Hq, Hcomma, Hlf, Hcr.
    cbn [app scan]. rewrite Hq, Hcomma, Hlf, Hcr. cbn [orb andb].
    rewrite IH by exact Hl. cbn. now rewrite <- app_assoc.
Qed.

Lemma scan_quoted_run (l rest : list ascii) : forall st,
  inQuotes st = true ->
  forallb (fun c => negb (Ascii.eqb c Text.dquote)) l = true ->
  scan (l ++ rest) st
  = scan rest (mkScan (rows st) (row st) (current st ++ l) true).
Proof.
  induction l as [|c l IH]; intros st Hq Hl.
  - cbn. rewrite app_nil_r. destruct st. cbn in Hq. now subst.
  - cbn in Hl. apply andb_true_iff in Hl as [Hc Hl].
    apply negb_true_iff in Hc.
    cbn [app scan]. rewrite Hc, Hq. cbn [negb andb].
    rewrite !andb_false_r.
    rewrite IH by (cbn; assumption). cbn. now rewrite <- app_assoc.
Qed.

Lemma scan_open (rest : list ascii) st :
  inQuotes st = false ->
  scan (Text.dquote :: rest) st = scan rest (toggle st).
Proof.
  intros Hq. cbn [scan]. rewrite Ascii.eqb_refl, Hq. cbn [andb].
  now destruct rest.
Qed.

Lemma scan_close (rest : list ascii) st :
  inQuotes st = true -> not_quote_next rest ->
  scan (Text.dquote :: rest) st = scan rest (toggle st).
Proof.
  intros Hq Hn. cbn [scan]. rewrite Ascii.eqb_refl, Hq.
  destruct rest as [|c rest]; [reflexivity|].
  cbn in Hn. rewrite Hn. reflexivity.
Qed.

Lemma scan_comma (rest : list ascii) st :
  inQuotes st = false ->
  scan (","%char :: rest) st = scan rest (end_cell st).
Proof. intros Hq. cbn [scan]. rewrite Hq. reflexivity. Qed.

Lemma scan_LF (rest : list ascii) st :
  inQuotes st = false ->
  scan (Text.LF :: rest) st = scan rest (end_row st).
Proof. intros Hq. cbn [scan]. rewrite Hq. cbn. now destruct rest. Qed.

(** A quoted cell without a quote inside. *)
Lemma scan_quoted_cell (l rest : list ascii) R cells cur :
  forallb (fun c => negb (Ascii.eqb c Text.dquote)) l = true ->
  not_quote_next rest ->
  scan (Text.dquote :: l ++ Text.dquote :: rest) (mkScan R cells cur false)
  = scan rest (mkScan R cells (cur ++ l) false).
Proof.
  intros Hl Hn.
  rewrite scan_open by reflexivity.
  rewrite scan_quoted_run by (cbn; auto).
  rewrite scan_close by (cbn; auto).
  reflexivity.
Qed.

Lemma digits_plain (d : Decimal.uint) :
  forallb plain (list_ascii_of_string (NilEmpty.string_of_uint d)) = true.
Proof. induction d; cbn; auto. Qed.

Lemma of_Z_plain (z : Z) :
  forallb plain (list_ascii_of_string (Js.of_Z z)) = true.
Proof.
  unfold Js.of_Z. destruct (Z.to_int z); cbn; apply digits_plain.
Qed.

Lemma strip_quotes_clean (s : string) :
  no_quote s = true -> Text.strip_quotes s = s.
Proof.
  unfold no_quote, Text.strip_quotes, Text.strip_quotes_list. intros H.
  rewrite <- (string_of_list_ascii_of_string s) at 2. f_equal.
  set (l := list_ascii_of_string s) in *.
  assert (Hall : forall c, In c l -> Ascii.eqb c Text.dquote = false).
  { intros c Hc. rewrite forallb_forall in H.
    now apply negb_true_iff, H. }
  assert (E : match l with
              | c :: r => if Ascii.eqb c Text.dquote then r else l
              | [] => []
              end = l).
  { destruct l as [|c r]; [reflexivity|].
    rewrite (Hall c) by now left. reflexivity. }
  rewrite E.
  destruct (rev l) as [|c r] eqn:R.
  - apply (f_equal (@rev ascii)) in R. rewrite rev_involutive in R.
    now rewrite R.
  - rewrite (Hall c); [reflexivity|].
    apply in_rev. rewrite R. now left.
Qed.

Lemma tidy_spec (s : string) : tidy s = true -> Js.trim s = s.
Proof. unfold tidy. apply String.eqb_eq. Qed.

Section Rows.
Variable H : FileExport.Host.

Lemma exportable_spec (r : FileExport.Result) :
  exportable H r = true ->
  no_quote (FileExport.encryptedData r) = true
  /\ no_quote (Text.or_string (FileExport.address r) "") = true
  /\ no_quote (FileExport.dateLocale H (FileExport.createdAt r)) = true
  /\ no_quote (Text.or_string (FileExport.algorithm r) "AES-256-CTR") = true
  /\ Js.trim (FileExport.encryptedData r) = FileExport.encryptedData r
  /\ Js.trim (Text.or_string (FileExport.address r) "")
     = Text.or_string (FileExport.address r) ""
  /\ Js.is_empty (FileExport.encryptedData r) = false.
Proof.
  unfold exportable. rewrite !andb_true_iff, negb_true_iff.
  intros ((((((A & B) & C) & D) & E) & F) & G).
  repeat split; auto using tidy_spec.
Qed.

(** The line of one result, read from the start of a row. *)
Lemma scan_csv_row (tag : string) (i : nat) (r : FileExport.Result)
  (rest : list ascii) (R : list (list string)) :
  exportable H r = true ->
  no_quote tag = true ->
  not_quote_next rest ->
  scan (list_ascii_of_string
          (FileExport.csv_row H (Z.of_nat i + 1) r tag) ++ rest)
    (mkScan R [] [] false)
  = scan rest
      (mkScan R (removelast (cells_of H tag i r))
         (list_ascii_of_string tag) false).
Proof.
  intros Hr Ht Hn.
  destruct (exportable_spec r Hr) as (Qe & Qa & Qd & Qg & _).
  unfold FileExport.csv_row, FileExport.q, Text.char.
  rewrite !TextFacts.list_of_append. cbn [list_ascii_of_string].
  rewrite <- !app_assoc. cbn [app].
  rewrite scan_plain_run by apply of_Z_plain.
  rewrite scan_comma by reflexivity.
  unfold end_cell. cbn [rows row current inQuotes app].
  rewrite scan_quoted_cell by (cbn; auto).
  rewrite scan_comma by reflexivity.
  unfold end_cell. cbn [rows row current inQuotes app].
  rewrite scan_quoted_cell by (cbn; auto).
  rewrite scan_comma by reflexivity.
  unfold end_cell. cbn [rows row current inQuotes app].
  rewrite scan_quoted_cell by (cbn; auto).
  rewrite scan_comma by reflexivity.
  unfold end_cell. cbn [rows row current inQuotes app].
  rewrite scan_plain_run by apply of_Z_plain.
  rewrite scan_comma by reflexivity.
  unfold end_cell. cbn [rows row current inQuotes app].
  rewrite scan_quoted_cell by (cbn; auto).
  rewrite scan_comma by reflexivity.
  unfold end_cell. cbn [rows row current inQuotes app].
  rewrite scan_quoted_cell by (cbn; auto).
  cbn [app cells_of removelast].
  rewrite !string_of_list_ascii_of_string. reflexivity.
Qed.

Lemma row_has_content (tag : string) (i : nat) (r : FileExport.Result) :
  exportable H r = true -> hasContent (cells_of H tag i r) = true.
Proof.
  intros Hr. destruct (exportable_spec r Hr) as (_ & _ & _ & _ & T & _ & N).
  unfold hasContent, cells_of. cbn [existsb]. unfold filled at 2.
  rewrite T, N. cbn. apply orb_true_r.
Qed.

(** The lines of the results, joined by line breaks, read from the start
    of a row. *)
Lemma scan_csv_rows (tag : string) (results : list FileExport.Result) :
  forall i R,
    Js.is_empty tag = false ->
    no_quote tag = true ->
    Forall (fun r => exportable H r = true) results ->
    finish (scan (list_ascii_of_string
                    (Text.join FileExport.nl
                       (Text.mapi_from i
                          (fun index r =>
                             FileExport.csv_row H (Z.of_nat index + 1) r tag)
                          results)))
              (mkScan R [] [] false))
    = R ++ Text.mapi_from i (cells_of H tag) results.
Proof.
  induction results as [|r rest IH]; intros i R Hne Ht Hall.
  - cbn. now rewrite app_nil_r.
  - apply Forall_cons_iff in Hall as [Hr Hall].
    cbn [Text.mapi_from]. unfold Text.join. cbn [String.concat].
    destruct rest as [|r2 rest].
    + cbn [Text.mapi_from].
      rewrite <- (app_nil_r (list_ascii_of_string _)).
      rewrite scan_csv_row by (cbn; auto). cbn [scan].
      unfold finish. cbn [current row].
      destruct (list_ascii_of_string tag) as [|c l] eqn:E.
      { destruct tag; [discriminate Hne | discriminate E]. }
      rewrite <- E. unfold end_row. cbn [rows row current].
      rewrite string_of_list_ascii_of_string.
      change (removelast (cells_of H tag i r) ++ [tag])
        with (cells_of H tag i r).
      now rewrite row_has_content.
    + set (more := Text.mapi_from (S i) _ (r2 :: rest)) in *.
      change (match more with
              | [] => FileExport.csv_row H (Z.of_nat i + 1) r tag
              | _ :: _ =>
                  FileExport.csv_row H (Z.of_nat i + 1) r tag
                  +++ FileExport.nl +++ String.concat FileExport.nl more
              end)
        with (FileExport.csv_row H (Z.of_nat i + 1) r tag
              +++ FileExport.nl +++ String.concat FileExport.nl more).
      rewrite !TextFacts.list_of_append.
      rewrite scan_csv_row by (cbn; auto).
      change (list_ascii_of_string FileExport.nl) with [Text.LF].
      cbn [app].
      rewrite scan_LF by reflexivity.
      unfold end_row. cbn [rows row current inQuotes].
      rewrite string_of_list_ascii_of_string.
      change (removelast (cells_of H tag i r) ++ [tag])
        with (cells_of H tag i r).
      rewrite row_has_content by exact Hr.
      subst more. unfold Text.join in IH.
      rewrite (IH (S i) (R ++ [cells_of H tag i r]) Hne Ht Hall).
      now rewrite <- app_assoc.
Qed.

Lemma scan_csv_header (rest : list ascii) :
  scan (list_ascii_of_string FileExport.csv_header ++ rest) start
  = scan rest (mkScan [header_cells] [] [] false).
Proof.
  unfold FileExport.csv_header, FileExport.nl, Text.char.
  rewrite TextFacts.list_of_append, <- app_assoc.
  change (list_ascii_of_string "ID,加密数据,EVM地址,创建时间,词数,算法,备注"
          ++ list_ascii_of_string (String Text.LF "") ++ rest)
    with (list_ascii_of_string "ID"
          ++ ","%char :: list_ascii_of_string "加密数据"
          ++ ","%char :: list_ascii_of_string "EVM地址"
          ++ ","%char :: list_ascii_of_string "创建时间"
          ++ ","%char :: list_ascii_of_string "词数"
          ++ ","%char :: list_ascii_of_string "算法"
          ++ ","%char :: list_ascii_of_string "备注"
          ++ Text.LF :: rest).
  rewrite (scan_plain_run (list_ascii_of_string "ID")) by reflexivity.
  rewrite scan_comma by reflexivity.
  rewrite (scan_plain_run (list_ascii_of_string "加密数据")) by reflexivity.
  rewrite scan_comma by reflexivity.
  rewrite (scan_plain_run (list_ascii_of_string "EVM地址")) by reflexivity.
  rewrite scan_comma by reflexivity.
  rewrite (scan_plain_run (list_ascii_of_string "创建时间")) by reflexivity.
  rewrite scan_comma by reflexivity.
  rewrite (scan_plain_run (list_ascii_of_string "词数")) by reflexivity.
  rewrite scan_comma by reflexivity.
  rewrite (scan_plain_run (list_ascii_of_string "算法")) by reflexivity.
  rewrite scan_comma by reflexivity.
  rewrite (scan_plain_run (list_ascii_of_string "备注")) by reflexivity.
  rewrite scan_LF by reflexivity.
  reflexivity.
Qed.

Lemma read_exported_rows (tag : string) (results : list FileExport.Result) :
  forall i,
    Forall (fun r => exportable H r = true) results ->
    read_rows 1 2 (-1) i (Text.mapi_from i (cells_of H tag) results)
    = Text.mapi_from i item_of results.
Proof.
  induction results as [|r rest IH]; intros i Hall; [reflexivity|].
  apply Forall_cons_iff in Hall as [Hr Hall].
  destruct (exportable_spec r Hr) as (Qe & Qa & _ & _ & Te & Ta & Ne).
  cbn [Text.mapi_from read_rows]. rewrite (IH (S i) Hall).
  unfold cell_at, cells_of. cbn [Z.ltb Z.leb Z.compare Z.to_nat].
  change (Pos.to_nat 1) with 1%nat. change (Pos.to_nat 2) with 2%nat.
  cbn [nth_error]. unfold unquote.
  assert (O1 : Text.or_string (Some (FileExport.encryptedData r)) ""
               = FileExport.encryptedData r).
  { cbn. now destruct (FileExport.encryptedData r). }
  assert (O2 : Text.or_string
                 (Some (Text.or_string (FileExport.address r) "")) ""
               = Text.or_string (FileExport.address r) "").
  { cbn. now destruct (Text.or_string (FileExport.address r) ""). }
  rewrite O1, O2, Te, Ta.
  rewrite (strip_quotes_clean _ Qe), (strip_quotes_clean _ Qa), Ne.
  reflexivity.
Qed.

End Rows.

End CsvScan.

Section CsvRoundTrip.
Import Csv ObserveCsv.
Variable H : FileExport.Host.

Lemma parse_exported_csv (results : list FileExport.Result) :
  Forall (fun r => exportable H r = true) results ->
  parseCsv (FileExport.csv_header
            +++ Text.join FileExport.nl
                  (Text.mapi
                     (fun index r =>
                        FileExport.csv_row H (Z.of_nat index + 1) r "批量生成")
                     results))
  = header_cells :: Text.mapi (cells_of H "批量生成") results.
Proof.
  intros Hall. unfold parseCsv, Text.mapi.
  rewrite TextFacts.list_of_append, scan_csv_header.
  now rewrite (scan_csv_rows H "批量生成" results 0 [header_cells]).
Qed.

Lemma read_with_export_header (text : string) (data : list (list string)) :
  parseCsv text = header_cells :: data ->
  parseEncryptedCsv text
  = let items := read_rows 1 2 (-1) 0 data in
    mkParsed items
      (match items with
       | [] => ["未能从CSV解析出加密数据"%string]
       | _ => []
       end).
Proof.
  intros E. unfold parseEncryptedCsv. rewrite E.
  let m := eval vm_compute in (detectHeaderMap header_cells) in
  change (detectHeaderMap header_cells) with m.
  reflexivity.
Qed.

(** X4.  What [formatBatchData] writes as CSV, [parseEncryptedCsv] reads
    back: for results whose quoted columns hold no double quote and whose
    encrypted data is not empty and, like the address, has no white space
    around it, the header line is recognised, every result yields one
    item, in order, numbered from 1, with the encrypted data and the
    address of the result and no private key, and no warning is given
    unless there is no result at all. *)
Theorem csv_export_import_round_trip (now : Z)
  (results : list FileExport.Result) :
  Forall (fun r => exportable H r = true) results ->
  exists text,
    FileExport.formatBatchData H now results "csv" = inr text
    /\ parseCsv text
       = header_cells :: Text.mapi (cells_of H "批量生成") results
    /\ parseEncryptedCsv text
       = mkParsed (Text.mapi item_of results)
           (match results with
            | [] => ["未能从CSV解析出加密数据"%string]
            | _ => []
            end).
Proof.
  intros Hall. eexists. split; [reflexivity|].
  pose proof (parse_exported_csv results Hall) as P.
  split; [exact P|].
  rewrite (read_with_export_header _ _ P). cbv zeta.
  unfold Text.mapi.
  rewrite (read_exported_rows H "批量生成" results 0 Hall).
  destruct results; reflexivity.
Qed.

End CsvRoundTrip.

Section CsvInvariants.
Import Csv ObserveCsv.

Lemma kept_end_row st : kept st -> kept (end_row st).
Proof.
  unfold kept, end_row. cbn [rows]. intros K.
  destruct (hasContent _) eqn:C; [|exact K].
  apply Forall_app. split; [exact K | now constructor].
Qed.

Lemma scan_keeps (n : nat) : forall text st,
  (List.length text <= n)%nat -> kept st -> kept (scan text st).
Proof.
  induction n as [|n IH]; intros text st Hlen K.
  - destruct text; [exact K | cbn in Hlen; lia].
  - destruct text as [|char rest]; [exact K|].
    cbn in Hlen. cbn [scan].
    assert (Hrest : (List.length rest <= n)%nat) by lia.
    assert (Hnext : forall c r, rest = c :: r -> (List.length r <= n)%nat).
    { intros c r ->. cbn in Hrest. lia. }
    repeat match goal with
      | |- kept (if ?b then _ else _) => destruct b
      | |- kept (match ?l with [] => _ | _ :: _ => _ end) =>
          destruct l eqn:?
      end;
      (apply IH;
       [ first [ lia | eapply Hnext; eassumption | cbn in *; lia ]
       | first [ exact K | now apply kept_end_row ] ]).
Qed.

(** X5.  [parseCsv] returns no blank row: every row it returns has a
    cell that is not empty after trimming (and so has at least one cell),
    whatever the text. *)
Theorem parseCsv_rows_have_content (text : string) :
  Forall (fun cells => hasContent cells = true /\ cells <> [])
    (parseCsv text).
Proof.
  assert (K : kept (scan (list_ascii_of_string text) start)).
  { apply (scan_keeps (List.length (list_ascii_of_string text)));
      [lia | constructor]. }
  assert (K' : Forall (fun cells => hasContent cells = true)
                 (parseCsv text)).
  { unfold parseCsv, finish.
    set (st := scan (list_ascii_of_string text) start) in *.
    destruct (current st), (row st); try exact K;
      now apply kept_end_row. }
  eapply Forall_impl; [|exact K'].
  intros cells C. split; [exact C|]. intros ->. discriminate C.
Qed.

Lemma read_rows_items e a p : forall data k,
  let items := read_rows e a p k data in
  Forall (fun it => Js.is_empty (encryptedData it)
                    && Js.is_empty (privateKey it) = false) items
  /\ ascending (Z.of_nat k + 1) (map id items)
  /\ (List.length items <= List.length data)%nat.
Proof.
  induction data as [|cells rest IH]; intros k; cbn [read_rows].
  - cbn. split; [constructor | split; [exact I | lia]].
  - destruct (IH (S k)) as (F & A & L). cbv zeta.
    assert (A' : forall low, (low <= Z.of_nat (S k) + 1)%Z ->
                 ascending low
                   (map id (read_rows e a p (S k) rest))).
    { intros low Hlow. revert A.
      destruct (read_rows e a p (S k) rest) as [|it its]; cbn; [auto|].
      intros [A1 A2]. split; [lia | exact A2]. }
    match goal with
    | |- context [if ?b then _ else _] => destruct b eqn:B
    end.
    + split; [exact F | split; [apply A'; lia | cbn; lia]].
    + split; [|split].
      * constructor; [exact B | exact F].
      * cbn [map id ascending]. split; [lia | apply A'; lia].
      * cbn. lia.
Qed.

(** X6.  Every item that [parseEncryptedCsv] returns holds encrypted
    data or a private key; the items are numbered by their row, so the
    identifiers are positive and strictly increasing; and a warning is
    given exactly when no item was read. *)
Theorem parseEncryptedCsv_items (text : string) :
  let parsed := parseEncryptedCsv text in
  Forall (fun it => Js.is_empty (encryptedData it)
                    && Js.is_empty (privateKey it) = false)
    (items parsed)
  /\ ascending 1 (map id (items parsed))
  /\ (items parsed = [] <-> warnings parsed <> []).
Proof.
  unfold parseEncryptedCsv.
  destruct (parseCsv text) as [|header rest] eqn:P.
  - cbn. split; [constructor | split; [exact I|]].
    split; intros; [discriminate | reflexivity].
  - cbv zeta.
    match goal with
    | |- context [read_rows ?e ?a ?p 0 ?data] =>
        destruct (read_rows_items e a p data 0) as (F & A & _);
        cbv zeta in F, A;
        destruct (read_rows e a p 0 data) as [|it its] eqn:R
    end; cbn [items warnings].
    + split; [constructor | split; [exact I|]].
      split; intros; [discriminate | reflexivity].
    + split; [exact F | split; [exact A|]].
      split; intros; [discriminate | contradiction].
Qed.

End CsvInvariants.

Section CsvWitnesses.
Import Csv ObserveCsv.

Lemma csv_export_import_round_trip_witness :
  exists text,
    FileExport.formatBatchData Fixtures.host 0 Fixtures.results "csv"
    = inr text
    /\ map encryptedData (items (parseEncryptedCsv text))
       = ["QUJDRA=="; "RUZHSA=="]%string
    /\ map address (items (parseEncryptedCsv text)) = [Demo.alice; Demo.bob]
    /\ map id (items (parseEncryptedCsv text)) = [1; 2]%Z
    /\ warnings (parseEncryptedCsv text) = [].
Proof.
  assert (Hall : Forall (fun r => exportable Fixtures.host r = true)
                   Fixtures.results).
  { repeat constructor. }
  destruct (csv_export_import_round_trip Fixtures.host 0 Fixtures.results Hall)
    as (text & Ht & _ & Hp).
  exists text. split; [exact Ht|]. rewrite Hp. repeat split.
Defined.

End CsvWitnesses.

(** ** The envelope of the CTR module, seen from outside *)

Section EnvelopeChecks.
Import Flow Crypto EnvelopeCheck.
Variable B : Bip39.Lib.
Variable L : NodeLib.

Lemma empty_invalid :
  Bip39.validateMnemonic B "" <> inr true ->
  CryptoUtils.validateMnemonic B "" = false.
Proof.
  unfold CryptoUtils.validateMnemonic.
  destruct (Bip39.validateMnemonic B "") as [e|[|]]; congruence.
Qed.

Lemma length_32 {A} (data : list A) :
  List.length data = 32%nat -> skipn 32 data = [].
Proof. intros E. apply skipn_all2. lia. Qed.

(** X7.  [validateEncryptedData] is a sound pre-check for
    [decryptMnemonic]: an input that it declares invalid is never
    decrypted, whatever the password.  It is assumed that bip39 rejects the
    empty string and that an empty [Buffer] reads as the empty string. *)
Theorem invalid_envelope_never_decrypts (e p error : string) (s : State) :
  Bip39.validateMnemonic B "" <> inr true ->
  utf8_toString L [] = ""%string ->
  validateEncryptedData e = invalid error ->
  exists err, fst (CryptoUtils.decryptMnemonic B L e p s) = Throw err.
Proof.
  intros Hempty Hutf Hv. unfold validateEncryptedData in Hv.
  unfold CryptoUtils.decryptMnemonic, try_catch, bind,
    CryptoUtils.deriveKey, record, modify, bind, lift, throw, ret.
  destruct (Js.is_empty e); cbn [orb]; [cbn; eauto|].
  destruct (Js.is_empty p); [cbn; eauto|].
  destruct (List.length (Base64.decode e) <? 33)%nat eqn:E33;
    [|discriminate Hv].
  destruct (List.length (Base64.decode e) <? 32)%nat eqn:E32;
    [cbn; eauto|].
  apply Nat.ltb_lt in E33. apply Nat.ltb_ge in E32.
  assert (E : List.length (Base64.decode e) = 32%nat) by lia.
  rewrite (length_32 _ E).
  destruct (pbkdf2 L _ _ _ _ _); [cbn; eauto|].
  destruct (AesCtr.createCipheriv _ _); [cbn; eauto|].
  cbn [fst snd]. unfold AesCtr.update_final. cbn [Bytes.xor_with].
  rewrite Hutf, (empty_invalid Hempty). cbn. eauto.
Qed.

(** What [encryptMnemonic] does when it returns. *)
Lemma encrypt_returns (m p e : string) (s s' : State) :
  CryptoUtils.encryptMnemonic B L m p s = (Ret e, s') ->
  let salt := map (rng s) (seq 0 16) in
  let iv := map (fun i => rng s (16 + i)%nat) (seq 0 16) in
  exists key,
    pbkdf2 L p salt CryptoUtils.iterations 32 "sha256" = inr key
    /\ e = Base64.encode
             (salt ++ iv
              ++ AesCtr.update_final (aes256 L) (AesCtr.mkCipher key iv)
                   (utf8_write L m))
    /\ s' = mkState (fun i => rng s (16 + (16 + i))%nat)
              (ops s ++ [OpRandomBytes 16; OpRandomBytes 16;
                         OpPbkdf2 p salt; OpCreateCipheriv])
    /\ Js.is_empty m = false
    /\ Js.is_empty p = false
    /\ CryptoUtils.validateMnemonic B m = true.
Proof.
  unfold CryptoUtils.encryptMnemonic, try_catch, bind,
    CryptoUtils.deriveKey, randomBytes, record, modify, bind, lift, throw,
    ret.
  destruct (Js.is_empty m) eqn:Em; [discriminate|].
  destruct (Js.is_empty p) eqn:Ep; [discriminate|].
  destruct (CryptoUtils.validateMnemonic B m) eqn:V; [|discriminate].
  cbn [orb negb fst snd rng ops].
  destruct (pbkdf2 L _ _ _ _ _) as [err|key] eqn:K; [discriminate|].
  unfold AesCtr.createCipheriv.
  destruct (negb (List.length key =? 32)%nat); [discriminate|].
  destruct (negb (List.length _ =? 16)%nat); [discriminate|].
  intros [= <- <-]. exists key. rewrite <- !app_assoc. cbn [app].
  repeat split; assumption.
Qed.

(** X8.  An envelope that [encryptMnemonic] returns passes
    [validateEncryptedData], which reports 16 bytes of salt, 16 of IV and
    as many encrypted bytes as the phrase has in UTF-8 (counter mode adds
    no padding).  It is assumed that a non-empty string has at least one
    byte in UTF-8. *)
Theorem encrypted_envelope_validates (m p e : string) (s s' : State) :
  (forall x, Js.is_empty x = false -> utf8_write L x <> []) ->
  CryptoUtils.encryptMnemonic B L m p s = (Ret e, s') ->
  validateEncryptedData e
  = valid (32 + List.length (utf8_write L m)) 16 16
      (List.length (utf8_write L m)) "AES-256-CTR/PBKDF2-SHA256".
Proof.
  intros Hutf Hrun.
  destruct (encrypt_returns _ _ _ _ _ Hrun)
    as (key & _ & -> & _ & Hm & _ & _).
  unfold validateEncryptedData.
  rewrite Base64Facts.encode_not_empty by discriminate.
  rewrite Base64Facts.decode_encode.
  rewrite !length_app, !length_map, !length_seq,
    AesCtrFacts.update_final_length.
  specialize (Hutf m Hm).
  destruct (utf8_write L m) as [|b bs]; [contradiction|].
  cbn [List.length].
  replace (16 + (16 + S (List.length bs)) <? 33)%nat with false
    by (symmetry; apply Nat.ltb_ge; lia).
  f_equal; lia.
Qed.


End EnvelopeChecks.

(** ** The envelope of the GCM module *)

Section GuiRoundTrip.
Import Flow Crypto CryptoUtilsGUIEncrypt.
Variable B : Bip39.Lib.
Variable W : WebLib.
Variable X : EncryptLib.

Lemma gui_valid_spec (m : string) :
  CryptoUtilsGUI.validateMnemonic B m = true <->
  Bip39.validateMnemonic B m = inr true.
Proof.
  unfold CryptoUtilsGUI.validateMnemonic.
  destruct (Bip39.validateMnemonic B m) as [e|[|]]; split; intros H;
    congruence.
Qed.

Lemma bytes_of_binary (bytes : list byte) :
  map byte_of_ascii
    (list_ascii_of_string (string_of_list_ascii (map ascii_of_byte bytes)))
  = bytes.
Proof.
  rewrite list_ascii_of_string_of_list_ascii, map_map.
  rewrite <- (map_id bytes) at 2. apply map_ext.
  intros b. apply byte_of_ascii_of_byte.
Qed.

(** X10.  The GCM module has the round trip of the CTR module: for a
    phrase that passes [validateMnemonic] and a non-empty password,
    [encryptMnemonic] returns an envelope, made of the 16 bytes of salt
    and the 12 bytes of IV it drew followed by what AES-GCM returned, and
    [decryptMnemonic] applied to that envelope and the same password
    returns the phrase.  WebCrypto is assumed to honour
    [ContractGcm.gcm]. *)
Theorem gui_decrypt_encrypt_round_trip (m p : string) (s s2 : State) :
  ContractGcm.gcm B W X ->
  CryptoUtilsGUI.validateMnemonic B m = true ->
  Js.is_empty p = false ->
  exists envelope s' sealed,
    encryptMnemonic B W X m p s = (Ret envelope, s')
    /\ Base64.decode envelope
       = map (rng s) (seq 0 16) ++ map (rng s) (seq 16 12) ++ sealed
    /\ fst (CryptoUtilsGUI.decryptMnemonic B W envelope p s2) = Ret m.
Proof.
  intros [Hempty Himp Hkeys Hatob Htext] Hm Hp.
  assert (Hne : Js.is_empty m = false).
  { destruct m; [|reflexivity]. apply gui_valid_spec in Hm. contradiction. }
  set (salt := map (rng s) (seq 0 16)).
  set (iv := map (rng s) (seq 16 12)).
  destruct (Himp (textEncode W p)) as (material & Hmat).
  destruct (Hkeys salt material) as (sealing & opening & Hs & Ho & Hgcm).
  destruct (Hgcm iv (textEncode W m)) as (sealed & Henc & Hdec).
  exists (Base64.encode (salt ++ iv ++ sealed)). eexists. exists sealed.
  split; [|split].
  - unfold encryptMnemonic, try_catch, bind, randomBytes, record, modify,
      bind. rewrite Hne, Hp, Hm. cbn [orb negb fst snd rng ops].
    fold salt. rewrite Hmat. cbn [lift ret]. rewrite Hs.
    cbn [lift ret fst snd rng ops].
    change (map (fun i => rng s (16 + i)%nat) (seq 0 12)) with iv.
    rewrite Henc. reflexivity.
  - apply Base64Facts.decode_encode.
  - unfold CryptoUtilsGUI.decryptMnemonic, CryptoUtilsGUI.decode_base64,
      try_catch, bind, record, modify, bind.
    rewrite Base64Facts.encode_not_empty, Hp by (subst salt; discriminate).
    cbn [orb]. rewrite Hatob. cbn [lift ret]. rewrite bytes_of_binary.
    assert (Hsl : List.length salt = 16%nat) by reflexivity.
    assert (Hil : List.length iv = 12%nat) by reflexivity.
    replace (List.length (salt ++ iv ++ sealed) <? 28)%nat with false
      by (symmetry; apply Nat.ltb_ge; rewrite !length_app; lia).
    rewrite (firstn_exact 16 salt) by exact Hsl.
    rewrite (skipn_exact 16 salt) by exact Hsl.
    rewrite (firstn_exact 12 iv) by exact Hil.
    replace (skipn 28 (salt ++ iv ++ sealed)) with sealed
      by (change 28%nat with (12 + 16)%nat;
          now rewrite <- skipn_skipn, (skipn_exact 16 salt),
            (skipn_exact 12 iv)).
    rewrite Hmat. cbn [lift ret]. rewrite Ho. cbn [lift ret].
    rewrite Hdec. cbn [lift ret].
    rewrite Htext by now apply gui_valid_spec.
    rewrite Hm. reflexivity.
Qed.

End GuiRoundTrip.

Section GuiWitnesses.
Import Flow Crypto CryptoUtilsGUIEncrypt.

Lemma forallb_repeat {A} (f : A -> bool) (a : A) (n : nat) :
  f a = true -> forallb f (repeat a n) = true.
Proof. intros H. induction n; cbn; [reflexivity | now rewrite H]. Qed.

Lemma byte_eqb_refl (b : byte) : Byte.eqb b b = true.
Proof. now destruct b. Qed.

Lemma demo_gcm : ContractGcm.gcm Demo.bip39 Demo.web Fixtures.webcrypto.
Proof.
  split.
  - intros H. vm_compute in H. discriminate.
  - intros data. eexists. reflexivity.
  - intros salt material. eexists. eexists.
    split; [reflexivity|]. split; [reflexivity|].
    intros iv data. eexists. split; [reflexivity|].
    cbn [Demo.web subtleDecrypt]. unfold Demo.open.
    set (key := Demo.stretch "" (salt ++ material) 32).
    set (body := Bytes.xor_with data _).
    assert (Hb : List.length body = List.length data).
    { apply BytesFacts.xor_with_length.
      rewrite AesCtrFacts.keystream_length. apply AesCtrFacts.blocks_cover. }
    rewrite length_app, repeat_length.
    replace (List.length body + 16 - 16)%nat with (List.length body) by lia.
    replace (List.length body + 16 <? 16)%nat with false
      by (symmetry; apply Nat.ltb_ge; lia).
    rewrite (skipn_exact (List.length body) body) by reflexivity.
    rewrite forallb_repeat by apply byte_eqb_refl.
    rewrite (firstn_exact (List.length body) body) by reflexivity.
    rewrite Hb. subst body. f_equal.
    apply BytesFacts.xor_with_involutive.
    rewrite AesCtrFacts.keystream_length. apply AesCtrFacts.blocks_cover.
  - intros bytes. cbn [Demo.web atob].
    now rewrite Base64Facts.decode_encode.
  - intros m _. apply string_of_list_byte_of_string.
Qed.

Lemma gui_decrypt_encrypt_round_trip_witness :
  CryptoUtilsGUI.validateMnemonic Demo.bip39 Demo.sample_mnemonic = true
  /\ exists envelope s' sealed,
       encryptMnemonic Demo.bip39 Demo.web Fixtures.webcrypto
         Demo.sample_mnemonic "Test1234!" (Demo.start Demo.counting)
       = (Ret envelope, s')
       /\ Base64.decode envelope
          = map (rng (Demo.start Demo.counting)) (seq 0 16)
            ++ map (rng (Demo.start Demo.counting)) (seq 16 12) ++ sealed
       /\ fst (CryptoUtilsGUI.decryptMnemonic Demo.bip39 Demo.web envelope
                 "Test1234!" (Demo.start Demo.zeros))
          = Ret Demo.sample_mnemonic.
Proof.
  assert (V : CryptoUtilsGUI.validateMnemonic Demo.bip39
                Demo.sample_mnemonic = true)
    by (vm_compute; reflexivity).
  split; [exact V|].
  apply (gui_decrypt_encrypt_round_trip Demo.bip39 Demo.web
           Fixtures.webcrypto Demo.sample_mnemonic "Test1234!"
           (Demo.start Demo.counting) (Demo.start Demo.zeros)
           demo_gcm V).
  reflexivity.
Defined.

End GuiWitnesses.

Section EnvelopeCheckWitnesses.
Import Flow Crypto EnvelopeCheck.

Lemma invalid_envelope_never_decrypts_witness :
  validateEncryptedData Demo.envelope32 = invalid "数据长度不足"
  /\ exists err,
       fst (CryptoUtils.decryptMnemonic Demo.bip39 Demo.node Demo.envelope32
              "Test1234!" (Demo.start Demo.zeros)) = Throw err.
Proof.
  assert (V : validateEncryptedData Demo.envelope32 = invalid "数据长度不足")
    by (vm_compute; reflexivity).
  split; [exact V|].
  apply (invalid_envelope_never_decrypts Demo.bip39 Demo.node
           Demo.envelope32 "Test1234!" "数据长度不足" (Demo.start Demo.zeros)).
  - intros H. vm_compute in H. discriminate.
  - reflexivity.
  - exact V.
Defined.

Lemma demo_utf8_not_empty (x : string) :
  Js.is_empty x = false -> utf8_write Demo.node x <> [].
Proof. destruct x; [discriminate|]. intros _. cbn. discriminate. Qed.

Lemma sample_encrypts :
  exists s',
    CryptoUtils.encryptMnemonic Demo.bip39 Demo.node Demo.sample_mnemonic
      "Test1234!" (Demo.start Demo.counting) = (Ret Demo.ctr_envelope, s').
Proof. eexists. vm_compute. reflexivity. Qed.

Lemma encrypted_envelope_validates_witness :
  validateEncryptedData Demo.ctr_envelope
  = valid (32 + 75) 16 16 75 "AES-256-CTR/PBKDF2-SHA256".
Proof.
  destruct sample_encrypts as (s' & Hrun).
  exact (encrypted_envelope_validates Demo.bip39 Demo.node
           Demo.sample_mnemonic "Test1234!" Demo.ctr_envelope
           (Demo.start Demo.counting) s' demo_utf8_not_empty Hrun).
Defined.


End EnvelopeCheckWitnesses.

(** ** The address utilities *)

Section AddressFormat.
Import EvmUtils.

Lemma slice_to_length (n : nat) (s : string) :
  (n <= String.length s)%nat -> String.length (Js.slice_to n s) = n.
Proof.
  intros H. unfold Js.slice_to.
  rewrite TextFacts.length_string_of, length_firstn, TextFacts.length_list.
  lia.
Qed.

Lemma slice_last_length (n : nat) (s : string) :
  (n <= String.length s)%nat -> String.length (Js.slice_last n s) = n.
Proof.
  intros H. unfold Js.slice_last.
  rewrite TextFacts.length_string_of, length_skipn, TextFacts.length_list.
  lia.
Qed.

(** X11.  [formatAddress] leaves a string shorter than prefix + suffix
    as it is, and turns any other non-empty string into its first
    [prefixLength] characters, three dots and (for a suffix length that is
    not zero) its last [suffixLength] characters: the result then has
    exactly prefix + 3 + suffix characters, which is longer than the
    input when the input has fewer than that.  With the lengths 6 and 4
    it is the function the batch component labels its log lines with. *)
Theorem formatAddress_shape (address : string)
  (prefixLength suffixLength : nat) :
  ((String.length address < prefixLength + suffixLength)%nat ->
   formatAddress address prefixLength suffixLength = address)
  /\
  ((prefixLength + suffixLength <= String.length address)%nat ->
   (0 < suffixLength)%nat ->
   formatAddress address prefixLength suffixLength
   = Js.slice_to prefixLength address +++ "..."
     +++ Js.slice_last suffixLength address
   /\ String.length (formatAddress address prefixLength suffixLength)
      = (prefixLength + 3 + suffixLength)%nat)
  /\ formatAddress address 6 4 = GasBatchManager.formatAddress address.
Proof.
  unfold formatAddress, GasBatchManager.formatAddress. split; [|split].
  - intros H. apply Nat.ltb_lt in H. rewrite H. now rewrite orb_true_r.
  - intros H Hs.
    assert (E : (String.length address <? prefixLength + suffixLength)%nat
                = false) by (apply Nat.ltb_ge; exact H).
    assert (N : Js.is_empty address = false).
    { destruct address; [cbn in H; lia | reflexivity]. }
    rewrite E, N. cbn [orb]. unfold slice_from_end.
    destruct (Nat.eqb_spec suffixLength 0) as [Z|_]; [lia|].
    split; [reflexivity|].
    rewrite !TextFacts.length_append, slice_to_length, slice_last_length
      by lia.
    cbn. lia.
  - reflexivity.
Qed.

End AddressFormat.

Section AddressBatches.
Import EvmUtils ObserveEvm.
Variable B : Bip39.Lib.
Variable V : Lib.

Lemma generate_returns (m p : string) (info : AddressInfo) :
  generateEthereumAddress B V m p = inr info ->
  Bip39.validateMnemonic B m = inr true
  /\ mnemonic info = m /\ path info = p
  /\ exists keys,
       fromMnemonic V m p = inr keys
       /\ address info = k_address keys
       /\ privateKey info = k_privateKey keys.
Proof.
  unfold generateEthereumAddress.
  destruct (Bip39.validateMnemonic B m) as [e|[|]]; try discriminate.
  destruct (fromMnemonic V m p) as [e|keys]; [discriminate|].
  intros [= <-]. cbn. repeat split. exists keys. repeat split.
Qed.

Lemma generate_fails (m p : string) (e : Js.Error) :
  generateEthereumAddress B V m p = inl e ->
  exists cause, e = Js.new_Error ("地址生成失败: " +++ cause).
Proof.
  unfold generateEthereumAddress.
  destruct (Bip39.validateMnemonic B m) as [e0|[|]];
    [| destruct (fromMnemonic V m p) as [e1|keys] |];
    intros E; inversion E; subst; eexists; reflexivity.
Qed.

Lemma batch_from (mnemonics : list string) : forall i,
  let out :=
    Text.mapi_from i
      (fun index mnemonic =>
         match generateEthereumAddress B V mnemonic DEFAULT_ETH_PATH with
         | inr addressInfo =>
             generated (Z.of_nat index + 1) (EvmUtils.mnemonic addressInfo)
               addressInfo
         | inl error =>
             failed (Z.of_nat index + 1) mnemonic (Js.message error)
         end)
      mnemonics in
  map id_of out
  = map (fun k => Z.of_nat k + 1)%Z (seq i (List.length mnemonics))
  /\ map mnemonic_of out = mnemonics
  /\ Forall
       (fun g =>
          match g with
          | generated _ m info =>
              generateEthereumAddress B V m DEFAULT_ETH_PATH = inr info
              /\ Bip39.validateMnemonic B m = inr true
          | failed _ m error =>
              generateEthereumAddress B V m DEFAULT_ETH_PATH
              = inl (Js.new_Error error)
              /\ exists cause, error = "地址生成失败: " +++ cause
          end) out.
Proof.
  induction mnemonics as [|m rest IH]; intros i; cbn.
  - repeat split; constructor.
  - destruct (IH (S i)) as (I & M & F). cbv zeta in I, M, F.
    destruct (generateEthereumAddress B V m DEFAULT_ETH_PATH)
      as [e|info] eqn:G; cbn; rewrite I, M.
    + destruct (generate_fails _ _ _ G) as (cause & ->).
      repeat split; try reflexivity. constructor; [|exact F].
      split; [exact G | now exists cause].
    + destruct (generate_returns _ _ _ G) as (Hv & Hm & _).
      rewrite Hm. repeat split; try reflexivity.
      constructor; [|exact F]. now split.
Qed.

(** X12.  [batchGenerateAddresses] never throws and answers phrase by
    phrase: the array it returns has one element per phrase, in order,
    numbered from 1 and carrying its phrase; an element marked as
    successful holds the address information derived from a phrase that
    bip39 accepts, and an element marked as failed holds the message of
    the error, which starts with the prefix that
    [generateEthereumAddress] puts before every error. *)
Theorem batchGenerateAddresses_entries (mnemonics : list string) :
  let out := batchGenerateAddresses B V mnemonics in
  map id_of out
  = map (fun k => Z.of_nat k + 1)%Z (seq 0 (List.length mnemonics))
  /\ map mnemonic_of out = mnemonics
  /\ Forall
       (fun g =>
          match g with
          | generated _ m info =>
              generateEthereumAddress B V m DEFAULT_ETH_PATH = inr info
              /\ Bip39.validateMnemonic B m = inr true
          | failed _ m error =>
              generateEthereumAddress B V m DEFAULT_ETH_PATH
              = inl (Js.new_Error error)
              /\ exists cause, error = "地址生成失败: " +++ cause
          end) out.
Proof. exact (batch_from mnemonics 0). Qed.

Lemma obj_get_app_new {A} key (v : A) (obj : list (string * A)) :
  Text.obj_get key obj = None ->
  map fst (obj ++ [(key, v)]) = map fst obj ++ [key].
Proof. intros _. now rewrite map_app. Qed.

Lemma visit_tracks (seen : Seen) (acc : list string) (i : nat) (m : string) :
  tracks seen acc ->
  tracks (visit B V seen i m) (acc ++ derived B V [m]).
Proof.
  unfold tracks, visit, derived. cbn [flat_map]. intros (Hnd & Hin & Hlen).
  destruct (generateEthereumAddress B V m DEFAULT_ETH_PATH) as [e|info];
    cbn [app]; [rewrite app_nil_r; auto|].
  destruct (Text.obj_get (address info) (addressMap seen)) as [earlier|] eqn:G;
    cbn [addressMap found].
  - assert (I : In (address info) (map fst (addressMap seen))).
    { destruct (in_dec string_dec (address info) (map fst (addressMap seen)))
        as [I|I]; [exact I|].
      apply obj_get_none in I. congruence. }
    split; [exact Hnd|]. split.
    + intros a. rewrite in_app_iff, Hin. cbn. split; [tauto|].
      intros [H|[<-|[]]]; [exact H | now apply Hin].
    + rewrite !length_app. cbn. lia.
  - apply obj_get_none in G. rewrite map_app. cbn [map fst].
    split; [|split].
    + apply NoDup_app; [exact Hnd | repeat constructor; intros [] |].
      intros x Hx [<-|[]]. contradiction.
    + intros a. rewrite !in_app_iff, Hin. tauto.
    + rewrite !length_app. cbn. lia.
Qed.

Lemma visit_from_tracks (mnemonics : list string) : forall i seen acc,
  tracks seen acc ->
  tracks (visit_from B V i mnemonics seen) (acc ++ derived B V mnemonics).
Proof.
  induction mnemonics as [|m rest IH]; intros i seen acc T.
  - cbn. now rewrite app_nil_r.
  - cbn [visit_from].
    replace (acc ++ derived B V (m :: rest))
      with ((acc ++ derived B V [m]) ++ derived B V rest).
    + apply IH. now apply visit_tracks.
    + unfold derived. cbn [flat_map]. now rewrite app_nil_r, app_assoc.
Qed.

(** X13.  [validateAddressUniqueness] reports the addresses as unique
    exactly when the addresses derived from the phrases (those for which
    derivation succeeds) are pairwise distinct; the number of addresses it
    reports is the number of distinct ones, and together with the number
    of duplicates it makes up the number of derived addresses. *)
Theorem address_uniqueness_report (mnemonics : list string) :
  let report := validateAddressUniqueness B V mnemonics in
  let addresses := derived B V mnemonics in
  (isUnique report = true <-> NoDup addresses)
  /\ totalAddresses report = List.length (nodup string_dec addresses)
  /\ (totalAddresses report + List.length (duplicates report)
      = List.length addresses)%nat.
Proof.
  cbv zeta. unfold validateAddressUniqueness.
  cbn [isUnique totalAddresses duplicates].
  assert (T0 : tracks (mkSeen [] []) []).
  { split; [constructor | split; [tauto | reflexivity]]. }
  pose proof (visit_from_tracks mnemonics 0 _ _ T0) as T.
  cbn [app] in T. destruct T as (Hnd & Hin & Hlen).
  set (seen := visit_from B V 0 mnemonics (mkSeen [] [])) in *.
  set (addresses := derived B V mnemonics) in *.
  rewrite length_map in Hlen.
  assert (Hk : List.length (addressMap seen)
               = List.length (nodup string_dec addresses)).
  { rewrite <- (length_map fst). apply Nat.le_antisymm.
    - apply NoDup_incl_length; [exact Hnd|].
      intros a Ha. apply nodup_In. now apply Hin.
    - apply NoDup_incl_length; [apply NoDup_nodup|].
      intros a Ha. apply nodup_In in Ha. now apply Hin. }
  split; [|split; [exact Hk | exact Hlen]].
  rewrite Nat.eqb_eq. split.
  - intros Z.
    apply (NoDup_incl_NoDup Hnd); [rewrite length_map; lia|].
    intros a Ha. now apply Hin.
  - intros N.
    assert (List.length addresses <= List.length (addressMap seen))%nat.
    { rewrite <- (length_map fst). apply NoDup_incl_length; [exact N|].
      intros a Ha. now apply Hin. }
    lia.
Qed.

End AddressBatches.

Section AddressWitnesses.
Import EvmUtils ObserveEvm.

Lemma formatAddress_shape_witness :
  formatAddress "0x12" 6 4 = "0x12"%string
  /\ formatAddress "0x12345678" 6 4 = "0x1234...5678"%string
  /\ String.length (formatAddress "0x12345678" 6 4) = 13%nat
  /\ String.length "0x12345678" = 10%nat.
Proof.
  destruct (formatAddress_shape "0x12" 6 4) as (Hshort & _).
  destruct (formatAddress_shape "0x12345678" 6 4) as (_ & Hlong & _).
  destruct (Hlong ltac:(cbn; lia) ltac:(lia)) as (Hl1 & Hl2).
  exact (conj (Hshort ltac:(cbn; lia)) (conj Hl1 (conj Hl2 eq_refl))).
Defined.

End AddressWitnesses.

(** ** Whole batches *)

Section Transfers.
Import Rpc ObserveBatch.

Lemma transfers_app h1 h2 :
  transfers (h1 ++ h2) = transfers h1 ++ transfers h2.
Proof.
  induction h1 as [|e h1 IH]; [reflexivity|].
  destruct e; cbn; rewrite ?IH; reflexivity.
Qed.

Lemma transfers_concat (segs : list History) :
  transfers (List.concat segs) = flat_map transfers segs.
Proof.
  induction segs as [|seg segs IH]; [reflexivity|].
  cbn. now rewrite transfers_app, IH.
Qed.

End Transfers.

Section LoopSegments.
Import Flow Rpc.
Variable X : Type.
Variable body : nat -> X -> M State unit.
Variable P : X -> History -> Prop.

Hypothesis body_segment :
  forall i x s, exists seg o s',
    body i x s = (o, s')
    /\ (o = Ret tt \/ o = Continue)
    /\ trace s' = trace s ++ seg
    /\ P x seg.

(** A loop whose passes end normally or by [continue] runs to its end,
    and its trace is made of one segment per element. *)
Lemma loop_segments (xs : list X) : forall i s,
  exists segs s',
    for_from i xs body s = (Ret tt, s')
    /\ trace s' = trace s ++ List.concat segs
    /\ Forall2 P xs segs.
Proof.
  induction xs as [|x rest IH]; intros i s.
  - exists [], s. cbn. rewrite app_nil_r. repeat split. constructor.
  - destruct (body_segment i x s) as (seg & o & s1 & Hrun & Ho & Htr & Hp).
    destruct (IH (S i) s1) as (segs & s2 & Hrun2 & Htr2 & Hall).
    exists (seg :: segs), s2. split; [|split].
    + destruct Ho as [-> | ->].
      * rewrite (for_from_step _ _ _ _ _ _ Hrun). exact Hrun2.
      * rewrite (for_from_skip _ _ _ _ _ _ Hrun). exact Hrun2.
    + cbn. rewrite Htr2, Htr. now rewrite app_assoc.
    + now constructor.
Qed.

End LoopSegments.

Section SegmentCounts.
Import Rpc ObserveBatch.

Lemma flat_map_bounds {X} (xs : list X) (segs : list History) (P : X -> History -> Prop)
  (low high : nat) :
  Forall2 P xs segs ->
  (forall x seg, P x seg ->
     (low <= List.length (transfers seg) <= high)%nat) ->
  (low * List.length xs <= List.length (flat_map transfers segs)
   <= high * List.length xs)%nat.
Proof.
  intros Hall Hb. induction Hall as [|x seg xs segs Hp Hall IH]; cbn; [lia|].
  rewrite length_app. specialize (Hb x seg Hp). lia.
Qed.

Lemma flat_map_all {X} (xs : list X) (segs : list History)
  (P : X -> History -> Prop) (Q : string * TxRequest -> Prop) :
  Forall2 P xs segs ->
  (forall x seg, In x xs -> P x seg -> Forall Q (transfers seg)) ->
  Forall Q (flat_map transfers segs).
Proof.
  intros Hall Hq. induction Hall as [|x seg xs segs Hp Hall IH]; cbn;
    [constructor|].
  apply Forall_app. split.
  - apply (Hq x); [now left | exact Hp].
  - apply IH. intros y s Hy. apply Hq. now right.
Qed.

End SegmentCounts.

Ltac finish_pass :=
  eexists; eexists; eexists; (split; [reflexivity|]);
  (split; [auto|]); state_simpl;
  (split; [rewrite <- ?app_assoc;
           first [reflexivity | symmetry; apply app_nil_r]|]).

Section Passes.
Import Flow Rpc Observe ObserveBatch.
Variable E : Ethers.
Variable C : Chain.

Lemma server_send_pass wallet fees value p total i to s :
  exists seg o s',
    TxServer.send_iteration C wallet fees value p total i to s = (o, s')
    /\ (o = Ret tt \/ o = Continue)
    /\ trace s' = trace s ++ seg
    /\ sends_for wallet value fees to seg.
Proof.
  unfold_server_send. unfold sends_for.
  run; finish_pass; cbn; (split; [repeat constructor | lia]).
Qed.

Lemma browser_send_pass f wallet fees value total i to s :
  exists seg o s',
    GasBatchManager.send_iteration C f wallet fees value total i to s
      = (o, s')
    /\ (o = Ret tt \/ o = Continue)
    /\ trace s' = trace s ++ seg
    /\ sends_for wallet value fees to seg
    /\ Forall (fun ft => tx_gasLimit (snd ft) = 21000%Z) (transfers seg).
Proof.
  unfold_browser_send. unfold sends_for.
  run; finish_pass; cbn;
    (split; [split; [repeat constructor | lia] | repeat constructor]).
Qed.

Ltac positive :=
  match goal with
  | H : (?v <=? 0)%Z = false |- (0 < ?v)%Z => apply Z.leb_gt; exact H
  end.

Lemma server_reclaim_pass fees reserveWei p total i entry s :
  exists seg o s',
    TxServer.reclaim_iteration E C fees reserveWei p total i entry s
      = (o, s')
    /\ (o = Ret tt \/ o = Continue)
    /\ trace s' = trace s ++ seg
    /\ reclaims_for E (TxServer.reclaimAddress p) reserveWei fees
         (entry_key entry) seg.
Proof.
  unfold_server_reclaim. unfold reclaims_for, entry_key, balance_seen.
  run; finish_pass; cbn; (split; [|lia]);
    repeat constructor; try assumption; try positive;
    try (eexists; (split; [|reflexivity]); cbn; tauto).
Qed.

Lemma browser_reclaim_pass f fees reserveWei total i account s :
  exists seg o s',
    GasBatchManager.reclaim_iteration E C f fees reserveWei
      (maxFeePerGas fees * 21000) total i account s = (o, s')
    /\ (o = Ret tt \/ o = Continue)
    /\ trace s' = trace s ++ seg
    /\ reclaims_for E (GasBatchManager.reclaimAddress f) reserveWei fees
         (GasBatchManager.acc_privateKey account) seg
    /\ Forall (fun ft => tx_gasLimit (snd ft) = 21000%Z) (transfers seg).
Proof.
  unfold_browser_reclaim. unfold reclaims_for, balance_seen.
  run; finish_pass; cbn;
    (split; [split; [|lia] | repeat constructor]);
    repeat constructor; try assumption; try positive;
    try (eexists; split;
         [ cbn; repeat (first [left; reflexivity | right])
         | cbn [tx_value tx_gasLimit snd fst]; lia ]).
Qed.

End Passes.

Section BatchLoops.
Import Flow Rpc Observe ObserveBatch.
Variable E : Ethers.
Variable C : Chain.

Lemma server_send_loop wallet fees value p total xs i s :
  exists seg s',
    for_from i xs (TxServer.send_iteration C wallet fees value p total) s
    = (Ret tt, s')
    /\ trace s' = trace s ++ seg
    /\ Forall (fun ft => fst ft = wallet /\ In (tx_to (snd ft)) xs
                         /\ tx_value (snd ft) = value
                         /\ tx_fees (snd ft) = fees) (transfers seg)
    /\ (List.length xs <= List.length (transfers seg)
        <= 2 * List.length xs)%nat.
Proof.
  destruct (loop_segments string
              (TxServer.send_iteration C wallet fees value p total)
              (sends_for wallet value fees)
              (server_send_pass C wallet fees value p total) xs i s)
    as (segs & s' & Hrun & Htr & Hall).
  exists (List.concat segs), s'. rewrite transfers_concat.
  split; [exact Hrun|]. split; [exact Htr|]. split.
  - apply (flat_map_all xs segs _ _ Hall).
    intros x seg Hx [Hf _]. eapply Forall_impl; [|exact Hf].
    intros ft (A & B & D & F). rewrite B. auto.
  - pose proof (flat_map_bounds xs segs _ 1 2 Hall) as Hb.
    rewrite Nat.mul_1_l in Hb. apply Hb. intros x seg [_ H]. exact H.
Qed.

Lemma browser_send_loop f wallet fees value total xs i s :
  exists seg s',
    for_from i xs
      (GasBatchManager.send_iteration C f wallet fees value total) s
    = (Ret tt, s')
    /\ trace s' = trace s ++ seg
    /\ Forall (fun ft => fst ft = wallet /\ In (tx_to (snd ft)) xs
                         /\ tx_value (snd ft) = value
                         /\ tx_fees (snd ft) = fees) (transfers seg)
    /\ (List.length xs <= List.length (transfers seg)
        <= 2 * List.length xs)%nat.
Proof.
  destruct (loop_segments string
              (GasBatchManager.send_iteration C f wallet fees value total)
              (sends_for wallet value fees)) with (xs := xs) (i := i) (s := s)
    as (segs & s' & Hrun & Htr & Hall).
  { intros j x st.
    destruct (browser_send_pass C f wallet fees value total j x st)
      as (seg & o & s' & H1 & H2 & H3 & H4 & _).
    exists seg, o, s'. auto. }
  exists (List.concat segs), s'. rewrite transfers_concat.
  split; [exact Hrun|]. split; [exact Htr|]. split.
  - apply (flat_map_all xs segs _ _ Hall).
    intros x seg Hx [Hf _]. eapply Forall_impl; [|exact Hf].
    intros ft (A & B & D & F). rewrite B. auto.
  - pose proof (flat_map_bounds xs segs _ 1 2 Hall) as Hb.
    rewrite Nat.mul_1_l in Hb. apply Hb. intros x seg [_ H]. exact H.
Qed.

Lemma server_reclaim_loop fees reserveWei p total xs i s :
  exists seg s',
    for_from i xs (TxServer.reclaim_iteration E C fees reserveWei p total) s
    = (Ret tt, s')
    /\ trace s' = trace s ++ seg
    /\ Forall (fun ft =>
                 (exists entry,
                    In entry xs
                    /\ newWallet E (entry_key entry) = inr (fst ft))
                 /\ tx_to (snd ft) = TxServer.reclaimAddress p
                 /\ tx_fees (snd ft) = fees
                 /\ (0 < tx_value (snd ft))%Z) (transfers seg)
    /\ (List.length (transfers seg) <= List.length xs)%nat.
Proof.
  destruct (loop_segments TxServer.Entry
              (TxServer.reclaim_iteration E C fees reserveWei p total)
              (fun entry =>
                 reclaims_for E (TxServer.reclaimAddress p) reserveWei fees
                   (entry_key entry))
              (server_reclaim_pass E C fees reserveWei p total) xs i s)
    as (segs & s' & Hrun & Htr & Hall).
  exists (List.concat segs), s'. rewrite transfers_concat.
  split; [exact Hrun|]. split; [exact Htr|]. split.
  - apply (flat_map_all xs segs _ _ Hall).
    intros x seg Hx [Hf _]. eapply Forall_impl; [|exact Hf].
    intros ft (A & B & D & F & _). eauto 6.
  - pose proof (flat_map_bounds xs segs _ 0 1 Hall) as Hb.
    rewrite Nat.mul_1_l in Hb. apply Hb. intros x seg [_ H]. lia.
Qed.

Lemma browser_reclaim_loop f fees reserveWei total xs i s :
  exists seg s',
    for_from i xs
      (GasBatchManager.reclaim_iteration E C f fees reserveWei
         (maxFeePerGas fees * 21000) total) s
    = (Ret tt, s')
    /\ trace s' = trace s ++ seg
    /\ Forall (fun ft =>
                 (exists account,
                    In account xs
                    /\ newWallet E (GasBatchManager.acc_privateKey account)
                       = inr (fst ft))
                 /\ tx_to (snd ft) = GasBatchManager.reclaimAddress f
                 /\ tx_fees (snd ft) = fees
                 /\ (0 < tx_value (snd ft))%Z) (transfers seg)
    /\ (List.length (transfers seg) <= List.length xs)%nat.
Proof.
  destruct (loop_segments GasBatchManager.Account
              (GasBatchManager.reclaim_iteration E C f fees reserveWei
                 (maxFeePerGas fees * 21000) total)
              (fun account =>
                 reclaims_for E (GasBatchManager.reclaimAddress f) reserveWei
                   fees (GasBatchManager.acc_privateKey account)))
    with (xs := xs) (i := i) (s := s)
    as (segs & s' & Hrun & Htr & Hall).
  { intros j x st.
    destruct (browser_reclaim_pass E C f fees reserveWei total j x st)
      as (seg & o & s' & H1 & H2 & H3 & H4 & _).
    exists seg, o, s'. auto. }
  exists (List.concat segs), s'. rewrite transfers_concat.
  split; [exact Hrun|]. split; [exact Htr|]. split.
  - apply (flat_map_all xs segs _ _ Hall).
    intros x seg Hx [Hf _]. eapply Forall_impl; [|exact Hf].
    intros ft (A & B & D & F & _). eauto 6.
  - pose proof (flat_map_bounds xs segs _ 0 1 Hall) as Hb.
    rewrite Nat.mul_1_l in Hb. apply Hb. intros x seg [_ H]. lia.
Qed.

End BatchLoops.

Section BatchTransfers.
Import Flow Rpc Observe ObserveBatch.
Variable E : Ethers.
Variable C : Chain.
Variable K : GasBatchManager.Backend.

Lemma server_send_transfers p s lines s' :
  TxServer.handleSendBatch E C p s = (Ret lines, s') ->
  exists seg wallet value,
    trace s' = trace s ++ seg
    /\ TxServer.resolveFundingWallet E (TxServer.fundingSecret p)
         (TxServer.or_default (TxServer.fundingPath p) TxServer.FUNDING_PATH)
       = inr wallet
    /\ parseEther E (TxServer.amountEth p) = inr value
    /\ Forall (fun ft => fst ft = wallet
                         /\ In (tx_to (snd ft)) (TxServer.recipients p)
                         /\ tx_value (snd ft) = value) (transfers seg)
    /\ (List.length (TxServer.recipients p)
        <= List.length (transfers seg)
        <= 2 * List.length (TxServer.recipients p))%nat
    /\ lines = logs s'.
Proof.
  unfold TxServer.handleSendBatch, for_each. intros H.
  pose proof (fun w f v =>
                server_send_loop C w f v p
                  (List.length (TxServer.recipients p))
                  (TxServer.recipients p) 0%nat) as Hloop.
  unfold_flow. unfold_rpc. unfold_rpc. unfold_flow.
  repeat (state_simpl; cbv beta in H; try discriminate H;
          first [ match type of H with
                  | context [for_from 0 _ (_ _ ?w ?f ?v _ _) ?st] =>
                      destruct (Hloop w f v st)
                        as (seg & s2 & Hrun & Htr & Hall & Hcount);
                      rewrite Hrun in H; clear Hloop
                  end
                | next_case_in H ]).
  injection H as <- <-. state_simpl.
  eexists; eexists; eexists. split; [|split; [|split; [|split; [|split]]]].
  - rewrite Htr, <- !app_assoc. reflexivity.
  - reflexivity.
  - reflexivity.
  - cbn [transfers app]. rewrite ?transfers_app. cbn [transfers app].
    eapply Forall_impl; [|exact Hall]. intros ft (A & B & D & _). auto.
  - cbn [transfers app]. rewrite ?transfers_app. cbn [transfers app].
    exact Hcount.
  - reflexivity.
Qed.

Ltac unfold_browser_reclaim_batch :=
  unfold GasBatchManager.handleBatchReclaim, for_each;
  unfold_flow; unfold_rpc; unfold_rpc; unfold_flow.

Ltac close_segment Htr :=
  eexists; eexists; (split; [reflexivity|]); state_simpl;
  try rewrite Htr; state_simpl;
  (split; [rewrite <- ?app_assoc;
           first [reflexivity | symmetry; apply app_nil_r]|]).

Lemma browser_send_transfers f s :
  exists seg s',
    GasBatchManager.handleBatchSend E C K f s = (Ret tt, s')
    /\ trace s' = trace s ++ seg
    /\ Forall (fun ft =>
                 GasBatchManager.resolveFundingWallet E f = inr (fst ft)
                 /\ In (tx_to (snd ft)) (GasBatchManager.send_recipients E f)
                 /\ parseEther E (GasBatchManager.sendAmount f)
                    = inr (tx_value (snd ft))) (transfers seg)
    /\ (List.length (transfers seg)
        <= 2 * List.length (GasBatchManager.send_recipients E f))%nat
    /\ (GasBatchManager.useBackendSender f = true -> seg = []).
Proof.
  pose proof (fun w fe v =>
                browser_send_loop C f w fe v
                  (List.length (GasBatchManager.send_recipients E f))
                  (GasBatchManager.send_recipients E f) 0%nat) as Hloop.
  unfold GasBatchManager.handleBatchSend, for_each;
    unfold_flow; unfold_rpc; unfold_rpc; unfold_flow.
  repeat (state_simpl; cbv zeta;
          first [ rewrite log_all_run
                | match goal with
                  | |- context [for_from 0 _ (_ _ _ ?w ?fe ?v _) ?st] =>
                      destruct (Hloop w fe v st)
                        as (seg & s2 & Hrun & Htr & Hall & Hcount);
                      rewrite Hrun; clear Hloop
                  end
                | next_case ]);
    close_segment Htr;
    cbn [transfers app]; rewrite ?transfers_app; cbn [transfers app];
    (split; [|split]);
    try solve [constructor];
    try solve [cbn; lia];
    try solve [intros; first [reflexivity | congruence]];
    try solve [eapply Forall_impl; [|exact Hall];
               intros ft (A & B & D & _); rewrite A, D; auto];
    try solve [cbn in *; lia].
Qed.

Lemma server_reclaim_transfers p s lines s' :
  TxServer.handleReclaimBatch E C p s = (Ret lines, s') ->
  exists seg,
    trace s' = trace s ++ seg
    /\ Forall (fun ft =>
                 (exists entry,
                    In entry (TxServer.entries p)
                    /\ newWallet E (entry_key entry) = inr (fst ft))
                 /\ tx_to (snd ft) = TxServer.reclaimAddress p
                 /\ (0 < tx_value (snd ft))%Z) (transfers seg)
    /\ (List.length (transfers seg)
        <= List.length (TxServer.entries p))%nat
    /\ lines = logs s'.
Proof.
  unfold TxServer.handleReclaimBatch, for_each. intros H.
  pose proof (fun fe r =>
                server_reclaim_loop E C fe r p
                  (List.length (TxServer.entries p))
                  (TxServer.entries p) 0%nat) as Hloop.
  unfold_flow. unfold_rpc. unfold_rpc. unfold_flow.
  repeat (state_simpl; cbv beta in H; try discriminate H;
          first [ match type of H with
                  | context [for_from 0 _ (_ _ _ ?fe ?r _ _) ?st] =>
                      destruct (Hloop fe r st)
                        as (seg & s2 & Hrun & Htr & Hall & Hcount);
                      rewrite Hrun in H; clear Hloop
                  end
                | next_case_in H ]).
  injection H as <- <-. state_simpl.
  eexists. split; [|split; [|split]].
  - rewrite Htr, <- !app_assoc. reflexivity.
  - cbn [transfers app]. rewrite ?transfers_app. cbn [transfers app].
    eapply Forall_impl; [|exact Hall]. intros ft (A & B & D & F). auto.
  - cbn [transfers app]. rewrite ?transfers_app. cbn [transfers app].
    exact Hcount.
  - reflexivity.
Qed.

Lemma server_reclaim_returns p s fd reserveWei :
  TxServer.entries p <> [] ->
  Js.is_empty (TxServer.r_rpcUrl p) = false ->
  Js.is_empty (TxServer.reclaimAddress p) = false ->
  getFeeData C (trace s) = inr fd ->
  parseEther E (TxServer.or_default (TxServer.reserveEth p) "0")
  = inr reserveWei ->
  exists lines s', TxServer.handleReclaimBatch E C p s = (Ret lines, s').
Proof.
  intros Hne Hrpc Haddr Hfee Hparse.
  unfold TxServer.handleReclaimBatch, for_each.
  destruct (TxServer.entries p) as [|e es] eqn:He; [contradiction|].
  cbn [List.length Nat.eqb]. rewrite Hrpc, Haddr.
  unfold_flow. unfold_rpc. unfold_rpc. unfold_flow.
  rewrite Hfee. state_simpl. rewrite Hparse. state_simpl.
  match goal with
  | |- context [for_from 0 ?xs (_ _ _ ?fe ?r _ ?n) ?st] =>
      destruct (server_reclaim_loop E C fe r p n xs 0%nat st)
        as (seg & s2 & Hrun & _)
  end.
  rewrite Hrun. eauto.
Qed.

Lemma browser_reclaim_transfers f s :
  exists seg s',
    GasBatchManager.handleBatchReclaim E C K f s = (Ret tt, s')
    /\ trace s' = trace s ++ seg
    /\ Forall (fun ft =>
                 (exists account,
                    In account (GasBatchManager.selectedAccounts f)
                    /\ newWallet E (GasBatchManager.acc_privateKey account)
                       = inr (fst ft))
                 /\ tx_to (snd ft) = GasBatchManager.reclaimAddress f
                 /\ (0 < tx_value (snd ft))%Z) (transfers seg)
    /\ (List.length (transfers seg)
        <= List.length (GasBatchManager.selectedAccounts f))%nat
    /\ (GasBatchManager.useBackendSender f = true -> seg = []).
Proof.
  pose proof (fun fe r =>
                browser_reclaim_loop E C f fe r
                  (List.length (GasBatchManager.selectedAccounts f))
                  (GasBatchManager.selectedAccounts f) 0%nat) as Hloop.
  unfold_browser_reclaim_batch.
  repeat (state_simpl; cbv zeta;
          first [ rewrite log_all_run
                | match goal with
                  | |- context [for_from 0 _ (_ _ _ _ ?fe ?r _ _) ?st] =>
                      destruct (Hloop fe r st)
                        as (seg & s2 & Hrun & Htr & Hall & Hcount);
                      rewrite Hrun; clear Hloop
                  end
                | next_case ]);
    close_segment Htr;
    cbn [transfers app]; rewrite ?transfers_app; cbn [transfers app];
    (split; [|split]);
    try solve [constructor];
    try solve [cbn; lia];
    try solve [intros; first [reflexivity | congruence]];
    try solve [eapply Forall_impl; [|exact Hall];
               intros ft (A & B & D & F); auto];
    try solve [cbn in *; lia].
Qed.

End BatchTransfers.

Section BatchTheorems.
Import Flow Rpc Observe ObserveBatch.
Variable E : Ethers.
Variable C : Chain.
Variable K : GasBatchManager.Backend.

(** X14.  Whatever the node answers, a batch send moves funds only as
    asked.  When [handleSendBatch] of the server returns, every
    transaction it submitted was sent from the funding wallet, to one of
    the recipients of the payload, with the amount of the payload as
    value, and it submitted at least one and at most two transactions per
    recipient.  [handleBatchSend] of the component never throws; every
    transaction it submits is sent from the funding wallet to one of its
    recipients with the amount of the form, at most two per recipient; and
    when the backend sender is chosen it calls no node itself. *)
Theorem send_batch_transfers :
  (forall p s lines s',
     TxServer.handleSendBatch E C p s = (Ret lines, s') ->
     exists seg wallet value,
       trace s' = trace s ++ seg
       /\ TxServer.resolveFundingWallet E (TxServer.fundingSecret p)
            (TxServer.or_default (TxServer.fundingPath p)
               TxServer.FUNDING_PATH)
          = inr wallet
       /\ parseEther E (TxServer.amountEth p) = inr value
       /\ Forall (fun ft => fst ft = wallet
                            /\ In (tx_to (snd ft)) (TxServer.recipients p)
                            /\ tx_value (snd ft) = value) (transfers seg)
       /\ (List.length (TxServer.recipients p)
           <= List.length (transfers seg)
           <= 2 * List.length (TxServer.recipients p))%nat
       /\ lines = logs s')
  /\
  (forall f s,
     exists seg s',
       GasBatchManager.handleBatchSend E C K f s = (Ret tt, s')
       /\ trace s' = trace s ++ seg
       /\ Forall (fun ft =>
                    GasBatchManager.resolveFundingWallet E f = inr (fst ft)
                    /\ In (tx_to (snd ft))
                         (GasBatchManager.send_recipients E f)
                    /\ parseEther E (GasBatchManager.sendAmount f)
                       = inr (tx_value (snd ft))) (transfers seg)
       /\ (List.length (transfers seg)
           <= 2 * List.length (GasBatchManager.send_recipients E f))%nat
       /\ (GasBatchManager.useBackendSender f = true -> seg = [])).
Proof.
  split.
  - intros p s lines s'. apply server_send_transfers.
  - intros f s. apply browser_send_transfers.
Qed.

(** X15.  A reclaim batch moves funds only to the reclaim address.  Once
    the payload is complete, the fee data is there and the reserve parses,
    [handleReclaimBatch] of the server returns, whatever happens to the
    single entries; and when it returns, every transaction it submitted
    was sent from the wallet of one of the entries to the reclaim address,
    with a positive value, at most one per entry.  [handleBatchReclaim] of
    the component never throws, submits only such transactions, and calls
    no node itself when the backend sender is chosen. *)
Theorem reclaim_batch_transfers :
  (forall p s fd reserveWei,
     TxServer.entries p <> [] ->
     Js.is_empty (TxServer.r_rpcUrl p) = false ->
     Js.is_empty (TxServer.reclaimAddress p) = false ->
     getFeeData C (trace s) = inr fd ->
     parseEther E (TxServer.or_default (TxServer.reserveEth p) "0")
     = inr reserveWei ->
     exists lines s', TxServer.handleReclaimBatch E C p s = (Ret lines, s'))
  /\
  (forall p s lines s',
     TxServer.handleReclaimBatch E C p s = (Ret lines, s') ->
     exists seg,
       trace s' = trace s ++ seg
       /\ Forall (fun ft =>
                    (exists entry,
                       In entry (TxServer.entries p)
                       /\ newWallet E (entry_key entry) = inr (fst ft))
                    /\ tx_to (snd ft) = TxServer.reclaimAddress p
                    /\ (0 < tx_value (snd ft))%Z) (transfers seg)
       /\ (List.length (transfers seg)
           <= List.length (TxServer.entries p))%nat
       /\ lines = logs s')
  /\
  (forall f s,
     exists seg s',
       GasBatchManager.handleBatchReclaim E C K f s = (Ret tt, s')
       /\ trace s' = trace s ++ seg
       /\ Forall (fun ft =>
                    (exists account,
                       In account (GasBatchManager.selectedAccounts f)
                       /\ newWallet E
                            (GasBatchManager.acc_privateKey account)
                          = inr (fst ft))
                    /\ tx_to (snd ft) = GasBatchManager.reclaimAddress f
                    /\ (0 < tx_value (snd ft))%Z) (transfers seg)
       /\ (List.length (transfers seg)
           <= List.length (GasBatchManager.selectedAccounts f))%nat
       /\ (GasBatchManager.useBackendSender f = true -> seg = [])).
Proof.
  split; [|split].
  - intros p s fd reserveWei. apply server_reclaim_returns.
  - intros p s lines s'. apply server_reclaim_transfers.
  - intros f s. apply browser_reclaim_transfers.
Qed.

(** X16.  What a reclaim pass sends is what the account can spare: a
    transaction submitted in a pass of either reclaim loop carries the
    balance that the node reported for the account in that pass, less the
    reserve and less the gas limit of the transaction times the fee cap
    (in the component the gas limit is 21000), and that value is
    positive. *)
Theorem reclaim_amount_is_spare_balance :
  (forall fees reserveWei p total i entry s,
     exists seg o s',
       TxServer.reclaim_iteration E C fees reserveWei p total i entry s
       = (o, s')
       /\ trace s' = trace s ++ seg
       /\ forall from tx,
            In (from, tx) (transfers seg) ->
            exists balance,
              balance_seen from balance seg
              /\ (tx_value tx + reserveWei
                  + tx_gasLimit tx * maxFeePerGas fees = balance)%Z
              /\ (0 < tx_value tx)%Z)
  /\
  (forall f fees reserveWei total i account s,
     exists seg o s',
       GasBatchManager.reclaim_iteration E C f fees reserveWei
         (maxFeePerGas fees * 21000) total i account s = (o, s')
       /\ trace s' = trace s ++ seg
       /\ forall from tx,
            In (from, tx) (transfers seg) ->
            exists balance,
              balance_seen from balance seg
              /\ (tx_value tx + reserveWei + 21000 * maxFeePerGas fees
                  = balance)%Z
              /\ (0 < tx_value tx)%Z).
Proof.
  split.
  - intros fees reserveWei p total i entry s.
    destruct (server_reclaim_pass E C fees reserveWei p total i entry s)
      as (seg & o & s' & Hrun & _ & Htr & Hall & _).
    exists seg, o, s'. split; [exact Hrun|]. split; [exact Htr|].
    intros from tx Hin. rewrite Forall_forall in Hall.
    destruct (Hall _ Hin) as (_ & _ & _ & Hpos & b & Hb & Hv).
    exists b. cbn [fst snd] in *. repeat split; try assumption. lia.
  - intros f fees reserveWei total i account s.
    destruct (browser_reclaim_pass E C f fees reserveWei total i account s)
      as (seg & o & s' & Hrun & _ & Htr & (Hall & _) & Hgas).
    exists seg, o, s'. split; [exact Hrun|]. split; [exact Htr|].
    intros from tx Hin. rewrite Forall_forall in Hall, Hgas.
    destruct (Hall _ Hin) as (_ & _ & _ & Hpos & b & Hb & Hv).
    specialize (Hgas _ Hin).
    exists b. cbn [fst snd] in *. repeat split; try assumption.
    rewrite Hgas in Hv. lia.
Qed.

(** X17.  The gas limit of the server.  [addGasBuffer] leaves a limit
    that is not positive as it is and turns a positive limit [g] into the
    integer part of 1.2 [g]; it never lowers a limit and it is monotone.
    [estimateGasLimit] never throws: it asks the node once and returns the
    buffered estimate, or the fallback when the node refuses. *)
Theorem gas_limit_estimate :
  (forall g,
     (g <= TxServer.addGasBuffer g)%Z
     /\ ((g <= 0)%Z -> TxServer.addGasBuffer g = g)
     /\ ((0 < g)%Z ->
         (5 * TxServer.addGasBuffer g <= 6 * g
          < 5 * TxServer.addGasBuffer g + 5)%Z))
  /\ (forall a b,
        (a <= b)%Z -> (TxServer.addGasBuffer a <= TxServer.addGasBuffer b)%Z)
  /\ (forall q fallback s,
        let answer := estimateGas C (trace s) q in
        TxServer.estimateGasLimit C q fallback s
        = (Ret (TxServer.buffered answer fallback),
           emit (EvEstimateGas q answer) s)).
Proof.
  split; [|split].
  - intros g. unfold TxServer.addGasBuffer.
    destruct (Z.leb_spec g 0); repeat split; intros; try lia;
      zify; Z.to_euclidean_division_equations; lia.
  - intros a b Hab. unfold TxServer.addGasBuffer.
    destruct (Z.leb_spec a 0), (Z.leb_spec b 0); try lia;
      zify; Z.to_euclidean_division_equations; lia.
  - intros q fallback s. cbv zeta.
    unfold TxServer.estimateGasLimit, TxServer.buffered.
    unfold_flow. unfold_rpc. unfold_flow.
    destruct (estimateGas C (trace s) q); reflexivity.
Qed.

(** X18.  The fee options are never zero: when [getFeeOptions] returns,
    neither the fee cap nor the priority fee is 0, whatever the node
    reported (a missing or zero figure is replaced by the next one in
    line, in the end by 0.05 gwei).  Nothing keeps the priority fee below
    the cap, though: when the node reports no priority fee and the cap it
    leads to is below 0.05 gwei, the priority fee of the options is above
    their cap. *)
Theorem fee_options_fallback (s s' : State) (fees : FeeOptions) :
  getFeeOptions C s = (Ret fees, s') ->
  maxFeePerGas fees <> 0%Z
  /\ maxPriorityFeePerGas fees <> 0%Z
  /\ exists fd,
       getFeeData C (trace s) = inr fd
       /\ s' = emit (EvGetFeeData (inr fd)) s
       /\ (or_else (fd_maxPriorityFeePerGas fd) 0 = 0%Z ->
           (maxFeePerGas fees < fallbackPriority)%Z ->
           (maxFeePerGas fees < maxPriorityFeePerGas fees)%Z).
Proof.
  unfold getFeeOptions. unfold_flow. unfold_rpc. unfold_flow.
  destruct (getFeeData C (trace s)) as [e|fd]; [discriminate|].
  intros [= <- <-]. cbn [maxFeePerGas maxPriorityFeePerGas].
  assert (N : forall a b, b <> 0%Z -> or_else a b <> 0%Z).
  { intros [v|] b Hb; cbn; [|exact Hb].
    destruct (Z.eqb_spec v 0); assumption. }
  assert (F : fallbackPriority <> 0%Z) by discriminate.
  split; [auto|]. split; [auto|].
  exists fd. repeat split.
  destruct (fd_maxPriorityFeePerGas fd) as [v|]; cbn; [|auto].
  destruct (Z.eqb_spec v 0); [auto | intros; contradiction].
Qed.

End BatchTheorems.

Section FundingAgreement.
Import Flow Rpc Observe.
Variable E : Ethers.

Lemma no_words_when_empty (t : string) :
  Js.is_empty t = true -> word_count t = 0%nat.
Proof. destruct t; [reflexivity | discriminate]. Qed.

(** X19.  Where the component accepts a funding secret, the server
    agrees with it: for a secret that [guessSecretType] does not classify
    as unknown, and a derivation path that is not empty, the component and
    the server build the same wallet (from the same trimmed phrase and
    path, or from the same key with "0x" put in front when absent). *)
Theorem funding_secret_entry_points_agree (f : GasBatchManager.Form) :
  GasBatchManager.guessSecretType (GasBatchManager.fundingSecret f)
  <> GasBatchManager.unknown ->
  Js.is_empty (GasBatchManager.fundingPath f) = false ->
  GasBatchManager.resolveFundingWallet E f
  = TxServer.resolveFundingWallet E (GasBatchManager.fundingSecret f)
      (GasBatchManager.fundingPath f).
Proof.
  intros Hknown Hpath.
  unfold GasBatchManager.resolveFundingWallet, TxServer.resolveFundingWallet,
    TxServer.or_default.
  rewrite Hpath.
  unfold GasBatchManager.guessSecretType in *.
  rewrite trim_idempotent.
  set (t := Js.trim (GasBatchManager.fundingSecret f)) in *.
  fold (word_count t) in *.
  destruct (Js.is_empty t) eqn:Et.
  - exfalso. apply Hknown.
    rewrite (no_words_when_empty t Et).
    destruct t; [reflexivity | discriminate].
  - destruct (12 <=? word_count t)%nat; [reflexivity|].
    destruct (Js.startsWith t "0x"); cbn [andb negb] in *;
      destruct (64 <=? String.length t)%nat; try reflexivity;
      contradiction.
Qed.

End FundingAgreement.

(** ** The environment file of the server *)

Section EnvFileProperties.
Import EnvFile.

Lemma load_line_keeps (env : Env) (line name : string) :
  (forall value,
     env name = Some value -> Js.is_empty value = false ->
     load_line env line name = Some value)
  /\ (load_line env line name = None -> env name = None).
Proof.
  unfold load_line.
  destruct (Js.is_empty (Js.trim line) || Js.startsWith (Js.trim line) "#");
    [tauto|].
  destruct (cut _) as [[before after]|]; [|tauto].
  set (key := Js.trim (string_of_list_ascii before)).
  destruct (unset env key) eqn:U; [|tauto].
  unfold assign. destruct (String.eqb_spec name key) as [->|N]; [|tauto].
  split; [|discriminate].
  intros value Hv Hne. unfold unset in U. rewrite Hv in U. congruence.
Qed.

Lemma load_lines_keep (ls : list string) : forall (env : Env) (name : string),
  (forall value,
     env name = Some value -> Js.is_empty value = false ->
     fold_left load_line ls env name = Some value)
  /\ (fold_left load_line ls env name = None -> env name = None).
Proof.
  induction ls as [|line rest IH]; intros env name; cbn [fold_left].
  - tauto.
  - destruct (IH (load_line env line) name) as (K & N).
    destruct (load_line_keeps env line name) as (K1 & N1).
    split.
    + intros value Hv Hne. apply K; [now apply K1 | exact Hne].
    + intros H. apply N1. now apply N.
Qed.

(** X20.  The environment wins over the file: [loadEnvFile] never
    changes a variable that already has a non-empty value, whatever the
    file holds, and it never removes a variable; without a file the
    environment is left as it is. *)
Theorem loadEnvFile_keeps_environment (content : option string) (env : Env)
  (name : string) :
  (forall value,
     env name = Some value -> Js.is_empty value = false ->
     loadEnvFile content env name = Some value)
  /\ (loadEnvFile content env name = None -> env name = None)
  /\ loadEnvFile None env = env.
Proof.
  destruct content as [text|]; cbn [loadEnvFile].
  - destruct (load_lines_keep (lines text) env name) as (K & N).
    repeat split; assumption.
  - repeat split; auto.
Qed.

End EnvFileProperties.

(** ** Selection *)

Section SelectionProperties.
Import Selection.

Lemma includes_spec (ids : list Z) (id : Z) :
  includes ids id = true <-> In id ids.
Proof.
  unfold includes. rewrite existsb_exists. split.
  - intros (x & Hx & E). apply Z.eqb_eq in E. now subst.
  - intros H. exists id. split; [exact H | apply Z.eqb_refl].
Qed.

Lemma filter_absent (id : Z) (ids : list Z) :
  ~ In id ids -> filter (fun item => negb (item =? id)%Z) ids = ids.
Proof.
  induction ids as [|x ids IH]; [reflexivity|]. cbn. intros H.
  destruct (Z.eqb_spec x id) as [->|N]; [tauto|]. cbn. rewrite IH; tauto.
Qed.

(** X21.  [toggleSelection] flips one row and leaves the others: after
    it, the identifier is selected exactly when it was not before, and any
    other identifier is selected exactly when it was; toggling a row that
    was not selected and toggling it again gives back the very same
    selection. *)
Theorem toggleSelection_flips (id : Z) (prev : list Z) :
  (In id (toggleSelection id prev) <-> ~ In id prev)
  /\ (forall other, other <> id ->
        (In other (toggleSelection id prev) <-> In other prev))
  /\ (~ In id prev ->
      toggleSelection id (toggleSelection id prev) = prev).
Proof.
  unfold toggleSelection.
  destruct (includes prev id) eqn:I.
  - apply includes_spec in I. split; [|split].
    + rewrite filter_In, negb_true_iff, Z.eqb_neq. tauto.
    + intros other N. rewrite filter_In, negb_true_iff, Z.eqb_neq. tauto.
    + tauto.
  - assert (N : ~ In id prev).
    { intros H. apply includes_spec in H. congruence. }
    split; [|split].
    + rewrite in_app_iff. cbn. tauto.
    + intros other Ho. rewrite in_app_iff. cbn. split; [|tauto].
      intros [H|[H|[]]]; [exact H | congruence].
    + intros _.
      assert (I2 : includes (prev ++ [id]) id = true).
      { apply includes_spec, in_or_app. right. now left. }
      rewrite I2, filter_app, filter_absent by exact N.
      cbn. rewrite Z.eqb_refl. cbn. apply app_nil_r.
Qed.

Variable E : Rpc.Ethers.

Lemma filter_split {A} (p : A -> bool) (l : list A) :
  (List.length (filter p l) + List.length (filter (fun x => negb (p x)) l)
   = List.length l)%nat.
Proof.
  induction l as [|x l IH]; [reflexivity|]. cbn.
  destruct (p x); cbn; lia.
Qed.

(** X22.  The manual recipients are split without loss: every piece of
    the input that is not blank is either a valid or an invalid recipient
    and never both, so the two lists together are as long as the list of
    pieces; no recipient is empty or has white space around it. *)
Theorem manual_recipients_partition (text : string) :
  let parsed := parsedRecipients text in
  let valid := validManualRecipients E text in
  let invalid := invalidManualRecipients E text in
  (forall a, In a parsed <-> In a valid \/ In a invalid)
  /\ (forall a, In a valid -> In a invalid -> False)
  /\ (List.length valid + List.length invalid = List.length parsed)%nat
  /\ Forall (fun a => Js.is_empty a = false /\ Js.trim a = a) parsed.
Proof.
  cbv zeta. unfold validManualRecipients, invalidManualRecipients.
  set (parsed := parsedRecipients text).
  assert (F : Forall (fun a => Js.is_empty a = false /\ Js.trim a = a)
                parsed).
  { unfold parsed, parsedRecipients, Js.filter_Boolean.
    apply Forall_forall. intros a Ha.
    apply filter_In in Ha as [Ha Hne]. apply negb_true_iff in Hne.
    apply in_map_iff in Ha as (x & <- & _).
    split; [exact Hne | apply trim_idempotent]. }
  assert (Same : filter (fun addr => negb (Js.is_empty addr)
                                     && negb (Rpc.isAddress E addr)) parsed
                 = filter (fun addr => negb (Rpc.isAddress E addr)) parsed).
  { apply filter_ext_in. intros a Ha. rewrite Forall_forall in F.
    destruct (F a Ha) as [-> _]. reflexivity. }
  rewrite Same. split; [|split; [|split]].
  - intros a. rewrite !filter_In, negb_true_iff.
    destruct (Rpc.isAddress E a); intuition congruence.
  - intros a. rewrite !filter_In, negb_true_iff. intros [_ H1] [_ H2].
    congruence.
  - apply filter_split.
  - exact F.
Qed.

End SelectionProperties.

(** ** Decrypting the rows of the CSV (GasBatchManager) *)

Section DecryptViewProperties.
Import Flow Crypto DecryptView ObserveDecrypt.
Variable B : Bip39.Lib.
Variable W : Crypto.WebLib.
Variable V : EvmUtils.Lib.
Variable percent : nat -> nat -> Z.

(** What the GCM [decryptMnemonic] can do: throw, or return a phrase that
    passed [validateMnemonic]. *)
Lemma gui_decrypt_outcome (e p : string) (s : Crypto.State) :
  (exists err s', CryptoUtilsGUI.decryptMnemonic B W e p s = (Throw err, s'))
  \/ (exists m s',
        CryptoUtilsGUI.decryptMnemonic B W e p s = (Ret m, s')
        /\ CryptoUtilsGUI.validateMnemonic B m = true).
Proof.
  unfold CryptoUtilsGUI.decryptMnemonic, CryptoUtilsGUI.decode_base64,
    try_catch, bind, record, modify, bind, lift, throw, ret.
  repeat match goal with
  | |- context [if ?c then _ else _] =>
      lazymatch c with
      | negb (CryptoUtilsGUI.validateMnemonic B ?t) =>
          destruct (CryptoUtilsGUI.validateMnemonic B t) eqn:?; cbn [negb]
      | _ => destruct c eqn:?
      end
  | |- context [match ?x with inl _ => _ | inr _ => _ end] =>
      destruct x eqn:?
  | |- context [match ?x with Some _ => _ | None => _ end] =>
      destruct x eqn:?
  end;
  first [ left; eexists; eexists; reflexivity
        | right; eexists; eexists; split; [reflexivity | assumption] ].
Qed.

Lemma decrypt_pass_outcome (password : string) (total i : nat)
  (item : Csv.Item) (r : Run) :
  exists r',
    decrypt_pass B W V percent password total i item r = (Ret tt, r')
    /\ same_view r r'
    /\ decryptProgress r' = percent i total
    /\ ((exists d, results r' = results r ++ [d] /\ errors r' = errors r
                   /\ made_from B V item d)
        \/ (exists line, results r' = results r
                         /\ errors r' = errors r ++ [line])).
Proof.
  unfold decrypt_pass, decrypt_row, try_catch, bind, with_crypto, push_result,
    push_error, setDecryptProgress, modify, ret, same_view, made_from.
  destruct (Js.is_empty (Csv.encryptedData item)) eqn:He; cbn [negb].
  - cbn [Js.is_empty negb]. change (Js.is_empty EmptyString) with true.
    cbn [negb].
    destruct (Js.is_empty (Csv.privateKey item)) eqn:Hk; cbn [negb].
    + eexists. split; [reflexivity|]. cbn.
      repeat split. left. eexists. repeat split; cbn; congruence.
    + unfold lift, throw, ret.
      destruct (EvmUtils.walletOf V (Csv.privateKey item)) as [err|wallet].
      * eexists. split; [reflexivity|]. cbn. repeat split.
        right. eexists. split; reflexivity.
      * eexists. split; [reflexivity|]. cbn. repeat split.
        left. eexists. repeat split; cbn; congruence.
  - destruct (gui_decrypt_outcome (Csv.encryptedData item) password (crypto r))
      as [(err & c & E)|(m & c & E & Valid)]; rewrite E.
    + eexists. split; [reflexivity|]. cbn. repeat split.
      right. eexists. split; reflexivity.
    + cbn [crypto].
      destruct (Js.is_empty m) eqn:Hm; cbn [negb].
      * destruct (Js.is_empty (Csv.privateKey item)) eqn:Hk; cbn [negb].
        -- eexists. split; [reflexivity|]. cbn. repeat split.
           left. eexists. split; [reflexivity|]. split; [reflexivity|].
           cbn. repeat split; try congruence.
        -- unfold lift, throw, ret.
           destruct (EvmUtils.walletOf V (Csv.privateKey item))
             as [err|wallet].
           ++ eexists. split; [reflexivity|]. cbn. repeat split.
              right. eexists. split; reflexivity.
           ++ eexists. split; [reflexivity|]. cbn. repeat split.
              left. eexists. split; [reflexivity|]. split; [reflexivity|].
              cbn. repeat split; try congruence.
      * unfold lift, throw, ret.
        destruct (EvmUtils.generateEthereumAddress B V m
                    EvmUtils.DEFAULT_ETH_PATH) as [err|info] eqn:G.
        -- eexists. split; [reflexivity|]. cbn. repeat split.
           right. eexists. split; reflexivity.
        -- eexists. split; [reflexivity|]. cbn. repeat split.
           left. eexists. split; [reflexivity|]. split; [reflexivity|].
           cbn. repeat split; try congruence.
           intros _. exists info. split; [exact G | split; reflexivity].
Qed.

Lemma sorted_out_length items ds es :
  sorted_out B V items ds es ->
  (List.length ds + List.length es = List.length items)%nat.
Proof. induction 1; cbn; lia. Qed.

Lemma decrypt_loop (password : string) (total : nat) (items : list Csv.Item) :
  forall (i : nat) (r : Run),
  exists r' ds es,
    for_from i items (decrypt_pass B W V percent password total) r
    = (Ret tt, r')
    /\ same_view r r'
    /\ results r' = results r ++ ds
    /\ errors r' = errors r ++ es
    /\ sorted_out B V items ds es
    /\ decryptProgress r'
       = match items with
         | [] => decryptProgress r
         | _ => percent (i + List.length items - 1) total
         end.
Proof.
  induction items as [|item rest IH]; intros i r.
  - exists r, [], []. cbn. rewrite !app_nil_r. unfold same_view.
    repeat split. constructor.
  - destruct (decrypt_pass_outcome password total i item r)
      as (r1 & E1 & S1 & P1 & Step).
    destruct (IH (S i) r1)
      as (r2 & ds & es & E2 & S2 & R2 & Er2 & Sorted & P2).
    assert (Same : same_view r r2).
    { unfold same_view in *. intuition congruence. }
    assert (Progress :
              decryptProgress r2
              = percent (i + List.length (item :: rest) - 1) total).
    { rewrite P2. destruct rest as [|x rest']; cbn [List.length].
      - rewrite P1. f_equal. lia.
      - f_equal. lia. }
    assert (Run : for_from i (item :: rest)
                    (decrypt_pass B W V percent password total) r
                  = (Ret tt, r2)).
    { cbn [for_from]. unfold bind, iteration. rewrite E1. exact E2. }
    destruct Step as [(d & Rd & Ed & Made)|(line & Rd & Ed)].
    + exists r2, (d :: ds), es. repeat split; try apply Same; auto.
      * rewrite R2, Rd, <- app_assoc. reflexivity.
      * rewrite Er2, Ed. reflexivity.
      * now constructor.
    + exists r2, ds, (line :: es). repeat split; try apply Same; auto.
      * rewrite R2, Rd. reflexivity.
      * rewrite Er2, Ed, <- app_assoc. reflexivity.
      * now constructor.
Qed.

(** X23.  [handleDecrypt] accounts for every row of the file.  With a
    password and at least one row it never throws; every row, in the order
    of the file, ends up either as a row of the decrypted table or as one
    error line, so the two counts add up to the number of rows; all
    decrypted rows are selected, the progress stands at the value for the
    last row and the busy flag is off again. *)
Theorem handleDecrypt_accounts_for_rows (password : string)
  (items : list Csv.Item) (r : Run) :
  Js.is_empty password = false ->
  items <> [] ->
  exists r',
    handleDecrypt B W V percent password items r = (Ret tt, r')
    /\ sorted_out B V items (decryptedItems r') (decryptErrors r')
    /\ (List.length (decryptedItems r') + List.length (decryptErrors r')
        = List.length items)%nat
    /\ selectedIds r' = map id (decryptedItems r')
    /\ decrypting r' = false
    /\ decryptProgress r'
       = percent (List.length items - 1) (List.length items).
Proof.
  intros Hp Hi. unfold handleDecrypt. rewrite Hp.
  destruct items as [|item rest]; [congruence|].
  cbn [List.length Nat.eqb].
  unfold bind at 1, setDecrypting at 1, modify at 1.
  unfold bind at 1, setDecryptErrors at 1, modify at 1.
  unfold bind at 1, setDecryptProgress at 1, modify at 1.
  unfold bind at 1, fresh_arrays at 1, modify at 1.
  unfold bind at 1, for_each.
  match goal with
  | |- context [for_from 0 ?xs ?body ?r0] =>
      destruct (decrypt_loop password (S (List.length rest)) xs 0 r0)
        as (r1 & ds & es & E & Same & Rs & Es & Sorted & Progress)
  end.
  cbn [results errors] in Rs, Es. cbn [app] in Rs, Es.
  rewrite E.
  unfold bind, get, setDecryptedItems, setSelectedIds, setDecryptErrors,
    setDecrypting, modify.
  eexists. split; [reflexivity|]. cbn.
  rewrite Rs, Es. repeat split.
  - exact Sorted.
  - apply (sorted_out_length _ _ _ Sorted).
  - rewrite Progress. reflexivity.
Qed.

(** X24.  [handleDecrypt] fails closed and says why it did nothing.
    Without a password, or without rows, it only sets the error line and
    leaves the table, the selection and the libraries untouched.
    Otherwise every row shown for an item with encrypted data holds a
    phrase that passed [validateMnemonic], with the address and key that
    [generateEthereumAddress] derived from it; a row whose decryption
    failed is never shown. *)
Theorem handleDecrypt_fails_closed (password : string)
  (items : list Csv.Item) (r r' : Run) :
  handleDecrypt B W V percent password items r = (Ret tt, r') ->
  (Js.is_empty password = true ->
   decryptErrors r' = ["请输入解密密码"%string]
   /\ decryptedItems r' = decryptedItems r
   /\ selectedIds r' = selectedIds r /\ crypto r' = crypto r)
  /\ (Js.is_empty password = false -> items = [] ->
      decryptErrors r' = ["请先上传CSV文件"%string]
      /\ decryptedItems r' = decryptedItems r
      /\ selectedIds r' = selectedIds r /\ crypto r' = crypto r)
  /\ (Js.is_empty password = false -> items <> [] ->
      Forall
        (fun d =>
           exists item, In item items /\ made_from B V item d)
        (decryptedItems r')).
Proof.
  intros H. split; [|split].
  - intros Hp. unfold handleDecrypt in H. rewrite Hp in H.
    injection H as <-. repeat split.
  - intros Hp ->. unfold handleDecrypt in H. rewrite Hp in H.
    injection H as <-. repeat split.
  - intros Hp Hi.
    destruct (decrypt_loop password (List.length items) items 0
                (mkRun (crypto r) [] [] true [] 0 (decryptedItems r)
                   (selectedIds r)))
      as (r1 & ds & es & E & Same & Rs & Es & Sorted & _).
    unfold handleDecrypt in H. rewrite Hp in H.
    destruct items as [|item rest]; [congruence|].
    cbn [List.length Nat.eqb] in H, E.
    unfold bind at 1, setDecrypting at 1, modify at 1 in H.
    unfold bind at 1, setDecryptErrors at 1, modify at 1 in H.
    unfold bind at 1, setDecryptProgress at 1, modify at 1 in H.
    unfold bind at 1, fresh_arrays at 1, modify at 1 in H.
    unfold bind at 1, for_each in H.
    cbn [crypto results errors decrypting decryptErrors decryptProgress
         decryptedItems selectedIds] in H.
    rewrite E in H.
    unfold bind, get, setDecryptedItems, setSelectedIds, setDecryptErrors,
      setDecrypting, modify in H.
    injection H as <-. cbn [decryptedItems].
    cbn [results app] in Rs. rewrite Rs.
    clear - Sorted.
    induction Sorted as [|it its d ds' es' Made _ IH|it its line ds' es' _ IH].
    + constructor.
    + constructor.
      * exists it. split; [now left | exact Made].
      * eapply Forall_impl; [|exact IH].
        intros d' (x & Hin & Hm). exists x. split; [now right | exact Hm].
    + eapply Forall_impl; [|exact IH].
      intros d' (x & Hin & Hm). exists x. split; [now right | exact Hm].
Qed.

End DecryptViewProperties.

(** ** Sample runs of the added functions *)

Section DecryptWitnesses.
Import Flow Crypto DecryptView ObserveDecrypt.

Lemma sample_decrypt_returns :
  exists r',
    handleDecrypt Demo.bip39 Demo.web Fixtures.evm Fixtures.percent
      "Test1234!" Fixtures.rows Fixtures.idle = (Ret tt, r')
    /\ map id (decryptedItems r') = [1; 3]%Z
    /\ List.length (decryptErrors r') = 1%nat.
Proof. eexists. vm_compute. repeat split. Qed.

Lemma handleDecrypt_accounts_for_rows_witness :
  exists r',
    handleDecrypt Demo.bip39 Demo.web Fixtures.evm Fixtures.percent
      "Test1234!" Fixtures.rows Fixtures.idle = (Ret tt, r')
    /\ sorted_out Demo.bip39 Fixtures.evm Fixtures.rows (decryptedItems r')
         (decryptErrors r')
    /\ (List.length (decryptedItems r') + List.length (decryptErrors r')
        = List.length Fixtures.rows)%nat
    /\ selectedIds r' = map id (decryptedItems r')
    /\ decrypting r' = false
    /\ decryptProgress r'
       = Fixtures.percent (List.length Fixtures.rows - 1)
           (List.length Fixtures.rows).
Proof.
  apply (handleDecrypt_accounts_for_rows Demo.bip39 Demo.web Fixtures.evm
           Fixtures.percent "Test1234!" Fixtures.rows Fixtures.idle).
  - reflexivity.
  - discriminate.
Defined.

Lemma handleDecrypt_fails_closed_witness :
  exists r',
    handleDecrypt Demo.bip39 Demo.web Fixtures.evm Fixtures.percent
      "Test1234!" Fixtures.rows Fixtures.idle = (Ret tt, r')
    /\ map id (decryptedItems r') = [1; 3]%Z
    /\ Forall
         (fun d =>
            exists item,
              In item Fixtures.rows
              /\ made_from Demo.bip39 Fixtures.evm item d)
         (decryptedItems r').
Proof.
  destruct sample_decrypt_returns as (r' & Hrun & Hids & _).
  exists r'. split; [exact Hrun|]. split; [exact Hids|].
  destruct (handleDecrypt_fails_closed Demo.bip39 Demo.web Fixtures.evm
              Fixtures.percent "Test1234!" Fixtures.rows Fixtures.idle r'
              Hrun) as (_ & _ & Hrows).
  apply Hrows; [reflexivity | discriminate].
Defined.

End DecryptWitnesses.

Section BatchExtraWitnesses.
Import Flow Rpc Observe ObserveBatch.

Lemma calm_fee_options :
  getFeeOptions Demo.calm Rpc.initial
  = (Ret Demo.fees, emit (EvGetFeeData (inr Demo.fee_data)) Rpc.initial).
Proof. vm_compute. reflexivity. Qed.

Lemma fee_options_fallback_witness :
  maxFeePerGas Demo.fees <> 0%Z
  /\ maxPriorityFeePerGas Demo.fees <> 0%Z
  /\ exists fd,
       getFeeData Demo.calm (trace Rpc.initial) = inr fd
       /\ emit (EvGetFeeData (inr Demo.fee_data)) Rpc.initial
          = emit (EvGetFeeData (inr fd)) Rpc.initial
       /\ (or_else (fd_maxPriorityFeePerGas fd) 0 = 0%Z ->
           (maxFeePerGas Demo.fees < fallbackPriority)%Z ->
           (maxFeePerGas Demo.fees < maxPriorityFeePerGas Demo.fees)%Z).
Proof.
  exact (fee_options_fallback Demo.calm Rpc.initial _ Demo.fees
           calm_fee_options).
Defined.

Lemma funding_secret_entry_points_agree_witness :
  GasBatchManager.resolveFundingWallet Demo.ethers
    (Demo.form Demo.secret_key [Demo.alice])
  = TxServer.resolveFundingWallet Demo.ethers Demo.secret_key
      "m/44'/60'/0'/0/0".
Proof.
  apply (funding_secret_entry_points_agree Demo.ethers
           (Demo.form Demo.secret_key [Demo.alice])).
  - vm_compute. discriminate.
  - reflexivity.
Defined.

Lemma send_batch_transfers_witness :
  exists seg wallet value,
    trace (snd Demo.calm_run) = trace Rpc.initial ++ seg
    /\ TxServer.resolveFundingWallet Demo.ethers Demo.secret_key
         TxServer.FUNDING_PATH = inr wallet
    /\ parseEther Demo.ethers "0.00003" = inr value
    /\ Forall (fun ft => fst ft = wallet
                         /\ In (tx_to (snd ft))
                              [Demo.alice; Demo.bob; Demo.carol]
                         /\ tx_value (snd ft) = value) (transfers seg)
    /\ (3 <= List.length (transfers seg) <= 2 * 3)%nat
    /\ Demo.lines_of Demo.calm_run = logs (snd Demo.calm_run).
Proof.
  exact (proj1 (send_batch_transfers Demo.ethers Demo.calm Demo.no_backend)
           (Demo.send_payload [Demo.alice; Demo.bob; Demo.carol])
           Rpc.initial _ _ calm_run_returns).
Defined.

Lemma calm_reclaim_sends :
  List.length
    (transfers
       (trace
          (snd (TxServer.handleReclaimBatch Demo.ethers Demo.calm
                  (Demo.reclaim_payload [Demo.alice_entry; Demo.bob_entry])
                  Rpc.initial))))
  = 2%nat.
Proof. vm_compute. reflexivity. Qed.

Lemma reclaim_batch_transfers_witness :
  exists lines s' seg,
    TxServer.handleReclaimBatch Demo.ethers Demo.calm
      (Demo.reclaim_payload [Demo.alice_entry; Demo.bob_entry]) Rpc.initial
    = (Ret lines, s')
    /\ trace s' = trace Rpc.initial ++ seg
    /\ Forall (fun ft =>
                 (exists entry,
                    In entry [Demo.alice_entry; Demo.bob_entry]
                    /\ newWallet Demo.ethers (entry_key entry)
                       = inr (fst ft))
                 /\ tx_to (snd ft) = Demo.alice
                 /\ (0 < tx_value (snd ft))%Z) (transfers seg)
    /\ (List.length (transfers seg) <= 2)%nat
    /\ lines = logs s'
    /\ List.length (transfers seg) = 2%nat.
Proof.
  destruct (reclaim_batch_transfers Demo.ethers Demo.calm Demo.no_backend)
    as (Hreturns & Hmoves & _).
  destruct (Hreturns
              (Demo.reclaim_payload [Demo.alice_entry; Demo.bob_entry])
              Rpc.initial Demo.fee_data 1000%Z)
    as (lines & s' & Hrun);
    [discriminate | reflexivity | reflexivity | reflexivity
    | vm_compute; reflexivity |].
  exists lines, s'.
  destruct (Hmoves _ _ _ _ Hrun) as (seg & Htr & Hall & Hlen & Hlines).
  exists seg. repeat split; try assumption.
  pose proof calm_reclaim_sends as Hsent. rewrite Hrun in Hsent.
  cbn [snd] in Hsent. rewrite Htr in Hsent. exact Hsent.
Defined.

End BatchExtraWitnesses.

Section EnvFileWitnesses.
Import EnvFile.

Lemma loadEnvFile_sample :
  loadEnvFile (Some Fixtures.env_text) Fixtures.env
    "FUNDING_PATH"%string
  = Some "m/1"%string
  /\ loadEnvFile (Some Fixtures.env_text) Fixtures.env "PORT"%string
     = Some "9000"%string
  /\ loadEnvFile (Some Fixtures.env_text) Fixtures.env "noise"%string
     = None.
Proof. vm_compute. repeat split. Qed.

End EnvFileWitnesses.
